(** * copytab: the offline store, the sync cycle and the completion cache

    A shallow embedding of
      - [src/services/databaseService.ts]  (the remote data services
        [projectService], [documentService], [standardInfoService], the Dexie
        database [OfflineDatabase] and [offlineService]),
      - [src/services/projectService.ts]   (class [ProjectService], the
        [projectService] that [useOfflineSync] pushes projects with),
      - [src/hooks/useOfflineSync.ts]      ([syncData], [syncFromServer]),
      - [src/services/completionService.ts] (class [CompletionService]).

    Conventions.
      - Timestamps.  The code stores [new Date().toISOString()] strings and
        compares them with [<] and [>].  ISO strings of this fixed width are
        ordered as the instants they denote, so a timestamp is the integer
        number of milliseconds since the epoch.
      - Exceptions.  An [async] function either resolves or rejects; a
        rejection carries the [message] of the thrown value.
      - Dexie and supabase are libraries the code calls.  Dexie's tables are
        finite maps keyed by the primary key; supabase is an oracle over an
        abstract remote state. *)

From Stdlib Require Import ZArith String Ascii.
From stdpp Require Import gmap strings list sorting pretty.

Local Open Scope Z_scope.
Local Open Scope string_scope.

(** ** Promises: state passing with rejection *)

Inductive Outcome (A : Type) : Type :=
  | Resolved (a : A)
  | Rejected (message : string).
Arguments Resolved {A} a.
Arguments Rejected {A} message.

Definition Async (S A : Type) : Type := S -> Outcome A * S.

Definition ret {S A} (a : A) : Async S A := fun s => (Resolved a, s).
Definition throw {S A} (message : string) : Async S A :=
  fun s => (Rejected message, s).
Definition bind {S A B} (m : Async S A) (k : A -> Async S B) : Async S B :=
  fun s => match m s with
           | (Resolved a, s') => k a s'
           | (Rejected e, s') => (Rejected e, s')
           end.
Definition try_catch {S A} (body : Async S A) (handler : string -> Async S A)
  : Async S A :=
  fun s => match body s with
           | (Resolved a, s') => (Resolved a, s')
           | (Rejected e, s') => handler e s'
           end.

Declare Scope async_scope.
Delimit Scope async_scope with async.
Notation "'let!' x ':=' m 'in' k" := (bind m (fun x => k))
  (at level 10, x name, m at level 100, k at level 200, only parsing)
  : async_scope.
Notation "'do!' m 'in' k" := (bind m (fun _ => k))
  (at level 10, m at level 100, k at level 200, only parsing) : async_scope.
Local Open Scope async_scope.

(** [for (const x of xs) { await body(x) }]: a rejection leaves the loop. *)
Fixpoint for_of {S A} (xs : list A) (body : A -> Async S unit) : Async S unit :=
  match xs with
  | [] => ret tt
  | x :: rest => do! body x in for_of rest body
  end.

(** JavaScript truthiness of a string: the empty string is falsy. *)
Definition truthy (s : string) : bool := negb (String.eqb s EmptyString).

(** ** Dexie tables

    A table with an inbound primary key is a finite map from the key to the
    stored object.  [key] reads the primary key off an object. *)

Module Dexie.
Section Table.
Context {V : Type} (key : V -> string).

(** Results come back in primary-key order. *)
Definition key_le (a b : V) : Prop := String.leb (key a) (key b) = true.
#[local] Instance key_le_dec (a b : V) : Decision (key_le a b).
Proof. unfold key_le. apply _. Defined.

Definition toArray (t : gmap string V) : list V :=
  merge_sort key_le (snd <$> map_to_list t).

(** [table.put(obj)]: create or replace. *)
Definition put (obj : V) (t : gmap string V) : gmap string V :=
  <[key obj := obj]> t.

(** [table.add(obj)]: rejects when the key is taken. *)
Definition add (obj : V) : Async (gmap string V) unit := fun t =>
  match t !! key obj with
  | Some _ => (Rejected "Key already exists in the object store.", t)
  | None => (Resolved tt, <[key obj := obj]> t)
  end.

(** [table.delete(k)] and [table.bulkDelete(ks)]. *)
Definition delete_ (k : string) (t : gmap string V) : gmap string V :=
  delete k t.
Definition bulkDelete (ks : list string) (t : gmap string V) : gmap string V :=
  foldr delete_ t ks.

(** [table.update(k, changes)] is [where(':id').equals(k).modify(changes)].
    [apply] performs the changes on the stored object; it yields [None]
    when the changed object has no primary key left (a change
    [id: undefined] deletes the property).
    - no object at [k]: nothing happens;
    - primary key unchanged: the object is replaced in place;
    - primary key changed (Dexie 3 and later): the changed object is added
      under its new key and the old key is deleted; when the add fails (no
      key, or the new key is taken) the update rejects and the table is
      unchanged.
    The number of modified objects that [update] resolves with is not read
    by any caller and is left out. *)
Definition update (k : string) (apply : V -> option V)
  : Async (gmap string V) unit := fun t =>
  match t !! k with
  | None => (Resolved tt, t)
  | Some obj =>
      match apply obj with
      | None =>
          (Rejected "Evaluating the object store's key path did not yield a value.", t)
      | Some obj' =>
          if decide (key obj' = k) then (Resolved tt, <[k := obj']> t)
          else match t !! key obj' with
               | Some _ => (Rejected "Error modifying one or more objects", t)
               | None => (Resolved tt, delete k (<[key obj' := obj']> t))
               end
      end
  end.

(** [table.where(index).equals(value).and(p).toArray()].  [stores] is the
    list of indexed key paths declared for the table in
    [this.version(1).stores({...})]; a query on a key path that is not in it
    rejects with Dexie's SchemaError. *)
Definition where_equals (stores : list string) (table_name index : string)
    (field : V -> string) (value : string) (p : V -> bool)
  : Async (gmap string V) (list V) := fun t =>
  if bool_decide (index ∈ stores)
  then (Resolved (filter (fun v => field v = value ∧ p v = true) (toArray t)), t)
  else (Rejected ("KeyPath " +:+ index +:+ " on object store " +:+ table_name
                  +:+ " is not indexed"), t).

(** Objects stored under their own key, as [put] and [add] store them. *)
Definition keyed (t : gmap string V) : Prop := ∀ k v, t !! k = Some v → key v = k.
End Table.
End Dexie.


(** ** The offline database ([OfflineDatabase] in databaseService.ts) *)

Inductive SyncStatus : Type := synced | pending | error.
#[global] Instance SyncStatus_eq_dec : EqDecision SyncStatus.
Proof. solve_decision. Defined.

Inductive TableName : Type := t_documents | t_projects | t_standard_info.
#[global] Instance TableName_eq_dec : EqDecision TableName.
Proof. solve_decision. Defined.

Inductive Operation : Type := op_create | op_update | op_delete.
#[global] Instance Operation_eq_dec : EqDecision Operation.
Proof. solve_decision. Defined.

Definition table_name (t : TableName) : string :=
  match t with
  | t_documents => "documents"
  | t_projects => "projects"
  | t_standard_info => "standard_info"
  end.

(** [OfflineDocument], [OfflineProject] and [OfflineStandardInfo]: the
    columns of the remote row ([columns]: title, content, name, tags,
    created_at, ... according to the table) and the sync envelope. *)
Record Offline (F : Type) : Type := mkOffline {
  id : string;
  user_id : string;
  columns : F;
  sync_status : SyncStatus;
  last_sync_at : option Z;
  local_updated_at : Z
}.
Arguments mkOffline {F}.
Arguments id {F}.
Arguments user_id {F}.
Arguments columns {F}.
Arguments sync_status {F}.
Arguments last_sync_at {F}.
Arguments local_updated_at {F}.

(** A row as the remote store returns it. *)
Record Row (F : Type) : Type := mkRow {
  row_id : string;
  row_user_id : string;
  row_columns : F
}.
Arguments mkRow {F}.
Arguments row_id {F}.
Arguments row_user_id {F}.
Arguments row_columns {F}.

(** [Partial<OfflineDocument>] as the save functions receive it: the id may
    be missing. *)
Record PartialRecord (F : Type) : Type := mkPartial {
  p_id : option string;
  p_user_id : string;
  p_columns : F
}.
Arguments mkPartial {F}.
Arguments p_id {F}.
Arguments p_user_id {F}.
Arguments p_columns {F}.

(** The changes object of [table.update(key, changes)] on a domain table.
    The code passes [{sync_status, last_sync_at}] and [{id, sync_status}]. *)
Inductive Change (A : Type) : Type :=
  | Unchanged
  | ToUndefined
  | To (a : A).
Arguments Unchanged {A}.
Arguments ToUndefined {A}.
Arguments To {A} a.

Record OfflineChanges : Type := mkChanges {
  set_id : Change string;
  set_sync_status : option SyncStatus;
  set_last_sync_at : option (option Z)
}.

Definition applyChanges {F} (c : OfflineChanges) (r : Offline F)
  : option (Offline F) :=
  let r' (i : string) :=
    mkOffline i (user_id r) (columns r)
      (default (sync_status r) (set_sync_status c))
      (default (last_sync_at r) (set_last_sync_at c))
      (local_updated_at r) in
  match set_id c with
  | Unchanged => Some (r' (id r))
  | ToUndefined => None
  | To i => Some (r' i)
  end.

(** *** Times and their ISO texts

    Times are milliseconds from the epoch.  [new Date(t).toISOString()]
    throws a RangeError unless [t] is a time value, at most 8.64e15 ms from
    the epoch.  It writes an instant of the years 0000 to 9999 with a
    four-digit year, and such texts order as their instants do; any other
    instant is written with an expanded year, with a leading [+] or [-],
    characters that order before every digit. *)
Definition time_value (t : Z) : bool :=
  ((-8640000000000000 <=? t) && (t <=? 8640000000000000))%Z.

(** [0000-01-01T00:00:00.000Z] and [9999-12-31T23:59:59.999Z]. *)
Definition first_text_instant : Z := -62167219200000.
Definition last_text_instant : Z := 253402300799999.
Definition four_digit_year (t : Z) : Prop :=
  (first_text_instant <= t <= last_text_instant)%Z.

(** The [expires_at] of a cache row is only ever compared with the text of a
    clock reading: by [>] in [getCache], by the key range [below(now)] in
    [clearExpiredCache].  It is kept as the instant whose four-digit text
    orders against such a text as the stored value does: the instant itself
    for a four-digit text, and [before_every_text] for a text with an
    expanded year and for a [Date] object (the value that
    [saveCachedCompletion] stores), which [below] orders before every text
    and for which [>] against a text is false. *)
Definition before_every_text : Z := (first_text_instant - 1)%Z.
Definition index_key (t : Z) : Z :=
  if decide (four_digit_year t) then t else before_every_text.

Record OfflineCache : Type := mkCache {
  c_id : string;
  c_key : string;
  c_data : string;
  expires_at : Z;
  c_created_at : Z
}.

Section OfflineService.
Context {DocumentColumns ProjectColumns StandardInfoColumns : Type}.

(** [data: any] of a queue item: the snapshot the caller enqueued. *)
Inductive QueueData : Type :=
  | QDocument (d : Offline DocumentColumns)
  | QProject (p : Offline ProjectColumns)
  | QStandardInfo (s : Offline StandardInfoColumns)
  | QRef (ref_id ref_user_id : string).

Definition data_id (d : QueueData) : string :=
  match d with
  | QDocument d => id d
  | QProject p => id p
  | QStandardInfo s => id s
  | QRef i _ => i
  end.
Definition data_user_id (d : QueueData) : string :=
  match d with
  | QDocument d => user_id d
  | QProject p => user_id p
  | QStandardInfo s => user_id s
  | QRef _ u => u
  end.

Record SyncQueueItem : Type := mkQueueItem {
  q_id : string;
  q_table : TableName;
  q_operation : Operation;
  q_data : QueueData;
  original_id : string;
  q_user_id : string;
  q_created_at : Z;
  retry_count : Z;
  last_error : option string
}.

Record OfflineDatabase : Type := mkDB {
  documents : gmap string (Offline DocumentColumns);
  projects : gmap string (Offline ProjectColumns);
  standard_info : gmap string (Offline StandardInfoColumns);
  sync_queue : gmap string SyncQueueItem;
  cache : gmap string OfflineCache
}.

(** [this.version(1).stores({...})]: the indexed key paths of each table. *)
Definition stores_documents : list string :=
  ["id"; "project_id"; "user_id"; "sync_status"; "local_updated_at"].
Definition stores_projects : list string :=
  ["id"; "user_id"; "sync_status"; "local_updated_at"].
Definition stores_standard_info : list string :=
  ["id"; "user_id"; "category"; "sync_status"; "local_updated_at"].
Definition stores_sync_queue : list string :=
  ["id"; "table"; "operation"; "user_id"; "created_at"].
Definition stores_cache : list string := ["id"; "key"; "expires_at"].

(** Running a table operation on one table of the database. *)
Definition on_documents {A} (m : Async (gmap string (Offline DocumentColumns)) A)
  : Async OfflineDatabase A := fun db =>
  let '(r, t) := m (documents db) in
  (r, mkDB t (projects db) (standard_info db) (sync_queue db) (cache db)).
Definition on_projects {A} (m : Async (gmap string (Offline ProjectColumns)) A)
  : Async OfflineDatabase A := fun db =>
  let '(r, t) := m (projects db) in
  (r, mkDB (documents db) t (standard_info db) (sync_queue db) (cache db)).
Definition on_standard_info {A}
    (m : Async (gmap string (Offline StandardInfoColumns)) A)
  : Async OfflineDatabase A := fun db =>
  let '(r, t) := m (standard_info db) in
  (r, mkDB (documents db) (projects db) t (sync_queue db) (cache db)).
Definition on_sync_queue {A} (m : Async (gmap string SyncQueueItem) A)
  : Async OfflineDatabase A := fun db =>
  let '(r, t) := m (sync_queue db) in
  (r, mkDB (documents db) (projects db) (standard_info db) t (cache db)).
Definition on_cache {A} (m : Async (gmap string OfflineCache) A)
  : Async OfflineDatabase A := fun db =>
  let '(r, t) := m (cache db) in
  (r, mkDB (documents db) (projects db) (standard_info db) (sync_queue db) t).

(** A table operation that cannot reject. *)
Definition run {T} (f : T -> T) : Async T unit := fun t => (Resolved tt, f t).

(** *** offlineService *)

(** [addToSyncQueue(table, operation, data)]; [now] is [Date.now()]. *)
Definition addToSyncQueue (now : Z) (table : TableName) (operation : Operation)
    (data : QueueData) : Async OfflineDatabase SyncQueueItem :=
  let queueItem :=
    mkQueueItem (table_name table +:+ "_" +:+ data_id data +:+ "_" +:+ pretty now)
      table operation data (data_id data) (data_user_id data) now 0 None in
  do! on_sync_queue (Dexie.add q_id queueItem) in
  ret queueItem.

(** [put] of an object whose inbound key is missing rejects. *)
Definition put_partial {F} (now : Z) (part : PartialRecord F)
  : Async (gmap string (Offline F)) (Offline F) :=
  match p_id part with
  | None => throw "Evaluating the object store's key path did not yield a value."
  | Some i =>
      let offline := mkOffline i (p_user_id part) (p_columns part) pending None now in
      do! run (Dexie.put id offline) in ret offline
  end.

Definition operation_for {F} (part : PartialRecord F) : Operation :=
  match p_id part with
  | Some i => if truthy i then op_update else op_create
  | None => op_create
  end.

Definition saveDocumentOffline (now : Z) (document : PartialRecord DocumentColumns)
  : Async OfflineDatabase (Offline DocumentColumns) :=
  let! offlineDoc := on_documents (put_partial now document) in
  do! addToSyncQueue now t_documents (operation_for document) (QDocument offlineDoc) in
  ret offlineDoc.

Definition saveProjectOffline (now : Z) (project : PartialRecord ProjectColumns)
  : Async OfflineDatabase (Offline ProjectColumns) :=
  let! offlineProject := on_projects (put_partial now project) in
  do! addToSyncQueue now t_projects (operation_for project) (QProject offlineProject) in
  ret offlineProject.

Definition saveStandardInfoOffline (now : Z)
    (standardInfo : PartialRecord StandardInfoColumns)
  : Async OfflineDatabase (Offline StandardInfoColumns) :=
  let! offlineStandard := on_standard_info (put_partial now standardInfo) in
  do! addToSyncQueue now t_standard_info (operation_for standardInfo)
        (QStandardInfo offlineStandard) in
  ret offlineStandard.

Definition always {V} (_ : V) : bool := true.

Definition getUserOfflineDocuments (userId : string)
  : Async OfflineDatabase (list (Offline DocumentColumns)) :=
  on_documents
    (Dexie.where_equals id stores_documents "documents" "user_id" user_id userId always).

Definition getUserOfflineProjects (userId : string)
  : Async OfflineDatabase (list (Offline ProjectColumns)) :=
  on_projects
    (Dexie.where_equals id stores_projects "projects" "user_id" user_id userId always).

(** Called without a category everywhere in the sync code. *)
Definition getUserOfflineStandardInfo (userId : string)
  : Async OfflineDatabase (list (Offline StandardInfoColumns)) :=
  on_standard_info
    (Dexie.where_equals id stores_standard_info "standard_info" "user_id" user_id
       userId always).

Definition getPendingSyncItems (userId : string)
  : Async OfflineDatabase (list SyncQueueItem) :=
  on_sync_queue
    (Dexie.where_equals q_id stores_sync_queue "sync_queue" "user_id" q_user_id
       userId always).

Definition clearSyncQueue (userId : string) : Async OfflineDatabase unit :=
  let! items := getPendingSyncItems userId in
  on_sync_queue (run (Dexie.bulkDelete (q_id <$> items))).

(** [updateSyncStatus(table, id, status, error?)].  The status and
    [last_sync_at] are written first; with a truthy [error] the queue items of
    the record are then looked up by [original_id]. *)
Definition status_changes (now : Z) (status : SyncStatus) : OfflineChanges :=
  mkChanges Unchanged (Some status)
    (Some (if decide (status = synced) then Some now else None)).

Definition bump_retry (err : string) (item : SyncQueueItem) : option SyncQueueItem :=
  Some (mkQueueItem (q_id item) (q_table item) (q_operation item) (q_data item)
          (original_id item) (q_user_id item) (q_created_at item)
          (retry_count item + 1) (Some err)).

Definition updateSyncStatus (now : Z) (table : TableName) (i : string)
    (status : SyncStatus) (err : option string) : Async OfflineDatabase unit :=
  do! match table with
      | t_documents =>
          on_documents (Dexie.update id i (applyChanges (status_changes now status)))
      | t_projects =>
          on_projects (Dexie.update id i (applyChanges (status_changes now status)))
      | t_standard_info =>
          on_standard_info
            (Dexie.update id i (applyChanges (status_changes now status)))
      end in
  match err with
  | Some e =>
      if truthy e then
        let! queueItems := on_sync_queue
          (Dexie.where_equals q_id stores_sync_queue "sync_queue" "original_id"
             original_id i always) in
        for_of queueItems (fun item =>
          on_sync_queue (Dexie.update q_id (q_id item) (bump_retry e)))
      else ret tt
  | None => ret tt
  end.
(** The cache table.  [setCache] computes the text of the expiry before the
    [put]: an expiry that is not a time value makes [toISOString] throw, and
    nothing is written.  [data || null] maps a falsy payload to [null]. *)
Definition setCache (now : Z) (key data : string) (ttlMinutes : Z)
  : Async OfflineDatabase unit :=
  let expiresAt := now + ttlMinutes * 60 * 1000 in
  if time_value expiresAt then
    on_cache (run (Dexie.put c_id
      (mkCache (key +:+ "_" +:+ pretty now) key data (index_key expiresAt) now)))
  else throw "Invalid time value".

Definition getCache (now : Z) (key : string)
  : Async OfflineDatabase (option string) :=
  let! found := on_cache
    (Dexie.where_equals c_id stores_cache "cache" "key" c_key key
       (fun item => bool_decide (expires_at item > now))) in
  ret (match head found with
       | Some cached => if truthy (c_data cached) then Some (c_data cached) else None
       | None => None
       end).

(** [where('expires_at').below(now)]: the rows whose key orders before the
    text of [now]. *)
Definition expired_entries (now : Z) (t : gmap string OfflineCache)
  : list OfflineCache :=
  filter (fun item => expires_at item < now) (Dexie.toArray c_id t).

Definition clearExpiredCache (now : Z) : Async OfflineDatabase unit :=
  on_cache (run (fun t => Dexie.bulkDelete (c_id <$> expired_entries now t) t)).

(** [getSyncStats(userId)] *)
Record Counts : Type := mkCounts {
  total : nat;
  n_synced : nat;
  n_pending : nat;
  n_error : nat
}.

Definition count_status {F} (s : SyncStatus) (l : list (Offline F)) : nat :=
  length (filter (fun r => sync_status r = s) l).

Definition counts {F} (l : list (Offline F)) : Counts :=
  mkCounts (length l) (count_status synced l) (count_status pending l)
    (count_status error l).

Record SyncStats : Type := mkStats {
  st_documents : Counts;
  st_projects : Counts;
  st_standardInfo : Counts;
  st_syncQueue : nat;
  st_lastSyncAt : option Z
}.

(** [new Date(d.last_sync_at || 0).getTime()] *)
Definition sync_time {F} (d : Offline F) : Z := default 0 (last_sync_at d).

(** [Math.max(...xs)] of a non-empty argument list. *)
Definition Math_max (x : Z) (xs : list Z) : Z := foldr Z.max x xs.

Definition lastSyncAt_of (docs : list (Offline DocumentColumns)) : option Z :=
  match sync_time <$> docs with
  | [] => None
  | t :: ts => Some (Math_max t ts)
  end.

Definition getSyncStats (userId : string) : Async OfflineDatabase SyncStats :=
  let! docs := getUserOfflineDocuments userId in
  let! projs := getUserOfflineProjects userId in
  let! stds := getUserOfflineStandardInfo userId in
  let! syncQueue := getPendingSyncItems userId in
  ret (mkStats (counts docs) (counts projs) (counts stds) (length syncQueue)
         (lastSyncAt_of docs)).

(** [deleteDocument(userId, documentId)] *)
Definition deleteDocument (now : Z) (userId documentId : string)
  : Async OfflineDatabase unit :=
  do! on_documents (run (Dexie.delete_ documentId)) in
  do! addToSyncQueue now t_documents op_delete (QRef documentId userId) in
  ret tt.
End OfflineService.

Arguments QueueData : clear implicits.
Arguments SyncQueueItem : clear implicits.
Arguments OfflineDatabase : clear implicits.

(** ** The remote services and the sync cycle *)

(** What a supabase query resolves to: [{data, error}] with one of the two
    set. *)
Inductive Reply (T : Type) : Type :=
  | Data (d : T)
  | Error (message : string).
Arguments Data {T} d.
Arguments Error {T} message.

(** [ProjectServiceResponse<T>] of projectService.ts. *)
Record ProjectServiceResponse (T : Type) : Type := mkResponse {
  resp_data : option T;
  resp_error : option string
}.
Arguments mkResponse {T}.

(** The remote calls of a cycle, recorded for the statements below:
    [PushCall table operation i] is a create or update issued on behalf of
    the local record [i] of [table]; [ListCall table] is a pull fetch. *)
Inductive RemoteCall : Type :=
  | PushCall (table : TableName) (operation : Operation) (local_id : string)
  | ListCall (table : TableName).
#[global] Instance RemoteCall_eq_dec : EqDecision RemoteCall.
Proof. solve_decision. Defined.

Section Sync.
Context {DocumentColumns ProjectColumns StandardInfoColumns : Type}.
Context {G : Type}.

#[local] Abbreviation DB := (OfflineDatabase DocumentColumns ProjectColumns StandardInfoColumns).

(** The supabase client: an oracle over the remote state [G]. *)
Record Supabase : Type := mkSupabase {
  auth_getUser : Async G (option string);
  projects_insert : ProjectColumns -> string -> Async G (Reply (Row ProjectColumns));
  projects_update :
    string -> string -> ProjectColumns -> Async G (Reply (Row ProjectColumns));
  projects_select : string -> Async G (Reply (list (Row ProjectColumns)));
  documents_insert :
    DocumentColumns -> string -> Async G (Reply (Row DocumentColumns));
  documents_update :
    string -> DocumentColumns -> Async G (Reply (Row DocumentColumns));
  documents_select : string -> Async G (Reply (list (Row DocumentColumns)));
  standard_info_insert :
    StandardInfoColumns -> string -> Async G (Reply (Row StandardInfoColumns));
  standard_info_update :
    string -> StandardInfoColumns -> Async G (Reply (Row StandardInfoColumns));
  standard_info_select : string -> Async G (Reply (list (Row StandardInfoColumns)))
}.

Variable supabase : Supabase.

(** [if (error) throw error; return data] *)
Definition unwrap {T} (m : Async G (Reply T)) : Async G T :=
  let! reply := m in
  match reply with
  | Error message => throw message
  | Data d => ret d
  end.

(** *** databaseService.ts: these services reject on a gateway error *)
Definition getUserProjects (userId : string) := unwrap (projects_select supabase userId).
Definition getUserDocuments (userId : string) := unwrap (documents_select supabase userId).
Definition createDocument (document : DocumentColumns) (userId : string) :=
  unwrap (documents_insert supabase document userId).
Definition updateDocument (i : string) (updates : DocumentColumns) :=
  unwrap (documents_update supabase i updates).
Definition getUserStandardInfo (userId : string) :=
  unwrap (standard_info_select supabase userId).
Definition createStandardInfo (info : StandardInfoColumns) (userId : string) :=
  unwrap (standard_info_insert supabase info userId).
Definition updateStandardInfo (i : string) (updates : StandardInfoColumns) :=
  unwrap (standard_info_update supabase i updates).

(** *** projectService.ts, class ProjectService: every path resolves with a
    [{data, error}] object; nothing is thrown to the caller. *)
Definition respond {T} (user_query : string -> Async G (Reply T))
  : Async G (ProjectServiceResponse T) :=
  try_catch
    (let! user := auth_getUser supabase in
     match user with
     | None => ret (mkResponse None (Some "用户未登录"))
     | Some u =>
         let! reply := user_query u in
         match reply with
         | Error message => ret (mkResponse None (Some message))
         | Data project => ret (mkResponse (Some project) None)
         end
     end)
    (fun message => ret (mkResponse None (Some message))).

Definition createProject (data : ProjectColumns)
  : Async G (ProjectServiceResponse (Row ProjectColumns)) :=
  respond (fun u => projects_insert supabase data u).
Definition updateProject (i : string) (data : ProjectColumns)
  : Async G (ProjectServiceResponse (Row ProjectColumns)) :=
  respond (fun u => projects_update supabase i u data).

(** *** useOfflineSync.ts *)

Record World : Type := mkWorld {
  db : DB;
  remote : G;
  calls : list RemoteCall
}.

Definition on_db {A} (m : Async DB A) : Async World A := fun w =>
  let '(r, d) := m (db w) in (r, mkWorld d (remote w) (calls w)).

(** A remote call: runs on the remote state and is recorded. *)
Definition on_remote {A} (c : RemoteCall) (m : Async G A) : Async World A := fun w =>
  let '(r, g) := m (remote w) in (r, mkWorld (db w) g (calls w ++ [c])).

(** [x.id && !x.id.startsWith('temp_')] *)
Definition is_server_id (i : string) : bool :=
  truthy i && negb (String.prefix "temp_" i).

(** [(newProject as any).id]: the response object of [ProjectService] has
    the properties [data] and [error] and no [id]. *)
Definition response_id {T} (_ : ProjectServiceResponse T) : Change string :=
  ToUndefined.

Definition pushProject (now : Z) (project : Offline ProjectColumns)
  : Async World unit :=
  try_catch
    (do! (if is_server_id (id project) then
            do! on_remote (PushCall t_projects op_update (id project))
                  (updateProject (id project) (columns project)) in
            ret tt
          else
            let! newProject :=
              on_remote (PushCall t_projects op_create (id project))
                (createProject (columns project)) in
            on_db (on_projects (Dexie.update id (id project)
              (applyChanges (mkChanges (response_id newProject) (Some synced) None)))))
     in
     on_db (updateSyncStatus now t_projects (id project) synced None))
    (fun message =>
       on_db (updateSyncStatus now t_projects (id project) error (Some message))).

Definition pushDocument (now : Z) (userId : string)
    (document : Offline DocumentColumns) : Async World unit :=
  try_catch
    (do! (if is_server_id (id document) then
            do! on_remote (PushCall t_documents op_update (id document))
                  (updateDocument (id document) (columns document)) in
            ret tt
          else
            let! newDocument :=
              on_remote (PushCall t_documents op_create (id document))
                (createDocument (columns document) userId) in
            on_db (on_documents (Dexie.update id (id document)
              (applyChanges (mkChanges (To (row_id newDocument)) (Some synced) None)))))
     in
     on_db (updateSyncStatus now t_documents (id document) synced None))
    (fun message =>
       on_db (updateSyncStatus now t_documents (id document) error (Some message))).

Definition pushStandardInfo (now : Z) (userId : string)
    (standard : Offline StandardInfoColumns) : Async World unit :=
  try_catch
    (do! (if is_server_id (id standard) then
            do! on_remote (PushCall t_standard_info op_update (id standard))
                  (updateStandardInfo (id standard) (columns standard)) in
            ret tt
          else
            do! on_remote (PushCall t_standard_info op_create (id standard))
                  (createStandardInfo (columns standard) userId) in
            ret tt)
     in
     on_db (updateSyncStatus now t_standard_info (id standard) synced None))
    (fun message =>
       on_db (updateSyncStatus now t_standard_info (id standard) error
                (Some message))).

(** [xs.filter(x => x.sync_status === 'pending')] *)
Definition pending_only {F} (l : list (Offline F)) : list (Offline F) :=
  filter (fun r => sync_status r = pending) l.

Definition pushProjects (now : Z) (userId : string) : Async World unit :=
  let! offlineProjects := on_db (getUserOfflineProjects userId) in
  for_of (pending_only offlineProjects) (pushProject now).

Definition pushDocuments (now : Z) (userId : string) : Async World unit :=
  let! offlineDocuments := on_db (getUserOfflineDocuments userId) in
  for_of (pending_only offlineDocuments) (pushDocument now userId).

Definition pushStandardInfos (now : Z) (userId : string) : Async World unit :=
  let! offlineStandardInfo := on_db (getUserOfflineStandardInfo userId) in
  for_of (pending_only offlineStandardInfo) (pushStandardInfo now userId).

(** [syncFromServer]: the three fetches of [Promise.all], then one [put] per
    returned row. *)
Definition from_server {F} (now : Z) (r : Row F) : Offline F :=
  mkOffline (row_id r) (row_user_id r) (row_columns r) synced (Some now) now.

Definition put_all {F} (now : Z) (rows : list (Row F))
  : Async (gmap string (Offline F)) unit :=
  for_of rows (fun r => run (Dexie.put id (from_server now r))).

Definition syncFromServer (now : Z) (user : option string) : Async World unit :=
  match user with
  | None => ret tt
  | Some userId =>
      let! serverProjects := on_remote (ListCall t_projects) (getUserProjects userId) in
      let! serverDocuments :=
        on_remote (ListCall t_documents) (getUserDocuments userId) in
      let! serverStandardInfo :=
        on_remote (ListCall t_standard_info) (getUserStandardInfo userId) in
      do! on_db (on_projects (put_all now serverProjects)) in
      do! on_db (on_documents (put_all now serverDocuments)) in
      on_db (on_standard_info (put_all now serverStandardInfo))
  end.

(** The body of the [try] of [syncData]. *)
Definition pushPhase (now : Z) (userId : string) : Async World unit :=
  do! pushProjects now userId in
  do! pushDocuments now userId in
  pushStandardInfos now userId.

Definition cycle (now : Z) (userId : string) : Async World unit :=
  do! pushPhase now userId in
  do! syncFromServer now (Some userId) in
  on_db (clearExpiredCache now).

Record SyncState : Type := mkSyncState {
  isOnline : bool;
  isSyncing : bool;
  lastSyncAt : option Z;
  syncError : option string;
  syncStats : option SyncStats
}.

(** [stats.lastSyncAt ? new Date(stats.lastSyncAt) : null] *)
Definition truthy_time (t : option Z) : option Z :=
  match t with
  | Some 0 => None
  | other => other
  end.

Definition loadSyncStats (user : option string) (st : SyncState)
  : World -> SyncState * World := fun w =>
  match user with
  | None => (st, w)
  | Some userId =>
      match on_db (getSyncStats userId) w with
      | (Resolved stats, w') =>
          (mkSyncState (isOnline st) (isSyncing st)
             (truthy_time (st_lastSyncAt stats)) (syncError st) (Some stats), w')
      | (Rejected _, w') => (st, w')
      end
  end.

Definition syncData (now : Z) (user : option string) (st : SyncState)
  : World -> SyncState * World := fun w =>
  match user with
  | None => (st, w)
  | Some userId =>
      if negb (isOnline st) || isSyncing st then (st, w)
      else
        let '(r, w') := cycle now userId w in
        let st' :=
          match r with
          | Resolved _ =>
              mkSyncState (isOnline st) false (Some now) None (syncStats st)
          | Rejected message =>
              mkSyncState (isOnline st) false (lastSyncAt st) (Some message)
                (syncStats st)
          end in
        loadSyncStats user st' w'
  end.
End Sync.

Arguments Supabase : clear implicits.
Arguments World : clear implicits.

(** ** completionService.ts *)

Module Completion.
Local Open Scope list_scope.
Local Open Scope Z_scope.

(** A JavaScript string: its sequence of UTF-16 code units. *)
Definition jsstring : Type := list N.

Definition js (s : string) : jsstring :=
  (fun a => N_of_ascii a) <$> list_ascii_of_string s.

(** [String.prototype.trim]: white space and line terminators. *)
Definition is_white_space (c : N) : bool :=
  bool_decide (c ∈ [9; 10; 11; 12; 13; 32; 160; 5760; 8232; 8233; 8239; 8287;
                    12288; 65279]%N)
  || ((8192 <=? c) && (c <=? 8202))%N.

Fixpoint trim_start (s : jsstring) : jsstring :=
  match s with
  | c :: rest => if is_white_space c then trim_start rest else s
  | [] => []
  end.
Definition trim (s : jsstring) : jsstring :=
  reverse (trim_start (reverse (trim_start s))).

(** [JSON.stringify] of a string. *)
Definition hex_digit (n : N) : N :=
  if (n <? 10)%N then (48 + n)%N else (87 + n)%N.
Definition unicode_escape (c : N) : jsstring :=
  js "\u" ++ [hex_digit (c / 4096 mod 16); hex_digit (c / 256 mod 16);
              hex_digit (c / 16 mod 16); hex_digit (c mod 16)]%N.
Definition is_high_surrogate (c : N) : bool := ((55296 <=? c) && (c <=? 56319))%N.
Definition is_low_surrogate (c : N) : bool := ((56320 <=? c) && (c <=? 57343))%N.

Definition escape_unit (c : N) : jsstring :=
  if (c =? 34)%N then [92; 34]%N else
  if (c =? 92)%N then js "\\" else
  if (c =? 8)%N then js "\b" else
  if (c =? 12)%N then js "\f" else
  if (c =? 10)%N then js "\n" else
  if (c =? 13)%N then js "\r" else
  if (c =? 9)%N then js "\t" else
  if (c <? 32)%N then unicode_escape c else [c].

Fixpoint quote_units (s : jsstring) : jsstring :=
  match s with
  | [] => []
  | c :: rest =>
      if is_high_surrogate c then
        match rest with
        | d :: rest' =>
            if is_low_surrogate d then c :: d :: quote_units rest'
            else unicode_escape c ++ quote_units rest
        | [] => unicode_escape c
        end
      else if is_low_surrogate c then unicode_escape c ++ quote_units rest
      else escape_unit c ++ quote_units rest
  end.
Definition quote (s : jsstring) : jsstring := [34%N] ++ quote_units s ++ [34%N].

(** [CompletionRequest].  [maxTokens] is an integer token budget;
    [temperature] is kept as the decimal text of the number. *)
Record CompletionRequest : Type := mkRequest {
  prompt : jsstring;
  context : option jsstring;
  language : option jsstring;
  maxTokens : option Z;
  temperature : option string;
  stream : option bool
}.

Record KeyData : Type := mkKeyData {
  k_prompt : jsstring;
  k_context : option jsstring;
  k_language : option jsstring;
  k_maxTokens : option Z
}.

Definition keyData_of (request : CompletionRequest) : KeyData :=
  mkKeyData (trim (prompt request)) (trim <$> context request)
    (language request) (maxTokens request).

(** [JSON.stringify(keyData)]: the properties in insertion order, a property
    whose value is [undefined] left out. *)
Definition member (name : string) (value : option jsstring) : list jsstring :=
  match value with
  | Some v => [quote (js name) ++ js ":" ++ v]
  | None => []
  end.

Fixpoint join_comma (l : list jsstring) : jsstring :=
  match l with
  | [] => []
  | [x] => x
  | x :: rest => x ++ js "," ++ join_comma rest
  end.

Definition JSON_stringify (k : KeyData) : jsstring :=
  js "{" ++
  join_comma
    (member "prompt" (Some (quote (k_prompt k)))
     ++ member "context" (quote <$> k_context k)
     ++ member "language" (quote <$> k_language k)
     ++ member "maxTokens" ((fun n => js (pretty n)) <$> k_maxTokens k))
  ++ js "}".

(** [btoa]: throws on a code unit above 255, else the base-64 text. *)
Definition base64_char (n : N) : N :=
  if (n <? 26)%N then (65 + n)%N
  else if (n <? 52)%N then (97 + (n - 26))%N
  else if (n <? 62)%N then (48 + (n - 52))%N
  else if (n =? 62)%N then 43%N else 47%N.

Fixpoint base64 (fuel : nat) (s : jsstring) : jsstring :=
  match fuel with
  | O => []
  | S fuel' =>
      match s with
      | [] => []
      | [a] =>
          [base64_char (a / 4); base64_char (a mod 4 * 16); 61; 61]%N
      | [a; b] =>
          [base64_char (a / 4); base64_char (a mod 4 * 16 + b / 16);
           base64_char (b mod 16 * 4); 61]%N
      | a :: b :: c :: rest =>
          [base64_char (a / 4); base64_char (a mod 4 * 16 + b / 16);
           base64_char (b mod 16 * 4 + c / 64); base64_char (c mod 64)]%N
          ++ base64 fuel' rest
      end
  end.

Definition btoa (s : jsstring) : option jsstring :=
  if forallb (fun c => (c <=? 255)%N) s then Some (base64 (S (length s)) s)
  else None.

(** The fallback hash.  [ToInt32] wraps to 32 bits, two's complement. *)
Definition ToInt32 (z : Z) : Z := (z + 2 ^ 31) mod 2 ^ 32 - 2 ^ 31.

Definition hash_step (hash : Z) (char : N) : Z :=
  let hash := (ToInt32 (Z.shiftl hash 5) - hash) + Z.of_N char in
  ToInt32 (Z.land hash hash).

Definition hash_of (str : jsstring) : Z := foldl hash_step 0 str.

(** [n.toString(36)] of a non-negative integer. *)
Definition digit36 (d : Z) : N :=
  if d <? 10 then Z.to_N (48 + d) else Z.to_N (87 + d).

Fixpoint toString36_digits (fuel : nat) (n : Z) (acc : jsstring) : jsstring :=
  match fuel with
  | O => acc
  | S fuel' =>
      if n <? 36 then digit36 n :: acc
      else toString36_digits fuel' (n / 36) (digit36 (n mod 36) :: acc)
  end.
Definition toString36 (n : Z) : jsstring := toString36_digits 64 n [].

Definition generateCacheKey (request : CompletionRequest) : jsstring :=
  let keyData := keyData_of request in
  match btoa (JSON_stringify keyData) with
  | Some encoded => encoded
  | None => toString36 (Z.abs (hash_of (JSON_stringify keyData)))
  end.

(** *** The service state

    A promise returned by [makeAPIRequest] is named by the position of that
    invocation in [requests]; every invocation goes on to one
    [fetch('/api/completion')] once the session is read. *)
Record CompletionResponse : Type := mkCompletionResponse {
  text : jsstring
}.

Record CompletionCache : Type := mkCompletionCache {
  cc_id : jsstring;
  cc_prompt : jsstring;
  cc_context : option jsstring;
  response : jsstring;
  cc_language : option jsstring;
  createdAt : Z;
  expiresAt : Z
}.

Record Service : Type := mkService {
  cache : gmap jsstring CompletionCache;
  pendingRequests : gmap jsstring nat;
  abortControllers : gmap jsstring nat;
  requests : list CompletionRequest;
  aborted : list nat
}.

Definition new_service : Service := mkService ∅ ∅ ∅ [] [].

Definition getCachedCompletion (now : Z) (key : jsstring) (s : Service)
  : option CompletionResponse :=
  match cache s !! key with
  | Some c =>
      if bool_decide (expiresAt c > now) then Some (mkCompletionResponse (response c))
      else None
  | None => None
  end.

(** [saveCompletionCache]: the entry lives 24 hours.  (The copy written to
    the offline store by [saveCacheToStorage] is not read back by
    [getCachedCompletion].) *)
Definition saveCompletionCache (now : Z) (key : jsstring)
    (request : CompletionRequest) (r : CompletionResponse) (s : Service) : Service :=
  let entry :=
    mkCompletionCache key (prompt request) (context request) (text r)
      (language request) now (now + 24 * 60 * 60 * 1000) in
  mkService (<[key := entry]> (cache s)) (pendingRequests s) (abortControllers s)
    (requests s) (aborted s).

(** What a caller of [generateCompletion] holds: the promise of an API
    request, or a response already at hand. *)
Inductive Result : Type :=
  | Joined (requestPromise : nat)
  | Answer (r : CompletionResponse).

(** [generateCompletion] runs in two turns.  The first runs up to
    [await this.getCachedCompletion(cacheKey)]: it looks the key up in
    [pendingRequests] and, failing that, reads the cache; it writes nothing.
    An [await] always yields, also on a settled promise, so the rest runs in
    a later turn. *)
Record Suspended : Type := mkSuspended {
  s_request : CompletionRequest;
  s_cacheKey : jsstring;
  s_cachedResponse : option CompletionResponse
}.

Definition generateCompletion_start (now : Z) (request : CompletionRequest)
    (s : Service) : Result + Suspended :=
  let cacheKey := generateCacheKey request in
  match pendingRequests s !! cacheKey with
  | Some pendingRequest => inl (Joined pendingRequest)
  | None => inr (mkSuspended request cacheKey (getCachedCompletion now cacheKey s))
  end.

(** The second turn: return the cached response, or create the abort
    controller, call [makeAPIRequest] and register the promise. *)
Definition generateCompletion_resume (k : Suspended) (s : Service)
  : Result * Service :=
  match s_cachedResponse k with
  | Some cachedResponse => (Answer cachedResponse, s)
  | None =>
      let requestPromise := length (requests s) in
      (Joined requestPromise,
       mkService (cache s)
         (<[s_cacheKey k := requestPromise]> (pendingRequests s))
         (<[s_cacheKey k := requestPromise]> (abortControllers s))
         (requests s ++ [s_request k]) (aborted s))
  end.

(** A call whose two turns are not interleaved with another call. *)
Definition generateCompletion (now : Z) (request : CompletionRequest) (s : Service)
  : Result * Service :=
  match generateCompletion_start now request s with
  | inl r => (r, s)
  | inr k => generateCompletion_resume k s
  end.

(** Two calls made in the same turn, as in
    [Promise.all([generateCompletion(a), generateCompletion(b)])]: both first
    turns run before either continuation does. *)
Definition two_calls_in_one_turn (now : Z) (a b : CompletionRequest) (s : Service)
  : Result * Result * Service :=
  let first_a := generateCompletion_start now a s in
  let first_b := generateCompletion_start now b s in
  let '(result_a, s1) :=
    match first_a with
    | inl r => (r, s)
    | inr k => generateCompletion_resume k s
    end in
  let '(result_b, s2) :=
    match first_b with
    | inl r => (r, s1)
    | inr k => generateCompletion_resume k s1
    end in
  (result_a, result_b, s2).

(** The API promise [p] settles: [.then] saves a response to the cache,
    [.finally] clears the request state of the key. *)
Definition settle (now : Z) (p : nat) (outcome : option CompletionResponse)
    (s : Service) : Service :=
  match requests s !! p with
  | None => s
  | Some request =>
      let cacheKey := generateCacheKey request in
      let s1 :=
        match outcome with
        | Some r => saveCompletionCache now cacheKey request r s
        | None => s
        end in
      mkService (cache s1) (delete cacheKey (pendingRequests s1))
        (delete cacheKey (abortControllers s1)) (requests s1) (aborted s1)
  end.

(** [cancelCompletion(requestKey?)].  [if (requestKey)] takes the first
    branch for a non-empty key; [undefined] and the empty string cancel every
    request. *)
Definition cancelCompletion (requestKey : option jsstring) (s : Service) : Service :=
  match requestKey with
  | Some ((_ :: _) as key) =>
      match abortControllers s !! key with
      | Some controller =>
          mkService (cache s) (delete key (pendingRequests s))
            (delete key (abortControllers s)) (requests s) (controller :: aborted s)
      | None => s
      end
  | _ =>
      mkService (cache s) ∅ ∅ (requests s)
        ((snd <$> map_to_list (abortControllers s)) ++ aborted s)
  end.

Definition cleanupExpiredCache (now : Z) (s : Service) : Service :=
  mkService (filter (fun kv => ¬ (expiresAt kv.2 <= now)) (cache s))
    (pendingRequests s) (abortControllers s) (requests s) (aborted s).

Definition clearCache (s : Service) : Service :=
  mkService ∅ (pendingRequests s) (abortControllers s) (requests s) (aborted s).

Definition getCacheStats (now : Z) (s : Service) : nat * nat :=
  (size (cache s),
   length (filter (fun kv => expiresAt kv.2 <= now) (map_to_list (cache s)))).
End Completion.

(** ** Observations on a store *)

(** Every object of a table with an inbound key is stored under its own
    [id]; the table operations keep it so (see [wf_table_put],
    [wf_table_update], [wf_table_delete]). *)
Definition wf_table {F} (t : gmap string (Offline F)) : Prop :=
  ∀ k r, t !! k = Some r → id r = k.

Definition wf_db {DC PC SC} (db : OfflineDatabase DC PC SC) : Prop :=
  wf_table (documents db) ∧ wf_table (projects db) ∧ wf_table (standard_info db).

(** The sync envelope of record [i] of [table]: its status and
    [last_sync_at]. *)
Definition envelope {F} (r : Offline F) : SyncStatus * option Z :=
  (sync_status r, last_sync_at r).

Definition envelope_at {DC PC SC} (table : TableName) (i : string)
    (db : OfflineDatabase DC PC SC) : option (SyncStatus * option Z) :=
  match table with
  | t_documents => envelope <$> documents db !! i
  | t_projects => envelope <$> projects db !! i
  | t_standard_info => envelope <$> standard_info db !! i
  end.

(** The records of [userId] in a table, as [where('user_id').equals(userId)]
    lists them. *)
Definition user_records {F} (userId : string) (t : gmap string (Offline F))
  : list (Offline F) :=
  filter (fun r => user_id r = userId) (Dexie.toArray id t).


(** ** Frames: what a computation may change *)

(** Every run of [m] takes a state to an [R]-related one, whether it resolves
    or rejects. *)
Definition preserves {S A} (R : relation S) (m : Async S A) : Prop :=
  ∀ s, R s (m s).2.

Section Frames.
Context {DocumentColumns ProjectColumns StandardInfoColumns : Type}.
#[local] Abbreviation DB :=
  (OfflineDatabase DocumentColumns ProjectColumns StandardInfoColumns).

(** Only the sync queue may differ. *)
Definition queue_only : relation DB := fun d d' =>
  documents d' = documents d ∧ projects d' = projects d ∧
  standard_info d' = standard_info d ∧ cache d' = cache d.

(** Pushing one table leaves the other two domain tables as they are. *)
Definition keeps (table : TableName) : relation DB := fun d d' =>
  match table with
  | t_documents => projects d' = projects d ∧ standard_info d' = standard_info d
  | t_projects => documents d' = documents d ∧ standard_info d' = standard_info d
  | t_standard_info => documents d' = documents d ∧ projects d' = projects d
  end.

(** The log grows by calls that satisfy [A], and the store moves along
    [frame]. *)
Definition grows {G} (A : RemoteCall → Prop) (frame : relation DB)
  : relation (World DocumentColumns ProjectColumns StandardInfoColumns G) :=
  fun w w' =>
    frame (db w) (db w') ∧ ∃ new, calls w' = (calls w ++ new)%list ∧ Forall A new.

(** The two steps of [updateSyncStatus]: the status write, then the queue
    bookkeeping. *)
Definition write_status (now : Z) (table : TableName) (i : string)
    (status : SyncStatus) : Async DB unit :=
  match table with
  | t_documents =>
      on_documents (Dexie.update id i (applyChanges (status_changes now status)))
  | t_projects =>
      on_projects (Dexie.update id i (applyChanges (status_changes now status)))
  | t_standard_info =>
      on_standard_info (Dexie.update id i (applyChanges (status_changes now status)))
  end.

Definition record_error (i : string) (err : option string) : Async DB unit :=
  match err with
  | Some e =>
      if truthy e then
        bind (on_sync_queue
                (Dexie.where_equals q_id stores_sync_queue "sync_queue"
                   "original_id" original_id i always))
          (fun queueItems => for_of queueItems (fun item =>
             on_sync_queue (Dexie.update q_id (q_id item) (bump_retry e))))
      else ret tt
  | None => ret tt
  end.
End Frames.

(** A push call on behalf of a record that is pending in store [d0]. *)
Definition pending_call {DC PC SC} (d0 : OfflineDatabase DC PC SC)
    (c : RemoteCall) : Prop :=
  ∃ table op i, c = PushCall table op i ∧
                (fst <$> envelope_at table i d0) = Some pending.

(** ** More of offlineService: reads and wholesale clearing *)

Section OfflineReads.
Context {DocumentColumns ProjectColumns StandardInfoColumns : Type}.
#[local] Abbreviation DB :=
  (OfflineDatabase DocumentColumns ProjectColumns StandardInfoColumns).

(** [getDocument(userId, documentId)]:
    [where('user_id').equals(userId).and(item => item.id === documentId).first()] *)
Definition getDocument (userId documentId : string)
  : Async DB (option (Offline DocumentColumns)) :=
  let! found := on_documents
    (Dexie.where_equals id stores_documents "documents" "user_id" user_id userId
       (fun item => bool_decide (id item = documentId))) in
  ret (head found).

(** [getDocuments(userId, projectId?)]; [project_id] reads the column off the
    document's columns.  A missing or empty [projectId] adds no filter. *)
Definition getDocuments (project_id : DocumentColumns -> string)
    (userId : string) (projectId : option string)
  : Async DB (list (Offline DocumentColumns)) :=
  on_documents
    (Dexie.where_equals id stores_documents "documents" "user_id" user_id userId
       (fun item =>
          match projectId with
          | Some p =>
              if truthy p then bool_decide (project_id (columns item) = p) else true
          | None => true
          end)).

(** [saveDocument(document)] *)
Definition saveDocument (now : Z) (document : PartialRecord DocumentColumns)
  : Async DB (Offline DocumentColumns) :=
  saveDocumentOffline now document.

(** [clearAllOfflineData()]: [clear()] on each of the five tables. *)
Definition clearAllOfflineData : Async DB unit :=
  do! on_documents (run (fun _ => ∅)) in
  do! on_projects (run (fun _ => ∅)) in
  do! on_standard_info (run (fun _ => ∅)) in
  do! on_sync_queue (run (fun _ => ∅)) in
  on_cache (run (fun _ => ∅)).
End OfflineReads.

(** Every queue item is stored under its own [id], every cache entry under
    its own [id]. *)
Definition wf_queue {DC PC SC} (db : OfflineDatabase DC PC SC) : Prop :=
  ∀ k q, sync_queue db !! k = Some q → q_id q = k.

Definition wf_cache {DC PC SC} (db : OfflineDatabase DC PC SC) : Prop :=
  ∀ k e, cache db !! k = Some e → c_id e = k.

Definition wf_store {DC PC SC} (db : OfflineDatabase DC PC SC) : Prop :=
  wf_db db ∧ wf_queue db ∧ wf_cache db.

(** A component [f] of the state is left as it was. *)
Definition unchanged {S T} (f : S → T) : relation S := fun s s' => f s' = f s.

(** The store moves from well-keyed to well-keyed. *)
Definition keeps_keys {DC PC SC} : relation (OfflineDatabase DC PC SC) :=
  fun d d' => wf_store d → wf_store d'.


(** ** What the push phase may write *)

(** A table changes at the keys in [K] and at keys that were free; every
    object stored under another key stays as it is. *)
Definition stays {V} (K : string → Prop) : relation (gmap string V) :=
  fun t t' => ∀ k v, ¬ K k → t !! k = Some v → t' !! k = Some v.

(** Only [table] changes, and it changes as [stays K] allows. *)
Definition only_at {DC PC SC} (table : TableName) (K : string → Prop)
  : relation (OfflineDatabase DC PC SC) := fun d d' =>
  match table with
  | t_documents =>
      stays K (documents d) (documents d') ∧
      projects d' = projects d ∧ standard_info d' = standard_info d
  | t_projects =>
      stays K (projects d) (projects d') ∧
      documents d' = documents d ∧ standard_info d' = standard_info d
  | t_standard_info =>
      stays K (standard_info d) (standard_info d') ∧
      documents d' = documents d ∧ projects d' = projects d
  end.

(** The keys of the records that a push for [userId] selects from [t]. *)
Definition selected {F} (userId : string) (t : gmap string (Offline F))
    (k : string) : Prop :=
  ∃ r, t !! k = Some r ∧ user_id r = userId ∧ sync_status r = pending.

(** Every record that is not a pending record of [userId] is still stored,
    under the same key and with the same contents. *)
Definition spares_table {F} (userId : string)
  : relation (gmap string (Offline F)) := fun t t' =>
  ∀ k r, t !! k = Some r → ¬ (user_id r = userId ∧ sync_status r = pending) →
         t' !! k = Some r.

Definition spares {DC PC SC} (userId : string)
  : relation (OfflineDatabase DC PC SC) := fun d d' =>
  spares_table userId (documents d) (documents d') ∧
  spares_table userId (projects d) (projects d') ∧
  spares_table userId (standard_info d) (standard_info d').


(** ** The request registry of the completion service *)

(** Between turns the two registries of the service agree: a key has a
    pending promise exactly when it has an abort controller, and the promise
    registered under a key is that of an API request whose cache key is this
    key. *)
Definition consistent (s : Completion.Service) : Prop :=
  Completion.abortControllers s = Completion.pendingRequests s ∧
  ∀ k p, Completion.pendingRequests s !! k = Some p →
    ∃ r, Completion.requests s !! p = Some r ∧ Completion.generateCacheKey r = k.




(** ** useCompletion.ts *)

Module UseCompletion.
Import Completion.
Local Open Scope list_scope.
Local Open Scope Z_scope.

(** [UseCompletionOptions], without the debounce delay. *)
Record Options : Type := mkOptions {
  o_maxTokens : option Z;
  o_temperature : option string;
  o_language : option jsstring;
  o_stream : option bool
}.

(** The request that the hook's [generateCompletion(prompt, context,
    onStream)] hands to the service: [maxTokens = 1000], [temperature = 0.7]
    and [stream = false] are the defaults of the destructuring. *)
Definition request_of (options : Options) (prompt : jsstring)
    (context : option jsstring) (onStream : bool) : CompletionRequest :=
  mkRequest prompt context (o_language options)
    (Some (default 1000 (o_maxTokens options)))
    (Some (default "0.7"%string (o_temperature options)))
    (Some (default false (o_stream options) && onStream)).

(** [hash.toString(36)] of an integer of either sign. *)
Definition toString36_signed (n : Z) : jsstring :=
  if n <? 0 then 45%N :: toString36 (- n) else toString36 n.

(** The key the hook stores with [setRequestKey] and later passes to
    [completionService.cancelCompletion]: the object has the properties
    [prompt], [context] and [language] and no [maxTokens]. *)
Definition requestKey_of (options : Options) (prompt : jsstring)
    (context : option jsstring) : jsstring :=
  let keyData :=
    mkKeyData (trim prompt) (trim <$> context) (o_language options) None in
  match btoa (JSON_stringify keyData) with
  | Some encoded => encoded
  | None => toString36_signed (hash_of (JSON_stringify keyData))
  end.
(** What [cleanup] does to the service (the debounce timer aside): the
    state [requestKey] starts as the empty string, and then no key is
    passed. *)
Definition cleanup (requestKey : jsstring) (s : Service) : Service :=
  match requestKey with
  | [] => cancelCompletion None s
  | _ :: _ => cancelCompletion (Some requestKey) s
  end.
End UseCompletion.


(** ** What the push phase is to send *)

(** The call that a push makes for record [r] of [table]: an update under a
    server id, a create under a placeholder or empty id. *)
Definition call_for {F} (table : TableName) (r : Offline F) : RemoteCall :=
  PushCall table (if is_server_id (id r) then op_update else op_create) (id r).

(** The calls for the records that [syncData] selects from store [d]: the
    pending records of [userId], the projects first, then the documents,
    then the standard info, each table in the order of [toArray]. *)
Definition expected_calls {DC PC SC} (userId : string)
    (d : OfflineDatabase DC PC SC) : list RemoteCall :=
  ((call_for t_projects <$> pending_only (user_records userId (projects d))) ++
   (call_for t_documents <$> pending_only (user_records userId (documents d))) ++
   (call_for t_standard_info <$> pending_only (user_records userId (standard_info d))))
  %list.

(** Key [i] of [table] holds a pending record of [userId]. *)
Definition selected_at {DC PC SC} (userId : string) (table : TableName) (i : string)
    (d : OfflineDatabase DC PC SC) : Prop :=
  match table with
  | t_documents => selected userId (documents d) i
  | t_projects => selected userId (projects d) i
  | t_standard_info => selected userId (standard_info d) i
  end.

(** What a run from [w] has added to the log, against the calls it is to
    make: a prefix of them, all of them if it resolved, at least one if it
    rejected. *)
Definition logged {DC PC SC G} (expected : list RemoteCall)
    (run : Outcome unit * World DC PC SC G) (w : World DC PC SC G)
    (new : list RemoteCall) : Prop :=
  calls run.2 = (calls w ++ new)%list ∧
  new `prefix_of` expected ∧
  (run.1 = Resolved tt → new = expected) ∧
  (∀ e, run.1 = Rejected e → new ≠ []).

(** * Scenarios

    Concrete stores, gateways and requests on which the model is run. *)

Definition Store : Type := OfflineDatabase string string string.

Definition empty_store : Store := mkDB ∅ ∅ ∅ ∅ ∅.

Definition record (i : string) (status : SyncStatus) (synced_at : option Z)
  : Offline string :=
  mkOffline i "u1" "Q1" status synced_at 0.

(** One document, synced at time 5. *)
Definition store_synced_document : Store :=
  mkDB {["d1" := record "d1" synced (Some 5)]} ∅ ∅ ∅ ∅.

(** One project, synced at time 100, and no document. *)
Definition store_synced_project : Store :=
  mkDB ∅ {["p1" := record "p1" synced (Some 100)]} ∅ ∅ ∅.

(** A remote store to run the cycle against: three tables of rows, a
    counter for the identifiers it assigns, and the identifiers whose update
    it refuses (the gateway is unreachable for them). *)
Record Server : Type := mkServer {
  srv_projects : list (Row string);
  srv_documents : list (Row string);
  srv_standard_info : list (Row string);
  srv_next : N;
  srv_unreachable : list string
}.

Definition server_id (g : Server) : string := "srv_" +:+ pretty (srv_next g).

Definition set_columns (i c : string) (rows : list (Row string)) : list (Row string) :=
  (fun r => if decide (row_id r = i) then mkRow i (row_user_id r) c else r) <$> rows.

Definition owned_by (u : string) (rows : list (Row string)) : list (Row string) :=
  filter (fun r => row_user_id r = u) rows.

Definition refuse_or {T} (i : string) (m : Async Server (Reply T))
  : Async Server (Reply T) := fun g =>
  if bool_decide (i ∈ srv_unreachable g)
  then (Resolved (Error "GatewayUnreachable"), g)
  else m g.

Definition server : Supabase string string string Server :=
  mkSupabase
    (ret (Some "u1"))
    (fun c u g =>
       let row := mkRow (server_id g) u c in
       (Resolved (Data row),
        mkServer (srv_projects g ++ [row]) (srv_documents g) (srv_standard_info g)
          (srv_next g + 1) (srv_unreachable g)))
    (fun i u c => refuse_or i (fun g =>
       (Resolved (Data (mkRow i u c)),
        mkServer (set_columns i c (srv_projects g)) (srv_documents g)
          (srv_standard_info g) (srv_next g) (srv_unreachable g))))
    (fun u g => (Resolved (Data (owned_by u (srv_projects g))), g))
    (fun c u g =>
       let row := mkRow (server_id g) u c in
       (Resolved (Data row),
        mkServer (srv_projects g) (srv_documents g ++ [row]) (srv_standard_info g)
          (srv_next g + 1) (srv_unreachable g)))
    (fun i c => refuse_or i (fun g =>
       (Resolved (Data (mkRow i "u1" c)),
        mkServer (srv_projects g) (set_columns i c (srv_documents g))
          (srv_standard_info g) (srv_next g) (srv_unreachable g))))
    (fun u g => (Resolved (Data (owned_by u (srv_documents g))), g))
    (fun c u g =>
       let row := mkRow (server_id g) u c in
       (Resolved (Data row),
        mkServer (srv_projects g) (srv_documents g) (srv_standard_info g ++ [row])
          (srv_next g + 1) (srv_unreachable g)))
    (fun i c => refuse_or i (fun g =>
       (Resolved (Data (mkRow i "u1" c)),
        mkServer (srv_projects g) (srv_documents g)
          (set_columns i c (srv_standard_info g)) (srv_next g) (srv_unreachable g))))
    (fun u g => (Resolved (Data (owned_by u (srv_standard_info g))), g)).

Definition empty_server : Server := mkServer [] [] [] 1 [].

Definition saved {A} (m : Async Store A) (s : Store) : Store := (m s).2.

(** The user created one standard-info entry, one project and one document
    offline: each was saved under a placeholder id. *)
Definition store_new_standard_info : Store :=
  saved (saveStandardInfoOffline 1 (mkPartial (Some "temp_s1") "u1" "Q1")) empty_store.
Definition store_new_project : Store :=
  saved (saveProjectOffline 1 (mkPartial (Some "temp_abc") "u1" "Q1")) empty_store.
Definition store_new_document : Store :=
  saved (saveDocumentOffline 1 (mkPartial (Some "temp_d1") "u1" "Q1")) empty_store.

(** The user edited two documents the server already has; the gateway cannot
    be reached for the first. *)
Definition store_two_edits : Store :=
  saved (saveDocumentOffline 2 (mkPartial (Some "d2") "u1" "new text 2"))
    (saved (saveDocumentOffline 1 (mkPartial (Some "d1") "u1" "new text 1"))
       empty_store).
Definition server_d1_unreachable : Server :=
  mkServer [] [mkRow "d1" "u1" "text 1"; mkRow "d2" "u1" "text 2"] [] 1 ["d1"].
Definition server_reachable : Server :=
  mkServer [] [mkRow "d1" "u1" "text 1"; mkRow "d2" "u1" "text 2"] [] 1 [].

(** A document left in error by an earlier cycle. *)
Definition store_error_document : Store :=
  mkDB {["d1" := record "d1" error None]} ∅ ∅ ∅ ∅.

Definition start_world (s : Store) (g : Server) : World string string string Server :=
  mkWorld s g [].

(** Completion requests: the same prompt up to white space, with different
    temperature and stream settings. *)
Definition request_a : Completion.CompletionRequest :=
  Completion.mkRequest (Completion.js "Hello") None (Some (Completion.js "zh"))
    (Some 128) None None.

Definition request_a_hot : Completion.CompletionRequest :=
  Completion.mkRequest (Completion.js " Hello ") None (Some (Completion.js "zh"))
    (Some 128) (Some "0.9") (Some true).

(** The same gateway with the documents listing out of reach: [select] on
    [documents] answers with an error, everything else as [server]. *)
Definition server_documents_down : Supabase string string string Server :=
  mkSupabase (auth_getUser server)
    (projects_insert server) (projects_update server) (projects_select server)
    (documents_insert server) (documents_update server)
    (fun _ g => (Resolved (Error "GatewayUnreachable"), g))
    (standard_info_insert server) (standard_info_update server)
    (standard_info_select server).

(** A server that holds one project of the user. *)
Definition server_one_project : Server :=
  mkServer [mkRow "p1" "u1" "plan"] [] [] 1 [].

(** Three cache entries: one that expires after a minute, one after an hour,
    and one whose expiry lies beyond the year 9999. *)
Definition store_three_cache_entries : Store :=
  saved (setCache 30 "k3" "far" 5000000000)
    (saved (setCache 20 "k2" "new" 60)
       (saved (setCache 10 "k1" "old" 1) empty_store)).

(** Three documents the server already has: [d1] of the user left in error
    by an earlier cycle, [d2] of the user edited and pending, and [d3]
    pending for another user of the same device. *)
Definition store_mixed : Store :=
  mkDB (<["d1" := record "d1" error None]>
          (<["d2" := record "d2" pending None]>
             {["d3" := mkOffline "d3" "u2" "Q3" pending None 0]}))
       ∅ ∅ ∅ ∅.

(** * Properties *)

Local Open Scope list_scope.

(** ** Tables *)

Section TableFacts.
Context {V : Type} (key : V -> string).

Lemma elem_of_toArray (t : gmap string V) (v : V) :
  v ∈ Dexie.toArray key t ↔ ∃ k, t !! k = Some v.
Proof.
  unfold Dexie.toArray. rewrite merge_sort_Permutation, list_elem_of_fmap.
  split.
  - intros [[k v'] [-> Hin]]. exists k. by apply elem_of_map_to_list.
  - intros [k Hk]. exists (k, v). split; [done|]. by apply elem_of_map_to_list.
Qed.

Lemma where_equals_indexed (stores : list string) (name index : string)
    (field : V -> string) (value : string) (p : V -> bool) (t : gmap string V) :
  index ∈ stores →
  Dexie.where_equals key stores name index field value p t =
    (Resolved (filter (fun v => field v = value ∧ p v = true) (Dexie.toArray key t)), t).
Proof.
  intros Hin. unfold Dexie.where_equals. by rewrite bool_decide_eq_true_2.
Qed.
End TableFacts.

(** The operations keep every object under its own id. *)
Section StoredUnderOwnId.
Context {F : Type}.

Lemma wf_table_empty : wf_table (∅ : gmap string (Offline F)).
Proof. intros k r. by rewrite lookup_empty. Qed.

Lemma wf_table_put (obj : Offline F) (t : gmap string (Offline F)) :
  wf_table t → wf_table (Dexie.put id obj t).
Proof.
  intros Hwf k r. unfold Dexie.put. rewrite lookup_insert.
  case_decide as Hk; [by intros [= <-] | apply Hwf].
Qed.

Lemma wf_table_delete (i : string) (t : gmap string (Offline F)) :
  wf_table t → wf_table (Dexie.delete_ i t).
Proof.
  intros Hwf k r. unfold Dexie.delete_. rewrite lookup_delete.
  case_decide; [done | apply Hwf].
Qed.

Lemma wf_table_update (i : string) (c : OfflineChanges)
    (t : gmap string (Offline F)) :
  wf_table t → wf_table (Dexie.update id i (applyChanges c) t).2.
Proof.
  intros Hwf. unfold Dexie.update.
  destruct (t !! i) as [obj|] eqn:Hobj; [|done].
  destruct (applyChanges c obj) as [obj'|]; [|done].
  case_decide as Hkey; cbn.
  - intros k r. rewrite lookup_insert.
    case_decide as Hk; [intros [= <-]; congruence | apply Hwf].
  - destruct (t !! id obj') eqn:Hnew; cbn; [done|].
    intros k r. rewrite lookup_delete. case_decide; [done|].
    rewrite lookup_insert. case_decide as Hk; [by intros [= <-] | apply Hwf].
Qed.
End StoredUnderOwnId.

(** ** C7: expired cache entries are never returned *)

Section CacheLookup.
Context {DocumentColumns ProjectColumns StandardInfoColumns : Type}.
#[local] Abbreviation DB :=
  (OfflineDatabase DocumentColumns ProjectColumns StandardInfoColumns).

Lemma getCache_unfold (now : Z) (key : string) (db : DB) :
  getCache now key db =
    (Resolved
       (match head (filter (fun item => c_key item = key ∧
                               bool_decide (expires_at item > now) = true)
                      (Dexie.toArray c_id (cache db))) with
        | Some cached =>
            if truthy (c_data cached) then Some (c_data cached) else None
        | None => None
        end), db).
Proof.
  unfold getCache, bind, on_cache, ret.
  rewrite where_equals_indexed by (by vm_compute; set_solver).
  by destruct db.
Qed.
End CacheLookup.

(** C7.  A lookup never answers from an entry whose expiry has passed.
    [getCache] always resolves and leaves the store as it is (nothing is
    evicted by a lookup); when every stored entry of the key has expired the
    answer is a miss; and an answer is always the payload of a stored entry
    of that key that has not expired.  The completion cache's
    [getCachedCompletion] misses on an entry whose expiry has passed although
    the entry is still in the map. *)
Theorem expired_entries_are_never_returned :
  (∀ (DC PC SC : Type) (db : OfflineDatabase DC PC SC) (now : Z) (key : string),
     ∃ answer,
       getCache now key db = (Resolved answer, db) ∧
       ((∀ k e, cache db !! k = Some e → c_key e = key → expires_at e <= now) →
        answer = None) ∧
       (∀ d, answer = Some d →
          ∃ k e, cache db !! k = Some e ∧ c_key e = key ∧ c_data e = d ∧
                 expires_at e > now)) ∧
  (∀ (now : Z) (key : Completion.jsstring) (s : Completion.Service) c,
     Completion.cache s !! key = Some c →
     Completion.expiresAt c <= now →
     Completion.getCachedCompletion now key s = None).
Proof.
  split.
  - intros DC PC SC db now key. eexists. split; [apply getCache_unfold|].
    destruct (head _) as [cached|] eqn:Hhead.
    + apply head_Some_elem_of, list_elem_of_filter in Hhead
        as [[Hkey Hfresh] [k Hk]%elem_of_toArray].
      apply bool_decide_eq_true_1 in Hfresh. split.
      * intros Hall. specialize (Hall k cached Hk Hkey). lia.
      * intros d Hd. exists k, cached.
        destruct (truthy (c_data cached)); naive_solver.
    + split; [done|]. intros d Hd. discriminate.
  - intros now key s c Hc Hexp. unfold Completion.getCachedCompletion.
    rewrite Hc, bool_decide_eq_false_2; [done | lia].
Qed.

(** ** C9: deleting a document locally *)

(** C9, counterexample.  The store holds document [d1]; after
    [deleteDocument] the record is gone from the documents table (it does not
    stay with a soft-delete timestamp), while the delete is only queued. *)
Lemma deleteDocument_does_not_keep_the_record :
  let after := (deleteDocument 10 "u1" "d1" store_synced_document).2 in
  is_Some (documents store_synced_document !! "d1") ∧
  documents after !! "d1" = None ∧
  (q_operation <$> sync_queue after !! "documents_d1_10") = Some op_delete.
Proof. vm_compute. split; [eauto | done]. Qed.

(** C9, amended.  [deleteDocument] removes the record from the documents
    table at once and leaves every other record alone; it then queues a delete
    operation for the document, which fails only when the queue key is taken
    (the record is removed all the same). *)
Theorem deleteDocument_removes_at_once :
  ∀ (DC PC SC : Type) (db : OfflineDatabase DC PC SC) (now : Z)
    (userId documentId : string),
    let result := deleteDocument now userId documentId db in
    let queue_key := "documents_" +:+ documentId +:+ "_" +:+ pretty now in
    documents result.2 !! documentId = None ∧
    (∀ k, k ≠ documentId → documents result.2 !! k = documents db !! k) ∧
    projects result.2 = projects db ∧
    standard_info result.2 = standard_info db ∧
    cache result.2 = cache db ∧
    match sync_queue db !! queue_key with
    | None =>
        result.1 = Resolved tt ∧
        sync_queue result.2 =
          <[queue_key := mkQueueItem queue_key t_documents op_delete
                           (QRef documentId userId) documentId userId now 0 None]>
            (sync_queue db)
    | Some _ =>
        (∃ message, result.1 = Rejected message) ∧
        sync_queue result.2 = sync_queue db
    end.
Proof.
  intros DC PC SC db now userId documentId. cbv zeta.
  unfold deleteDocument, addToSyncQueue, bind, on_documents, on_sync_queue, run,
    Dexie.add, Dexie.delete_, ret. cbn.
  destruct (sync_queue db !! _) eqn:Hq; cbn;
    (split; [apply lookup_delete_eq|]);
    (split; [intros k Hk; by apply lookup_delete_ne|]); eauto 10.
Qed.

(** ** Reasoning on promises: what every run of a computation preserves *)


Section Preserves.
Context {S : Type} (R : relation S) `{!PreOrder R}.

Lemma preserves_ret {A} (a : A) : preserves R (ret a).
Proof. intros s. reflexivity. Qed.

Lemma preserves_throw {A} (message : string) : preserves R (@throw S A message).
Proof. intros s. reflexivity. Qed.

Lemma preserves_bind {A B} (m : Async S A) (k : A → Async S B) :
  preserves R m → (∀ a, preserves R (k a)) → preserves R (bind m k).
Proof.
  intros Hm Hk s. unfold bind. specialize (Hm s).
  destruct (m s) as [[a|e] s']; cbn in *; [|done].
  etrans; [exact Hm | apply Hk].
Qed.

Lemma preserves_try_catch {A} (body : Async S A) (handler : string → Async S A) :
  preserves R body → (∀ e, preserves R (handler e)) →
  preserves R (try_catch body handler).
Proof.
  intros Hm Hk s. unfold try_catch. specialize (Hm s).
  destruct (body s) as [[a|e] s']; cbn in *; [done|].
  etrans; [exact Hm | apply Hk].
Qed.

Lemma preserves_for_of {A} (xs : list A) (body : A → Async S unit) :
  (∀ x, x ∈ xs → preserves R (body x)) → preserves R (for_of xs body).
Proof.
  induction xs as [|x xs IH]; intros Hbody; cbn.
  - apply preserves_ret.
  - apply preserves_bind.
    + apply Hbody. left.
    + intros _. apply IH. intros y Hy. apply Hbody. by right.
Qed.
End Preserves.

(** ** C5: what a status change does to [last_sync_at] *)

Section StatusChange.
Context {DocumentColumns ProjectColumns StandardInfoColumns : Type}.
#[local] Abbreviation DB :=
  (OfflineDatabase DocumentColumns ProjectColumns StandardInfoColumns).


#[global] Instance queue_only_preorder : PreOrder (queue_only : relation DB).
Proof.
  split; [done|]. intros a b c (?&?&?&?) (?&?&?&?).
  unfold queue_only. repeat split; congruence.
Qed.

Lemma on_sync_queue_queue_only {A}
    (m : Async (gmap string (SyncQueueItem DocumentColumns ProjectColumns
                               StandardInfoColumns)) A) :
  preserves queue_only (on_sync_queue m).
Proof. intros db. unfold on_sync_queue. by destruct (m _). Qed.



Lemma record_error_queue_only (i : string) (err : option string) :
  preserves (queue_only : relation DB) (record_error i err).
Proof.
  destruct err as [e|]; cbn; [|apply preserves_ret; apply _].
  destruct (truthy e); [|apply preserves_ret; apply _].
  apply preserves_bind; [apply _ | apply on_sync_queue_queue_only |].
  intros items. apply preserves_for_of; [apply _|].
  intros item _. apply on_sync_queue_queue_only.
Qed.

Lemma updateSyncStatus_steps (now : Z) (table : TableName) (i : string)
    (status : SyncStatus) (err : option string) :
  updateSyncStatus now table i status err =
    (bind (write_status now table i status) (fun _ => record_error i err)
     : Async DB unit).
Proof. reflexivity. Qed.

End StatusChange.

Section LocalSave.
Context {DocumentColumns ProjectColumns StandardInfoColumns : Type}.
#[local] Abbreviation DB :=
  (OfflineDatabase DocumentColumns ProjectColumns StandardInfoColumns).

Lemma addToSyncQueue_queue_only (now : Z) (table : TableName) (op : Operation)
    (data : QueueData DocumentColumns ProjectColumns StandardInfoColumns) :
  preserves (queue_only (DocumentColumns := DocumentColumns)
               (ProjectColumns := ProjectColumns)
               (StandardInfoColumns := StandardInfoColumns))
    (addToSyncQueue now table op data).
Proof.
  unfold addToSyncQueue. apply preserves_bind; [apply _ | |].
  - apply on_sync_queue_queue_only.
  - intros _. apply preserves_ret. apply _.
Qed.

End LocalSave.



Lemma wf_db_store_synced_document : wf_db store_synced_document.
Proof.
  repeat split; intros k r; cbn.
  - by intros [<- <-]%lookup_singleton_Some.
  - by rewrite lookup_empty.
  - by rewrite lookup_empty.
Defined.


(** ** C6: the statistics *)

Section Stats.
Context {DocumentColumns ProjectColumns StandardInfoColumns : Type}.
#[local] Abbreviation DB :=
  (OfflineDatabase DocumentColumns ProjectColumns StandardInfoColumns).

Lemma Math_max_upper (x : Z) (xs : list Z) :
  ∀ y, y ∈ x :: xs → y <= Math_max x xs.
Proof.
  unfold Math_max. induction xs as [|z zs IH]; cbn; intros y Hy.
  - apply list_elem_of_singleton in Hy. lia.
  - apply elem_of_cons in Hy as [->|Hy].
    + specialize (IH x ltac:(left)). lia.
    + apply elem_of_cons in Hy as [->|Hy]; [lia|].
      specialize (IH y ltac:(by right)). lia.
Qed.

Lemma Math_max_attained (x : Z) (xs : list Z) : Math_max x xs ∈ x :: xs.
Proof.
  unfold Math_max. induction xs as [|z zs IH]; cbn; [left|].
  destruct (Z.max_spec z (foldr Z.max x zs)) as [[_ ->]|[_ ->]].
  - apply elem_of_cons in IH as [->|IH]; [left | right; by right].
  - right; left.
Qed.

Lemma counts_add_up {F} (l : list (Offline F)) :
  total (counts l) =
    (n_synced (counts l) + n_pending (counts l) + n_error (counts l))%nat.
Proof.
  unfold counts, count_status; cbn. induction l as [|r l IH]; [done|].
  rewrite !filter_cons. cbn [length]. rewrite IH.
  destruct (sync_status r); repeat case_decide; try done; cbn; lia.
Qed.

Lemma user_query {F} (stores : list string) (name : string) (userId : string)
    (t : gmap string (Offline F)) :
  "user_id" ∈ stores →
  Dexie.where_equals id stores name "user_id" user_id userId always t =
    (Resolved (user_records userId t), t).
Proof.
  intros Hin. rewrite where_equals_indexed by done. unfold user_records.
  do 2 f_equal. apply list_filter_iff. intros r. unfold always. tauto.
Qed.

Lemma getSyncStats_unfold (userId : string) (db : DB) :
  getSyncStats userId db =
    (Resolved
       (mkStats (counts (user_records userId (documents db)))
          (counts (user_records userId (projects db)))
          (counts (user_records userId (standard_info db)))
          (length (filter (fun q => q_user_id q = userId)
                     (Dexie.toArray q_id (sync_queue db))))
          (lastSyncAt_of (user_records userId (documents db)))), db).
Proof.
  unfold getSyncStats, getUserOfflineDocuments, getUserOfflineProjects,
    getUserOfflineStandardInfo, getPendingSyncItems, bind, on_documents,
    on_projects, on_standard_info, on_sync_queue, ret.
  rewrite !user_query by (vm_compute; set_solver). cbn.
  rewrite where_equals_indexed by (vm_compute; set_solver). cbn.
  destruct db; cbn. do 3 f_equal. f_equal.
  apply list_filter_iff. intros q. unfold always. tauto.
Qed.
End Stats.

(** C6, counterexample.  The user has a project synced at time 100 and no
    document: the reported [lastSyncAt] is null, not 100. *)
Lemma lastSyncAt_ignores_projects :
  (last_sync_at <$> projects store_synced_project !! "p1") = Some (Some 100) ∧
  (st_lastSyncAt <$>
     match getSyncStats "u1" store_synced_project with
     | (Resolved stats, _) => Some stats
     | _ => None
     end) = Some None.
Proof. vm_compute. done. Qed.

(** C6, amended.  [getSyncStats] resolves, changes nothing, and reports for
    the user the counts of each table by status (they add up to the total)
    and the number of queue items.  Its [lastSyncAt] is computed from the
    documents table alone: null when the user has no local document,
    otherwise the greatest [last_sync_at] time among the user's documents
    with a never-synced document counted as time 0.  Projects and standard
    info do not enter. *)
Theorem getSyncStats_reports_documents_only :
  ∀ (DC PC SC : Type) (db : OfflineDatabase DC PC SC) (userId : string),
    ∃ stats,
      getSyncStats userId db = (Resolved stats, db) ∧
      st_documents stats = counts (user_records userId (documents db)) ∧
      st_projects stats = counts (user_records userId (projects db)) ∧
      st_standardInfo stats = counts (user_records userId (standard_info db)) ∧
      st_syncQueue stats =
        length (filter (fun q => q_user_id q = userId)
                  (Dexie.toArray q_id (sync_queue db))) ∧
      (∀ c, c ∈ [st_documents stats; st_projects stats; st_standardInfo stats] →
         total c = (n_synced c + n_pending c + n_error c)%nat) ∧
      (user_records userId (documents db) = [] ↔ st_lastSyncAt stats = None) ∧
      (∀ m, st_lastSyncAt stats = Some m →
         (∃ d, d ∈ user_records userId (documents db) ∧ sync_time d = m) ∧
         (∀ d, d ∈ user_records userId (documents db) → sync_time d <= m)).
Proof.
  intros DC PC SC db userId. eexists. split; [apply getSyncStats_unfold|].
  cbn [st_documents st_projects st_standardInfo st_syncQueue st_lastSyncAt].
  repeat (split; [reflexivity|]). split; [|split].
  - intros c Hc. repeat (apply elem_of_cons in Hc as [->|Hc]);
      [apply counts_add_up .. | by apply elem_of_nil in Hc].
  - unfold lastSyncAt_of. destruct (user_records _ _); cbn; split; done.
  - intros m. unfold lastSyncAt_of.
    destruct (user_records userId (documents db)) as [|d0 ds] eqn:Hdocs;
      cbn; [done|]. intros [= <-]. split.
    + pose proof (Math_max_attained (sync_time d0) (sync_time <$> ds)) as Hin.
      change (sync_time d0 :: (sync_time <$> ds)) with (sync_time <$> (d0 :: ds)) in Hin.
      apply list_elem_of_fmap in Hin as (d & Hd & Hin). by exists d.
    + intros d Hd. apply Math_max_upper.
      change (sync_time d0 :: (sync_time <$> ds)) with (sync_time <$> (d0 :: ds)).
      by apply list_elem_of_fmap_2.
Qed.

(** ** C10 and C8: the completion cache key and request coalescing *)

Module CompletionFacts.
Import Completion.

Lemma generateCacheKey_of_keyData (r1 r2 : CompletionRequest) :
  keyData_of r1 = keyData_of r2 → generateCacheKey r1 = generateCacheKey r2.
Proof. unfold generateCacheKey. by intros ->. Qed.

(** A call that finds its key in [pendingRequests] returns that promise and
    changes nothing: no controller, no API request. *)
Lemma generateCompletion_joins_pending (now : Z) (r : CompletionRequest)
    (s : Service) (p : nat) :
  pendingRequests s !! generateCacheKey r = Some p →
  generateCompletion now r s = (Joined p, s).
Proof.
  intros Hp. unfold generateCompletion, generateCompletion_start. by rewrite Hp.
Qed.

(** A call that finds a live cache entry answers from it and changes
    nothing. *)
Lemma generateCompletion_answers_from_cache (now : Z) (r : CompletionRequest)
    (s : Service) (c : CompletionCache) :
  pendingRequests s !! generateCacheKey r = None →
  cache s !! generateCacheKey r = Some c → expiresAt c > now →
  generateCompletion now r s = (Answer (mkCompletionResponse (response c)), s).
Proof.
  intros Hp Hc Hlive.
  unfold generateCompletion, generateCompletion_start, generateCompletion_resume,
    getCachedCompletion.
  rewrite Hp. cbn. rewrite Hc. by rewrite bool_decide_eq_true_2.
Qed.

(** A call made after the first one has registered its promise joins it. *)
Lemma second_call_after_registration (now now' : Z) (r : CompletionRequest) :
  let '(first, s1) := generateCompletion now r new_service in
  generateCompletion now' r s1 = (first, s1) ∧ length (requests s1) = 1%nat.
Proof.
  unfold generateCompletion at 1, generateCompletion_start,
    generateCompletion_resume, getCachedCompletion. cbn.
  split; [|done]. apply generateCompletion_joins_pending. cbn.
  apply lookup_insert_eq.
Qed.
End CompletionFacts.

(** C8.  Two identical requests made in the same turn, with nothing pending
    and nothing cached: each first turn finds [pendingRequests] empty, so
    each continuation issues its own API request.  Two requests go out, the
    callers hold two different promises, and the second registration
    replaces the first. *)
Theorem same_turn_requests_are_sent_twice :
  let '(first, second, after) :=
    Completion.two_calls_in_one_turn 0 request_a request_a Completion.new_service in
  first = Completion.Joined 0 ∧ second = Completion.Joined 1 ∧
  Completion.requests after = [request_a; request_a] ∧
  Completion.pendingRequests after !! Completion.generateCacheKey request_a = Some 1%nat.
Proof. vm_compute. done. Qed.

(** ** C4: the pull phase *)

Section Pull.

Lemma put_all_resolves {F} (now : Z) (rows : list (Row F))
    (t : gmap string (Offline F)) :
  put_all now rows t =
    (Resolved tt, foldl (fun acc r => <[row_id r := from_server now r]> acc) t rows).
Proof.
  revert t. induction rows as [|r rows IH]; intros t; [done|].
  unfold put_all in *. cbn. unfold bind, run at 1. apply IH.
Qed.



End Pull.



(** ** C3: which records the push phase attempts *)

Section PushCalls.
Context {DocumentColumns ProjectColumns StandardInfoColumns G : Type}.
#[local] Abbreviation DB :=
  (OfflineDatabase DocumentColumns ProjectColumns StandardInfoColumns).
#[local] Abbreviation W :=
  (World DocumentColumns ProjectColumns StandardInfoColumns G).


#[global] Instance keeps_preorder (table : TableName) :
  PreOrder (keeps table : relation DB).
Proof.
  split.
  - intros d. by destruct table.
  - intros a b c. destruct table; intros [? ?] [? ?]; split; congruence.
Qed.


#[global] Instance grows_preorder (A : RemoteCall → Prop) (frame : relation DB)
    `{!PreOrder frame} : PreOrder (grows A frame : relation W).
Proof.
  split.
  - intros w. split; [reflexivity|]. exists []. by rewrite app_nil_r.
  - intros a b c [Hab (n1 & E1 & F1)] [Hbc (n2 & E2 & F2)]. split.
    + by etrans.
    + exists (n1 ++ n2). rewrite E2, E1, app_assoc. split; [done|].
      by apply Forall_app.
Qed.

Lemma on_db_grows {T} (A : RemoteCall → Prop) (frame : relation DB)
    (m : Async DB T) :
  preserves frame m → preserves (grows A frame) (on_db (G := G) m).
Proof.
  intros Hm w. unfold on_db. specialize (Hm (db w)).
  destruct (m (db w)) as [r d]. cbn in *. split; [done|].
  exists []. by rewrite app_nil_r.
Qed.

Lemma on_remote_grows {T} (A : RemoteCall → Prop) (frame : relation DB)
    `{!PreOrder frame} (c : RemoteCall) (m : Async G T) :
  A c →
  preserves (grows A frame)
    (on_remote (DocumentColumns := DocumentColumns)
       (ProjectColumns := ProjectColumns)
       (StandardInfoColumns := StandardInfoColumns) c m).
Proof.
  intros Hc w. unfold on_remote. destruct (m (remote w)) as [r g]. cbn.
  split; [reflexivity|]. exists [c]. split; [done|]. by apply Forall_singleton.
Qed.



Lemma on_documents_keeps {T} (m : Async (gmap string (Offline DocumentColumns)) T) :
  preserves (keeps t_documents)
    (on_documents (ProjectColumns := ProjectColumns)
       (StandardInfoColumns := StandardInfoColumns) m).
Proof. intros d. unfold on_documents. by destruct (m _). Qed.

Lemma on_projects_keeps {T} (m : Async (gmap string (Offline ProjectColumns)) T) :
  preserves (keeps t_projects)
    (on_projects (DocumentColumns := DocumentColumns)
       (StandardInfoColumns := StandardInfoColumns) m).
Proof. intros d. unfold on_projects. by destruct (m _). Qed.

Lemma on_standard_info_keeps {T}
    (m : Async (gmap string (Offline StandardInfoColumns)) T) :
  preserves (keeps t_standard_info)
    (on_standard_info (DocumentColumns := DocumentColumns)
       (ProjectColumns := ProjectColumns) m).
Proof. intros d. unfold on_standard_info. by destruct (m _). Qed.

Lemma queue_only_keeps (table : TableName) (d d' : DB) :
  queue_only d d' → keeps table d d'.
Proof. intros (? & ? & ? & ?). by destruct table. Qed.

Lemma updateSyncStatus_keeps (now : Z) (table : TableName) (i : string)
    (status : SyncStatus) (err : option string) :
  preserves (keeps table : relation DB) (updateSyncStatus now table i status err).
Proof.
  rewrite updateSyncStatus_steps. apply preserves_bind; [apply _ | |].
  - destruct table; cbn.
    + apply on_documents_keeps.
    + apply on_projects_keeps.
    + apply on_standard_info_keeps.
  - intros _ d. apply queue_only_keeps, record_error_queue_only.
Qed.
End PushCalls.

Section PushBodies.
Context {DocumentColumns ProjectColumns StandardInfoColumns G : Type}.
Variable supabase :
  Supabase DocumentColumns ProjectColumns StandardInfoColumns G.
#[local] Abbreviation DB :=
  (OfflineDatabase DocumentColumns ProjectColumns StandardInfoColumns).
#[local] Abbreviation W :=
  (World DocumentColumns ProjectColumns StandardInfoColumns G).

Variable A : RemoteCall → Prop.

Lemma pushProject_grows (now : Z) (p : Offline ProjectColumns) :
  A (PushCall t_projects op_update (id p)) →
  A (PushCall t_projects op_create (id p)) →
  preserves (grows (G := G) A (keeps t_projects)) (pushProject supabase now p).
Proof.
  intros Hu Hc. unfold pushProject.
  apply preserves_try_catch; [apply _ | |].
  - apply preserves_bind; [apply _ | |].
    + destruct (is_server_id _).
      * apply preserves_bind; [apply _ | by apply on_remote_grows; [apply _|] |].
        intros _. apply preserves_ret. apply _.
      * apply preserves_bind; [apply _ | by apply on_remote_grows; [apply _|] |].
        intros newProject. apply on_db_grows, on_projects_keeps.
    + intros _. apply on_db_grows, updateSyncStatus_keeps.
  - intros e. apply on_db_grows, updateSyncStatus_keeps.
Qed.

Lemma pushDocument_grows (now : Z) (userId : string) (d : Offline DocumentColumns) :
  A (PushCall t_documents op_update (id d)) →
  A (PushCall t_documents op_create (id d)) →
  preserves (grows (G := G) A (keeps t_documents))
    (pushDocument supabase now userId d).
Proof.
  intros Hu Hc. unfold pushDocument.
  apply preserves_try_catch; [apply _ | |].
  - apply preserves_bind; [apply _ | |].
    + destruct (is_server_id _).
      * apply preserves_bind; [apply _ | by apply on_remote_grows; [apply _|] |].
        intros _. apply preserves_ret. apply _.
      * apply preserves_bind; [apply _ | by apply on_remote_grows; [apply _|] |].
        intros newDocument. apply on_db_grows, on_documents_keeps.
    + intros _. apply on_db_grows, updateSyncStatus_keeps.
  - intros e. apply on_db_grows, updateSyncStatus_keeps.
Qed.

Lemma pushStandardInfo_grows (now : Z) (userId : string)
    (s : Offline StandardInfoColumns) :
  A (PushCall t_standard_info op_update (id s)) →
  A (PushCall t_standard_info op_create (id s)) →
  preserves (grows (G := G) A (keeps t_standard_info))
    (pushStandardInfo supabase now userId s).
Proof.
  intros Hu Hc. unfold pushStandardInfo.
  apply preserves_try_catch; [apply _ | |].
  - apply preserves_bind; [apply _ | |].
    + destruct (is_server_id _).
      * apply preserves_bind; [apply _ | by apply on_remote_grows; [apply _|] |].
        intros _. apply preserves_ret. apply _.
      * apply preserves_bind; [apply _ | by apply on_remote_grows; [apply _|] |].
        intros _. apply preserves_ret. apply _.
    + intros _. apply on_db_grows, updateSyncStatus_keeps.
  - intros e. apply on_db_grows, updateSyncStatus_keeps.
Qed.
End PushBodies.


Section PushTables.
Context {DocumentColumns ProjectColumns StandardInfoColumns G : Type}.
Variable supabase :
  Supabase DocumentColumns ProjectColumns StandardInfoColumns G.
#[local] Abbreviation DB :=
  (OfflineDatabase DocumentColumns ProjectColumns StandardInfoColumns).
#[local] Abbreviation W :=
  (World DocumentColumns ProjectColumns StandardInfoColumns G).

Lemma selected_is_pending {F} (userId : string) (t : gmap string (Offline F))
    (r : Offline F) :
  wf_table t → r ∈ pending_only (user_records userId t) →
  (envelope <$> t !! id r) = Some (pending, last_sync_at r).
Proof.
  intros Hwf [Hst [Hu [k Hk]%elem_of_toArray]%list_elem_of_filter]%list_elem_of_filter.
  rewrite <- (Hwf k r Hk) in Hk. rewrite Hk. cbn. unfold envelope. by rewrite Hst.
Qed.

Lemma pushProjects_grows (now : Z) (userId : string) (d0 : DB) (w : W) :
  wf_table (projects d0) → projects (db w) = projects d0 →
  grows (pending_call d0) (keeps t_projects) w
    (pushProjects supabase now userId w).2.
Proof.
  intros Hwf Heq. unfold pushProjects, bind, on_db, getUserOfflineProjects, on_projects.
  rewrite user_query by (vm_compute; set_solver). cbn.
  match goal with |- grows _ _ _ (for_of ?l ?b ?w').2 =>
    replace w' with w by (by destruct w as [[] ? ?]) end.
  apply preserves_for_of; [apply _|]. intros p Hp.
  rewrite Heq in Hp. pose proof (selected_is_pending _ _ _ Hwf Hp) as Hsel.
  apply pushProject_grows; exists t_projects; eexists _, _; (split; [done|]);
    cbn; by rewrite Hsel.
Qed.

Lemma pushDocuments_grows (now : Z) (userId : string) (d0 : DB) (w : W) :
  wf_table (documents d0) → documents (db w) = documents d0 →
  grows (pending_call d0) (keeps t_documents) w
    (pushDocuments supabase now userId w).2.
Proof.
  intros Hwf Heq.
  unfold pushDocuments, bind, on_db, getUserOfflineDocuments, on_documents.
  rewrite user_query by (vm_compute; set_solver). cbn.
  match goal with |- grows _ _ _ (for_of ?l ?b ?w').2 =>
    replace w' with w by (by destruct w as [[] ? ?]) end.
  apply preserves_for_of; [apply _|]. intros p Hp.
  rewrite Heq in Hp. pose proof (selected_is_pending _ _ _ Hwf Hp) as Hsel.
  apply pushDocument_grows; exists t_documents; eexists _, _; (split; [done|]);
    cbn; by rewrite Hsel.
Qed.

Lemma pushStandardInfos_grows (now : Z) (userId : string) (d0 : DB) (w : W) :
  wf_table (standard_info d0) → standard_info (db w) = standard_info d0 →
  grows (pending_call d0) (keeps t_standard_info) w
    (pushStandardInfos supabase now userId w).2.
Proof.
  intros Hwf Heq.
  unfold pushStandardInfos, bind, on_db, getUserOfflineStandardInfo, on_standard_info.
  rewrite user_query by (vm_compute; set_solver). cbn.
  match goal with |- grows _ _ _ (for_of ?l ?b ?w').2 =>
    replace w' with w by (by destruct w as [[] ? ?]) end.
  apply preserves_for_of; [apply _|]. intros p Hp.
  rewrite Heq in Hp. pose proof (selected_is_pending _ _ _ Hwf Hp) as Hsel.
  apply pushStandardInfo_grows; exists t_standard_info; eexists _, _;
    (split; [done|]); cbn; by rewrite Hsel.
Qed.

Lemma grows_forget (A : RemoteCall → Prop) (frame : relation DB) (w w' : W) :
  grows A frame w w' → grows A (fun _ _ => True) w w'.
Proof. intros [_ H]. by split. Qed.

Lemma pushPhase_grows (now : Z) (userId : string) (w : W) :
  wf_db (db w) →
  grows (pending_call (db w)) (fun _ _ => True) w (pushPhase supabase now userId w).2.
Proof.
  intros (Hd & Hp & Hs). unfold pushPhase, bind.
  pose proof (pushProjects_grows now userId (db w) w Hp eq_refl) as H1.
  destruct (pushProjects supabase now userId w) as [[[]|e1] w1]; cbn in *;
    [|by eapply grows_forget].
  destruct H1 as [[Hdoc Hstd] H1].
  pose proof (pushDocuments_grows now userId (db w) w1 Hd Hdoc) as H2.
  destruct (pushDocuments supabase now userId w1) as [[[]|e2] w2]; cbn in *.
  - destruct H2 as [[_ Hstd2] H2].
    pose proof (pushStandardInfos_grows now userId (db w) w2 Hs
                  (eq_trans Hstd2 Hstd)) as H3.
    assert (PreOrder (fun _ _ : DB => True)) as Hpre by (by split).
    etrans; [|eapply grows_forget, H3].
    etrans; [by split; [|exact H1] | by split; [|exact H2]].
  - destruct H2 as [_ H2].
    assert (PreOrder (fun _ _ : DB => True)) as Hpre by (by split).
    etrans; [by split; [|exact H1] | by split; [|exact H2]].
Qed.
End PushTables.

(** C3, counterexample.  Document [d1] is in error when the cycle starts.
    The push phase resolves without a single remote call: the record is not
    selected and its operation is not attempted again. *)
Lemma error_record_is_not_attempted :
  let '(outcome, w) :=
    pushPhase server 100 "u1" (start_world store_error_document server_reachable) in
  envelope_at t_documents "d1" store_error_document = Some (error, None) ∧
  outcome = Resolved tt ∧
  calls w = [] ∧
  envelope_at t_documents "d1" (db w) = Some (error, None).
Proof. vm_compute. done. Qed.

Lemma wf_db_store_error_document : wf_db store_error_document.
Proof.
  repeat split; intros k r; cbn.
  - by intros [<- <-]%lookup_singleton_Some.
  - by rewrite lookup_empty.
  - by rewrite lookup_empty.
Defined.

(** ** C1: the placeholder of a locally created record *)

Section DocumentSwap.
Context {DocumentColumns ProjectColumns StandardInfoColumns G : Type}.
Variable supabase :
  Supabase DocumentColumns ProjectColumns StandardInfoColumns G.

(** The documents path does replace the placeholder: when the remote create
    resolves with a row whose id is new to the local table, the record moves
    from the placeholder id to the server id, marked synced, and nothing else
    in the table changes. *)
Lemma pushDocument_swaps_placeholder (now : Z) (userId : string)
    (w : World DocumentColumns ProjectColumns StandardInfoColumns G)
    (d : Offline DocumentColumns) (row : Row DocumentColumns) (g' : G) :
  documents (db w) !! id d = Some d →
  is_server_id (id d) = false →
  documents_insert supabase (columns d) userId (remote w) = (Resolved (Data row), g') →
  documents (db w) !! row_id row = None →
  let w' := (pushDocument supabase now userId d w).2 in
  documents (db w') !! id d = None ∧
  documents (db w') !! row_id row =
    Some (mkOffline (row_id row) (user_id d) (columns d) synced (last_sync_at d)
            (local_updated_at d)) ∧
  (∀ k, k ≠ id d → k ≠ row_id row → documents (db w') !! k = documents (db w) !! k).
Proof.
  intros Hd Htemp Hins Hfresh.
  assert (row_id row ≠ id d) as Hne by (intros E; rewrite E in Hfresh; congruence).
  cbv zeta.
  unfold pushDocument, try_catch, bind, on_remote, on_db, createDocument, unwrap, bind.
  rewrite Htemp, Hins. cbn.
  unfold on_documents, Dexie.update. cbn. rewrite Hd. cbn.
  rewrite decide_False by done. rewrite Hfresh. cbn.
  unfold updateSyncStatus, bind, on_documents, Dexie.update. cbn.
  rewrite lookup_delete_eq. cbn.
  split; [apply lookup_delete_eq|]. split.
  - rewrite lookup_delete_ne by done. by rewrite lookup_insert_eq.
  - intros k Hk1 Hk2. rewrite lookup_delete_ne by done.
    by rewrite lookup_insert_ne.
Qed.

(** The standard-info path has no such step: when the remote create
    succeeds, whatever id the server assigned, the record stays under its
    placeholder id, marked synced, and the rest of the table is as it was (so
    nothing appears under the server id). *)
Lemma pushStandardInfo_keeps_placeholder (now : Z) (userId : string)
    (w : World DocumentColumns ProjectColumns StandardInfoColumns G)
    (s : Offline StandardInfoColumns) (row : Row StandardInfoColumns) (g' : G) :
  standard_info (db w) !! id s = Some s →
  is_server_id (id s) = false →
  standard_info_insert supabase (columns s) userId (remote w) =
    (Resolved (Data row), g') →
  let w' := (pushStandardInfo supabase now userId s w).2 in
  envelope_at t_standard_info (id s) (db w') = Some (synced, Some now) ∧
  (∀ k, k ≠ id s → standard_info (db w') !! k = standard_info (db w) !! k).
Proof.
  intros Hs Htemp Hins. cbv zeta.
  unfold pushStandardInfo, try_catch, bind, on_remote, on_db, createStandardInfo,
    unwrap, bind.
  rewrite Htemp, Hins. cbn.
  unfold updateSyncStatus, bind, on_standard_info, Dexie.update. cbn.
  rewrite Hs. cbn. rewrite decide_True by done. cbn. split.
  - by rewrite lookup_insert_eq.
  - intros k Hk. by rewrite lookup_insert_ne.
Qed.
End DocumentSwap.

(** The same on the concrete store: a new document [temp_d1] ends the cycle
    as [srv_1] only. *)
Lemma new_document_is_swapped :
  let '(outcome, w) :=
    cycle server 100 "u1" (start_world store_new_document empty_server) in
  outcome = Resolved tt ∧
  documents (db w) !! "temp_d1" = None ∧
  envelope_at t_documents "srv_1" (db w) = Some (synced, Some 100).
Proof. vm_compute. done. Qed.

(** The projects path: [ProjectService.createProject] resolves with
    [{data, error}], so the id read off the response is undefined; the local
    update is refused, the placeholder stays and is marked error, and the
    cycle ends there although the project now exists remotely as [srv_1]. *)
Lemma new_project_keeps_placeholder :
  let '(outcome, w) :=
    cycle server 100 "u1" (start_world store_new_project empty_server) in
  (∃ message, outcome = Rejected message) ∧
  srv_projects (remote w) = [mkRow "srv_1" "u1" "Q1"] ∧
  envelope_at t_projects "temp_abc" (db w) = Some (error, None) ∧
  projects (db w) !! "srv_1" = None.
Proof. vm_compute. split; [eauto | done]. Qed.

(** C1.  A standard-info entry created offline as [temp_s1] is pushed: the
    remote create succeeds and assigns [srv_1].  After the push phase the
    local table still holds the record under [temp_s1], now marked synced,
    and holds nothing under [srv_1]; after the pull that follows it holds
    both, the same entry twice. *)
Theorem new_standard_info_keeps_placeholder :
  let start := start_world store_new_standard_info empty_server in
  let '(pushed, w1) := pushPhase server 100 "u1" start in
  let '(outcome, w2) := cycle server 100 "u1" start in
  pushed = Resolved tt ∧ outcome = Resolved tt ∧
  calls w1 = [PushCall t_standard_info op_create "temp_s1"] ∧
  srv_standard_info (remote w1) = [mkRow "srv_1" "u1" "Q1"] ∧
  envelope_at t_standard_info "temp_s1" (db w1) = Some (synced, Some 100) ∧
  standard_info (db w1) !! "srv_1" = None ∧
  envelope_at t_standard_info "temp_s1" (db w2) = Some (synced, Some 100) ∧
  envelope_at t_standard_info "srv_1" (db w2) = Some (synced, Some 100) ∧
  size (standard_info (db w2)) = 2%nat.
Proof. vm_compute. done. Qed.

(** ** C2: one failing record in a batch *)

Section FailedPush.
Context {DocumentColumns ProjectColumns StandardInfoColumns G : Type}.
Variable supabase :
  Supabase DocumentColumns ProjectColumns StandardInfoColumns G.
#[local] Abbreviation DB :=
  (OfflineDatabase DocumentColumns ProjectColumns StandardInfoColumns).

(** What the loop over the queue items would do to an item: one more retry,
    and the message. *)
Lemma bump_retry_adds_one (e : string)
    (item : SyncQueueItem DocumentColumns ProjectColumns StandardInfoColumns) :
  ∃ item', bump_retry e item = Some item' ∧
           retry_count item' = retry_count item + 1 ∧
           last_error item' = Some e ∧ q_id item' = q_id item.
Proof. by eexists. Qed.

Lemma original_id_not_indexed : "original_id" ∉ stores_sync_queue.
Proof.
  unfold stores_sync_queue. rewrite !not_elem_of_cons.
  repeat split; try discriminate. apply not_elem_of_nil.
Qed.

(** The loop is never reached: the queue has no index on [original_id], so
    with an error message [updateSyncStatus] rejects, in every store. *)
Lemma updateSyncStatus_with_message_rejects (now : Z) (table : TableName)
    (i : string) (status : SyncStatus) (e : string) (db : DB) :
  truthy e = true →
  ∃ message, (updateSyncStatus now table i status (Some e) db).1 = Rejected message ∧
             sync_queue (updateSyncStatus now table i status (Some e) db).2 =
               sync_queue db.
Proof.
  intros He. rewrite updateSyncStatus_steps. unfold bind.
  destruct (write_status now table i status db) as [[[]|m] d] eqn:Hw.
  - assert (sync_queue d = sync_queue db) as Hq.
    { unfold write_status, on_documents, on_projects, on_standard_info in Hw.
      destruct table;
        match type of Hw with (let '(_, _) := ?u in _) = _ =>
          destruct u; injection Hw as _ <-; done end. }
    unfold record_error. rewrite He. unfold bind, on_sync_queue, Dexie.where_equals.
    rewrite bool_decide_eq_false_2 by apply original_id_not_indexed. cbn. eauto.
  - cbn. exists m. split; [done|].
    unfold write_status, on_documents, on_projects, on_standard_info in Hw.
    destruct table;
      match type of Hw with (let '(_, _) := ?u in _) = _ =>
        destruct u; injection Hw as _ <-; done end.
Qed.

(** So a document whose remote update fails takes the whole batch down: the
    loop rejects at that document and the documents after it are not
    pushed. *)
Lemma failed_update_leaves_the_loop (now : Z) (userId e : string)
    (w : World DocumentColumns ProjectColumns StandardInfoColumns G)
    (d : Offline DocumentColumns) (rest : list (Offline DocumentColumns)) (g' : G) :
  is_server_id (id d) = true →
  documents_update supabase (id d) (columns d) (remote w) = (Resolved (Error e), g') →
  truthy e = true →
  ∃ message,
    for_of (d :: rest) (pushDocument supabase now userId) w =
      (Rejected message, (pushDocument supabase now userId d w).2) ∧
    calls (pushDocument supabase now userId d w).2 =
      calls w ++ [PushCall t_documents op_update (id d)].
Proof.
  intros Hid Hupd He.
  assert (∃ message w',
            pushDocument supabase now userId d w = (Rejected message, w') ∧
            calls w' = calls w ++ [PushCall t_documents op_update (id d)])
    as (message & w' & Hpush & Hcalls).
  { unfold pushDocument, try_catch, bind, on_remote, updateDocument, unwrap, bind.
    rewrite Hid, Hupd. cbn. unfold on_db. cbn.
    match goal with
    | |- context [updateSyncStatus now t_documents (id d) error (Some e) ?x] =>
        destruct (updateSyncStatus_with_message_rejects now t_documents (id d)
                    error e x He) as (m & Hm & _);
        destruct (updateSyncStatus now t_documents (id d) error (Some e) x)
          as [o x']
    end.
    cbn in Hm. subst o. by eexists _, _. }
  exists message. cbn [for_of]. unfold bind. rewrite Hpush. by cbn.
Qed.
End FailedPush.

(** Seen from the hook: the cycle ends with [syncError] set and
    [isSyncing] cleared. *)
Lemma failed_push_sets_syncError :
  let '(state, w) :=
    syncData server 100 (Some "u1") (mkSyncState true false None None None)
      (start_world store_two_edits server_d1_unreachable) in
  isSyncing state = false ∧
  syncError state =
    Some "KeyPath original_id on object store sync_queue is not indexed" ∧
  (n_pending ∘ st_documents <$> syncStats state) = Some 1%nat ∧
  (n_error ∘ st_documents <$> syncStats state) = Some 1%nat.
Proof. vm_compute. done. Qed.

(** C2.  Two edited documents are pending, each with its queue item, and
    the gateway refuses the update of [d1].  [d1] is marked error; looking up
    its queue items by [original_id], which the queue's schema does not
    index, then rejects inside the handler of the failure.  The rejection
    leaves the loop: [d2] is never pushed and stays pending, the retry count
    of [d1]'s queue item is still 0 with no error recorded, and the cycle
    ends in error before the pull. *)
Theorem failed_push_aborts_the_batch :
  let '(outcome, w) :=
    cycle server 100 "u1" (start_world store_two_edits server_d1_unreachable) in
  outcome = Rejected "KeyPath original_id on object store sync_queue is not indexed" ∧
  calls w = [PushCall t_documents op_update "d1"] ∧
  envelope_at t_documents "d1" (db w) = Some (error, None) ∧
  envelope_at t_documents "d2" (db w) = Some (pending, None) ∧
  (retry_count <$> sync_queue (db w) !! "documents_d1_1") = Some 0 ∧
  (last_error <$> sync_queue (db w) !! "documents_d1_1") = Some None.
Proof. vm_compute. done. Qed.

(** * Further properties *)

(** ** The order of query results *)

Lemma ascii_compare_N (a b : ascii) :
  Ascii.compare a b = N.compare (N_of_ascii a) (N_of_ascii b).
Proof. reflexivity. Qed.

Lemma string_compare_trans_le (a b c : string) :
  String.compare a b ≠ Gt → String.compare b c ≠ Gt → String.compare a c ≠ Gt.
Proof.
  revert b c. induction a as [|x a IH]; intros [|y b] [|z c]; cbn; try done.
  rewrite !ascii_compare_N.
  destruct (N.compare_spec (N_of_ascii x) (N_of_ascii y)) as [Exy|Lxy|Gxy];
    destruct (N.compare_spec (N_of_ascii y) (N_of_ascii z)) as [Eyz|Lyz|Gyz];
    try done.
  - rewrite Exy, Eyz, N.compare_refl. apply IH.
  - intros _ _. rewrite Exy. by rewrite (proj2 (N.compare_lt_iff _ _) Lyz).
  - intros _ _. rewrite <- Eyz. by rewrite (proj2 (N.compare_lt_iff _ _) Lxy).
  - intros _ _.
    by rewrite (proj2 (N.compare_lt_iff _ _) (N.lt_trans _ _ _ Lxy Lyz)).
Qed.

Lemma string_leb_trans (a b c : string) :
  String.leb a b = true → String.leb b c = true → String.leb a c = true.
Proof.
  unfold String.leb. intros Hab Hbc.
  pose proof (string_compare_trans_le a b c) as H.
  destruct (String.compare a b), (String.compare b c), (String.compare a c);
    try done; exfalso; by apply H.
Qed.

Section ResultOrder.
Context {V : Type} (key : V -> string).

#[local] Instance key_le_trans : Transitive (Dexie.key_le key).
Proof. intros a b c. apply string_leb_trans. Qed.

#[local] Instance key_le_total : Total (Dexie.key_le key).
Proof. intros a b. apply String.leb_total. Qed.

Lemma toArray_sorted (t : gmap string V) :
  StronglySorted (Dexie.key_le key) (Dexie.toArray key t).
Proof. unfold Dexie.toArray. apply StronglySorted_merge_sort; apply _. Qed.

Lemma StronglySorted_filter_list {A} (R : relation A) (P : A → Prop)
    `{!∀ x, Decision (P x)} (l : list A) :
  StronglySorted R l → StronglySorted R (filter P l).
Proof.
  induction 1 as [|x l Hl IH Hx]; [constructor|].
  rewrite filter_cons. case_decide; [|done]. constructor; [done|].
  rewrite Forall_forall in Hx |- *. intros y [_ Hy]%list_elem_of_filter. by apply Hx.
Qed.

Lemma values_NoDup (t : gmap string V) :
  Dexie.keyed key t → NoDup (snd <$> map_to_list t).
Proof.
  intros Hk. apply NoDup_fmap_2_strong; [|apply NoDup_map_to_list].
  intros [k1 v1] [k2 v2] H1%elem_of_map_to_list H2%elem_of_map_to_list E.
  cbn in E. subst v2. f_equal. by rewrite <- (Hk _ _ H1), <- (Hk _ _ H2).
Qed.

(** A keyed table lists the objects of a sub-table in the same order. *)
Lemma toArray_filter (Q : V → Prop) `{!∀ v, Decision (Q v)} (t : gmap string V) :
  Dexie.keyed key t →
  Dexie.toArray key (filter (fun kv => Q kv.2) t) = filter Q (Dexie.toArray key t).
Proof.
  intros Hk. apply (StronglySorted_unique_strong (Dexie.key_le key)).
  - intros x1 x2 [k1 H1]%elem_of_toArray
      [H2q [k2 H2]%elem_of_toArray]%list_elem_of_filter L1 L2.
    apply map_lookup_filter_Some in H1 as [H1 _].
    pose proof (String.leb_antisym _ _ L1 L2) as E.
    rewrite (Hk _ _ H1), (Hk _ _ H2) in E. subst k2. congruence.
  - apply toArray_sorted.
  - apply StronglySorted_filter_list, toArray_sorted.
  - apply NoDup_Permutation.
    + unfold Dexie.toArray. rewrite merge_sort_Permutation. apply values_NoDup.
      intros k v [Hv _]%map_lookup_filter_Some. by apply Hk.
    + apply NoDup_filter. unfold Dexie.toArray. rewrite merge_sort_Permutation.
      by apply values_NoDup.
    + intros v. rewrite list_elem_of_filter, !elem_of_toArray. split.
      * intros [k [Hv Hq]%map_lookup_filter_Some]. eauto.
      * intros [Hq [k Hv]]. exists k. by apply map_lookup_filter_Some.
Qed.

Lemma head_only {A} (l : list A) (x : A) :
  x ∈ l → (∀ y, y ∈ l → y = x) → head l = Some x.
Proof.
  destruct l as [|y l]; [by intros ?%elem_of_nil|].
  intros _ H. cbn. f_equal. apply H. left.
Qed.
End ResultOrder.

(** ** Reading documents back *)

Section ReadBack.
Context {DocumentColumns ProjectColumns StandardInfoColumns : Type}.
#[local] Abbreviation DB :=
  (OfflineDatabase DocumentColumns ProjectColumns StandardInfoColumns).

Lemma on_documents_query {T} (result : T)
    (m : Async (gmap string (Offline DocumentColumns)) T) (db : DB) :
  m (documents db) = (Resolved result, documents db) →
  on_documents m db = (Resolved result, db).
Proof. intros H. unfold on_documents. rewrite H. by destruct db. Qed.

Lemma getDocument_lookup (userId documentId : string) (db : DB) :
  wf_table (documents db) →
  getDocument userId documentId db =
    (Resolved
       (match documents db !! documentId with
        | Some r => if decide (user_id r = userId) then Some r else None
        | None => None
        end), db).
Proof.
  intros Hwf. unfold getDocument, bind.
  assert ("user_id" ∈ stores_documents) as Hindexed by (vm_compute; set_solver).
  rewrite (on_documents_query _ _ db
             (where_equals_indexed id stores_documents "documents" "user_id" user_id
                userId _ (documents db) Hindexed)).
  unfold ret. do 2 f_equal.
  assert (∀ y, y ∈ filter (fun v : Offline DocumentColumns =>
                   user_id v = userId ∧ bool_decide (id v = documentId) = true)
                 (Dexie.toArray id (documents db)) ↔
               documents db !! documentId = Some y ∧ user_id y = userId) as Hin.
  { intros y. rewrite list_elem_of_filter, elem_of_toArray. split.
    - intros [[Hu Hi%bool_decide_eq_true_1] [k Hk]].
      rewrite <- (Hwf _ _ Hk) in Hk. by rewrite Hi in Hk.
    - intros [Hy Hu]. split; [|by eexists]. split; [done|].
      apply bool_decide_eq_true_2. by apply Hwf. }
  destruct (documents db !! documentId) as [r|] eqn:Hr.
  - case_decide as Hu.
    + apply head_only.
      * by apply Hin.
      * intros y [Hy _]%Hin. congruence.
    + destruct (filter _ _) as [|y l]; [done|].
      destruct (proj1 (Hin y) ltac:(left)) as [[= ->] Hy]. done.
  - destruct (filter _ _) as [|y l]; [done|].
    by destruct (proj1 (Hin y) ltac:(left)) as [? _].
Qed.

Lemma saveDocumentOffline_documents (now : Z) (i : string)
    (part : PartialRecord DocumentColumns) (db : DB) :
  p_id part = Some i →
  documents (saveDocumentOffline now part db).2 =
    <[i := mkOffline i (p_user_id part) (p_columns part) pending None now]>
      (documents db).
Proof.
  intros Hid. unfold saveDocumentOffline, bind at 1, on_documents, put_partial.
  rewrite Hid. cbn.
  match goal with |- context [bind ?m ?k ?d] =>
    assert (queue_only d (bind m k d).2) as (E & _) end.
  { apply preserves_bind; [apply _ | apply addToSyncQueue_queue_only |].
    intros _. apply preserves_ret. apply _. }
  cbn in E |- *. by rewrite E.
Qed.

Lemma deleteDocument_documents (now : Z) (userId documentId : string) (db : DB) :
  documents (deleteDocument now userId documentId db).2 =
    delete documentId (documents db).
Proof.
  unfold deleteDocument, bind at 1, on_documents, run. cbn.
  match goal with |- context [bind ?m ?k ?d] =>
    assert (queue_only d (bind m k d).2) as (E & _) end.
  { apply preserves_bind; [apply _ | apply addToSyncQueue_queue_only |].
    intros _. apply preserves_ret. apply _. }
  cbn in E |- *. by rewrite E.
Qed.
End ReadBack.

(** X1.  [getDocument] reads the documents table at the given id and checks
    the owner: it resolves with the stored record when that record belongs
    to the user and with undefined otherwise (no record, or a record of
    another user), and it changes nothing. *)
Theorem getDocument_is_an_owner_checked_lookup :
  ∀ (DC PC SC : Type) (db : OfflineDatabase DC PC SC) (userId documentId : string),
    wf_table (documents db) →
    ∃ answer,
      getDocument userId documentId db = (Resolved answer, db) ∧
      (∀ r, answer = Some r ↔
              documents db !! documentId = Some r ∧ user_id r = userId).
Proof.
  intros DC PC SC db userId documentId Hwf. eexists.
  split; [by apply getDocument_lookup|].
  intros r. destruct (documents db !! documentId) as [r'|].
  - case_decide as Hu; split.
    + by intros [= <-].
    + by intros [[= <-] _].
    + done.
    + by intros [[= <-] ?].
  - split; [done | by intros [? _]].
Qed.

Lemma getDocument_is_an_owner_checked_lookup_witness :
  ∃ answer,
    getDocument "u2" "d1" store_synced_document =
      (Resolved answer, store_synced_document) ∧
    (∀ r, answer = Some r ↔
            documents store_synced_document !! "d1" = Some r ∧ user_id r = "u2").
Proof.
  apply (getDocument_is_an_owner_checked_lookup string string string
           store_synced_document "u2" "d1").
  apply wf_db_store_synced_document.
Defined.

(** X2.  A document saved offline can be read back at once by its owner: it
    is the saved columns with [sync_status = pending], [last_sync_at] null and
    [local_updated_at] the time of the save, whatever record the id held
    before and even when the queue insert of the same save is refused. *)
Theorem saved_document_is_read_back :
  ∀ (DC PC SC : Type) (db : OfflineDatabase DC PC SC) (now : Z) (i : string)
    (part : PartialRecord DC),
    wf_table (documents db) → p_id part = Some i →
    let db' := (saveDocumentOffline now part db).2 in
    getDocument (p_user_id part) i db' =
      (Resolved (Some (mkOffline i (p_user_id part) (p_columns part) pending None now)),
       db').
Proof.
  intros DC PC SC db now i part Hwf Hid db'.
  pose proof (saveDocumentOffline_documents now i part db Hid) as Hdocs.
  fold db' in Hdocs. rewrite getDocument_lookup.
  - rewrite Hdocs, lookup_insert_eq. cbn. by rewrite decide_True.
  - rewrite Hdocs. apply (wf_table_put (mkOffline i _ _ _ _ _)), Hwf.
Qed.

Lemma saved_document_is_read_back_witness :
  let db' :=
    (saveDocumentOffline 9 (mkPartial (Some "d1") "u1" "Q2") store_synced_document).2 in
  getDocument "u1" "d1" db' =
    (Resolved (Some (mkOffline "d1" "u1" "Q2" pending None 9)), db').
Proof.
  apply (saved_document_is_read_back string string string store_synced_document 9
           "d1" (mkPartial (Some "d1") "u1" "Q2")).
  - apply wf_db_store_synced_document.
  - reflexivity.
Defined.

(** X3.  After [deleteDocument] the document cannot be read back by anyone,
    whether or not it existed and whether or not the delete could be queued;
    every other document is read back exactly as before. *)
Theorem deleted_document_is_not_read_back :
  ∀ (DC PC SC : Type) (db : OfflineDatabase DC PC SC) (now : Z)
    (userId documentId : string),
    wf_table (documents db) →
    let db' := (deleteDocument now userId documentId db).2 in
    (∀ reader, getDocument reader documentId db' = (Resolved None, db')) ∧
    (∀ reader other, other ≠ documentId →
       (getDocument reader other db').1 = (getDocument reader other db).1).
Proof.
  intros DC PC SC db now userId documentId Hwf db'.
  pose proof (deleteDocument_documents now userId documentId db) as Hdocs.
  fold db' in Hdocs.
  assert (wf_table (documents db')) as Hwf'.
  { rewrite Hdocs. by apply wf_table_delete. }
  split.
  - intros reader. rewrite getDocument_lookup by done.
    by rewrite Hdocs, lookup_delete_eq.
  - intros reader other Hne. rewrite !getDocument_lookup by done. cbn.
    by rewrite Hdocs, lookup_delete_ne.
Qed.

Lemma deleted_document_is_not_read_back_witness :
  let db' := (deleteDocument 10 "u1" "d1" store_synced_document).2 in
  (∀ reader, getDocument reader "d1" db' = (Resolved None, db')) ∧
  (∀ reader other, other ≠ "d1" →
     (getDocument reader other db').1 =
       (getDocument reader other store_synced_document).1).
Proof.
  apply (deleted_document_is_not_read_back string string string
           store_synced_document 10 "u1" "d1").
  apply wf_db_store_synced_document.
Defined.

(** ** Saving offline: the three outcomes *)

(** X4.  [saveDocumentOffline] has three outcomes.  Without an id the put
    is refused and nothing is written.  With an id the record is written
    first; when the queue key of this save is already taken the call then
    rejects, the record stays written and the queue is as it was; otherwise
    the call resolves with the record and the queue has gained exactly one
    item for it, with retry count 0, no error, the saved record as its
    snapshot and operation update (create only for the empty id). *)
Theorem saveDocumentOffline_outcomes :
  ∀ (DC PC SC : Type) (db : OfflineDatabase DC PC SC) (now : Z)
    (part : PartialRecord DC),
    match p_id part with
    | None =>
        ∃ message, saveDocumentOffline now part db = (Rejected message, db)
    | Some i =>
        let offline := mkOffline i (p_user_id part) (p_columns part) pending None now in
        let queue_key := "documents_" +:+ i +:+ "_" +:+ pretty now in
        let written :=
          mkDB (<[i := offline]> (documents db)) (projects db) (standard_info db)
            (sync_queue db) (cache db) in
        match sync_queue db !! queue_key with
        | Some _ =>
            ∃ message, saveDocumentOffline now part db = (Rejected message, written)
        | None =>
            saveDocumentOffline now part db =
              (Resolved offline,
               mkDB (<[i := offline]> (documents db)) (projects db)
                 (standard_info db)
                 (<[queue_key :=
                      mkQueueItem queue_key t_documents
                        (if truthy i then op_update else op_create)
                        (QDocument offline) i (p_user_id part) now 0 None]>
                    (sync_queue db))
                 (cache db))
        end
    end.
Proof.
  intros DC PC SC db now part.
  unfold saveDocumentOffline, bind, on_documents, put_partial, operation_for.
  destruct (p_id part) as [i|]; cbn.
  - unfold addToSyncQueue, bind, on_sync_queue, Dexie.add. cbn.
    destruct (sync_queue db !! _); cbn; eauto.
  - destruct db. eauto.
Qed.

(** ** The sync queue during a cycle *)

Section QueueUntouched.
Context {DocumentColumns ProjectColumns StandardInfoColumns G : Type}.
Variable supabase :
  Supabase DocumentColumns ProjectColumns StandardInfoColumns G.
#[local] Abbreviation DB :=
  (OfflineDatabase DocumentColumns ProjectColumns StandardInfoColumns).
#[local] Abbreviation W :=
  (World DocumentColumns ProjectColumns StandardInfoColumns G).

#[global] Instance unchanged_preorder {S T} (f : S → T) : PreOrder (unchanged f).
Proof.
  split; [done|]. intros a b c H1 H2. unfold unchanged in *. congruence.
Qed.

Lemma on_db_unchanged {T U} (f : DB → U) (m : Async DB T) :
  preserves (unchanged f) m →
  preserves (unchanged (fun w : W => f (db w))) (on_db m).
Proof.
  intros Hm w. unfold on_db. specialize (Hm (db w)).
  by destruct (m (db w)) as [r d].
Qed.

Lemma on_remote_unchanged {T U} (f : DB → U) (c : RemoteCall) (m : Async G T) :
  preserves (unchanged (fun w : W => f (db w))) (on_remote c m).
Proof. intros w. unfold on_remote. by destruct (m (remote w)). Qed.

Lemma write_status_same_queue (now : Z) (table : TableName) (i : string)
    (status : SyncStatus) :
  preserves (unchanged sync_queue : relation DB) (write_status now table i status).
Proof.
  intros d. unfold write_status, on_documents, on_projects, on_standard_info.
  destruct table; by destruct (Dexie.update _ _ _ _).
Qed.

Lemma record_error_same_queue (i : string) (err : option string) :
  preserves (unchanged sync_queue : relation DB) (record_error i err).
Proof.
  intros d. unfold record_error. destruct err as [e|]; [|done].
  destruct (truthy e); [|done].
  unfold bind, on_sync_queue, Dexie.where_equals.
  by rewrite bool_decide_eq_false_2 by apply original_id_not_indexed.
Qed.

Lemma updateSyncStatus_same_queue (now : Z) (table : TableName) (i : string)
    (status : SyncStatus) (err : option string) :
  preserves (unchanged sync_queue : relation DB)
    (updateSyncStatus now table i status err).
Proof.
  rewrite updateSyncStatus_steps. apply preserves_bind; [apply _ | |].
  - apply write_status_same_queue.
  - intros _. apply record_error_same_queue.
Qed.

Lemma on_documents_same {T U} (f : DB → U)
    (m : Async (gmap string (Offline DocumentColumns)) T) :
  (∀ d t, f (mkDB t (projects d) (standard_info d) (sync_queue d) (cache d)) = f d) →
  preserves (unchanged f) (on_documents m).
Proof. intros Hf d. unfold on_documents. destruct (m _). apply Hf. Qed.

Lemma on_projects_same {T U} (f : DB → U)
    (m : Async (gmap string (Offline ProjectColumns)) T) :
  (∀ d t, f (mkDB (documents d) t (standard_info d) (sync_queue d) (cache d)) = f d) →
  preserves (unchanged f) (on_projects m).
Proof. intros Hf d. unfold on_projects. destruct (m _). apply Hf. Qed.

Lemma on_standard_info_same {T U} (f : DB → U)
    (m : Async (gmap string (Offline StandardInfoColumns)) T) :
  (∀ d t, f (mkDB (documents d) (projects d) t (sync_queue d) (cache d)) = f d) →
  preserves (unchanged f) (on_standard_info m).
Proof. intros Hf d. unfold on_standard_info. destruct (m _). apply Hf. Qed.

Lemma on_cache_same {T U} (f : DB → U) (m : Async (gmap string OfflineCache) T) :
  (∀ d t, f (mkDB (documents d) (projects d) (standard_info d) (sync_queue d) t) = f d) →
  preserves (unchanged f) (on_cache m).
Proof. intros Hf d. unfold on_cache. destruct (m _). apply Hf. Qed.

#[local] Abbreviation same_queue := (unchanged (fun w : W => sync_queue (db w))).

Lemma pushPhase_same_queue (now : Z) (userId : string) :
  preserves same_queue (pushPhase supabase now userId).
Proof.
  assert (∀ t i st err, preserves same_queue
            (on_db (G := G) (updateSyncStatus now t i st err))) as Hstatus.
  { intros. apply (on_db_unchanged sync_queue), updateSyncStatus_same_queue. }
  unfold pushPhase, pushProjects, pushDocuments, pushStandardInfos.
  repeat first
    [ apply preserves_bind; [apply _ | | intros ?]
    | apply preserves_for_of; [apply _ | intros ? _]
    | apply Hstatus ].
  - apply (on_db_unchanged sync_queue). by apply on_projects_same.
  - unfold pushProject. apply preserves_try_catch; [apply _ | | intros; apply Hstatus].
    apply preserves_bind; [apply _ | | intros; apply Hstatus].
    destruct (is_server_id _);
      (apply preserves_bind; [apply _ | apply (on_remote_unchanged sync_queue) |]);
      intros.
    + apply preserves_ret. apply _.
    + apply (on_db_unchanged sync_queue). by apply on_projects_same.
  - apply (on_db_unchanged sync_queue). by apply on_documents_same.
  - unfold pushDocument. apply preserves_try_catch; [apply _ | | intros; apply Hstatus].
    apply preserves_bind; [apply _ | | intros; apply Hstatus].
    destruct (is_server_id _);
      (apply preserves_bind; [apply _ | apply (on_remote_unchanged sync_queue) |]);
      intros.
    + apply preserves_ret. apply _.
    + apply (on_db_unchanged sync_queue). by apply on_documents_same.
  - apply (on_db_unchanged sync_queue). by apply on_standard_info_same.
  - unfold pushStandardInfo.
    apply preserves_try_catch; [apply _ | | intros; apply Hstatus].
    apply preserves_bind; [apply _ | | intros; apply Hstatus].
    destruct (is_server_id _);
      (apply preserves_bind; [apply _ | apply (on_remote_unchanged sync_queue) |]);
      intros; apply preserves_ret; apply _.
Qed.

Lemma syncFromServer_same_queue (now : Z) (user : option string) :
  preserves same_queue (syncFromServer supabase now user).
Proof.
  unfold syncFromServer. destruct user as [userId|]; [|apply preserves_ret; apply _].
  repeat first
    [ apply preserves_bind; [apply _ | | intros ?]
    | apply (on_remote_unchanged sync_queue) ].
  - apply (on_db_unchanged sync_queue). by apply on_projects_same.
  - apply (on_db_unchanged sync_queue). by apply on_documents_same.
  - apply (on_db_unchanged sync_queue). by apply on_standard_info_same.
Qed.

Lemma cycle_same_queue (now : Z) (userId : string) :
  preserves same_queue (cycle supabase now userId).
Proof.
  unfold cycle.
  apply preserves_bind; [apply _ | apply pushPhase_same_queue | intros _].
  apply preserves_bind; [apply _ | apply syncFromServer_same_queue | intros _].
  apply (on_db_unchanged sync_queue). unfold clearExpiredCache. by apply on_cache_same.
Qed.

Lemma getSyncStats_db (userId : string) (d : DB) : (getSyncStats userId d).2 = d.
Proof. by rewrite getSyncStats_unfold. Qed.

Lemma loadSyncStats_world (user : option string)
    (st : SyncState) (w : W) :
  (loadSyncStats user st w).2 = w.
Proof.
  unfold loadSyncStats. destruct user as [userId|]; [|done].
  unfold on_db. pose proof (getSyncStats_db userId (db w)) as E.
  destruct (getSyncStats userId (db w)) as [[stats|m] d]; cbn in *; subst d;
    by destruct w.
Qed.
End QueueUntouched.

(** X5.  A sync cycle never touches the sync queue: whatever the store and
    the gateway do, and whether the cycle resolves or rejects, the queue
    after [cycle] (and after the hook's [syncData]) is the queue before.  No
    item is removed once its record is pushed, and no retry count or error
    message is ever written. *)
Theorem sync_never_changes_the_queue :
  ∀ (DC PC SC G : Type) (supabase : Supabase DC PC SC G) (now : Z)
    (userId : string) (user : option string) (st : SyncState)
    (w : World DC PC SC G),
    sync_queue (db (cycle supabase now userId w).2) = sync_queue (db w) ∧
    sync_queue (db (syncData supabase now user st w).2) = sync_queue (db w).
Proof.
  intros DC PC SC G supabase now userId user st w. split.
  - apply (cycle_same_queue supabase now userId w).
  - unfold syncData. destruct user as [u|]; [|done].
    destruct (negb (isOnline st) || isSyncing st); [done|].
    pose proof (cycle_same_queue supabase now u w) as H.
    destruct (cycle supabase now u w) as [r w']. rewrite loadSyncStats_world.
    exact H.
Qed.

(** ** The generic cache and the queue: writes, sweeps and clearing *)

Section CacheAndQueue.
Context {DocumentColumns ProjectColumns StandardInfoColumns : Type}.
#[local] Abbreviation DB :=
  (OfflineDatabase DocumentColumns ProjectColumns StandardInfoColumns).

Lemma empty_filter {A} (P : A → Prop) `{!∀ x, Decision (P x)} (l : list A) :
  (∀ x, x ∈ l → ¬ P x) → filter P l = [].
Proof.
  intros Hnone. destruct (filter P l) as [|y l'] eqn:E; [done|].
  assert (y ∈ filter P l) as [Hy Hin]%list_elem_of_filter by (rewrite E; left).
  by destruct (Hnone y Hin).
Qed.

Lemma bulkDelete_lookup {V} (ks : list string) (t : gmap string V) (k : string) :
  Dexie.bulkDelete ks t !! k = if decide (k ∈ ks) then None else t !! k.
Proof.
  unfold Dexie.bulkDelete. induction ks as [|k' ks IH]; cbn.
  - rewrite decide_False; [done | apply not_elem_of_nil].
  - unfold Dexie.delete_ at 1. destruct (decide (k = k')) as [->|Hne].
    + rewrite lookup_delete_eq, decide_True; [done | left].
    + rewrite lookup_delete_ne by done. rewrite IH.
      destruct (decide (k ∈ ks)) as [Hin|Hout].
      * rewrite decide_True; [done | by right].
      * rewrite decide_False; [done|]. by intros [?|?]%elem_of_cons.
Qed.

Lemma swept_cache (now : Z) (db : DB) :
  wf_cache db →
  cache (clearExpiredCache now db).2 =
    filter (fun kv => ¬ expires_at kv.2 < now) (cache db).
Proof.
  intros Hwf. unfold clearExpiredCache, on_cache, run. cbn.
  apply map_eq. intros k. apply option_eq. intros e.
  rewrite bulkDelete_lookup, map_lookup_filter_Some. cbn.
  destruct (decide (k ∈ c_id <$> expired_entries now (cache db))) as [Hin|Hout].
  - split; [done|]. intros [Hk Hlive]. exfalso.
    apply list_elem_of_fmap in Hin
      as (e' & -> & [Hexp [k' Hk']%elem_of_toArray]%list_elem_of_filter).
    rewrite <- (Hwf _ _ Hk') in Hk'. congruence.
  - split; [|by intros [? _]]. intros Hk. split; [done|]. intros Hexp.
    apply Hout. apply list_elem_of_fmap. exists e. split; [by rewrite (Hwf _ _ Hk)|].
    apply list_elem_of_filter. split; [done|]. apply elem_of_toArray. by exists k.
Qed.

Lemma cleared_queue (userId : string) (db : DB) :
  wf_queue db →
  clearSyncQueue userId db =
    (Resolved tt,
     mkDB (documents db) (projects db) (standard_info db)
       (filter (fun kq => q_user_id kq.2 ≠ userId) (sync_queue db)) (cache db)).
Proof.
  intros Hwf. unfold clearSyncQueue, getPendingSyncItems, bind, on_sync_queue, run.
  rewrite where_equals_indexed by (vm_compute; set_solver). cbn. do 2 f_equal.
  apply map_eq. intros k. apply option_eq. intros q.
  rewrite bulkDelete_lookup, map_lookup_filter_Some. cbn.
  match goal with |- context [decide (k ∈ ?l)] => destruct (decide (k ∈ l)) as [Hin|Hout] end.
  - split; [done|]. intros [Hk Hother]. exfalso.
    apply list_elem_of_fmap in Hin
      as (q' & -> & [[Hu _] [k' Hk']%elem_of_toArray]%list_elem_of_filter).
    rewrite <- (Hwf _ _ Hk') in Hk'. congruence.
  - split; [|by intros [? _]]. intros Hk. split; [done|]. intros Hu.
    apply Hout. apply list_elem_of_fmap. exists q. split; [by rewrite (Hwf _ _ Hk)|].
    apply list_elem_of_filter. split; [done|]. apply elem_of_toArray. by exists k.
Qed.
End CacheAndQueue.

(** X8.  [clearSyncQueue(userId)] resolves and removes exactly the queue
    items of that user: the items of other users and the other tables are as
    they were, and [getPendingSyncItems(userId)] then lists nothing. *)
Theorem clearSyncQueue_removes_the_users_items :
  ∀ (DC PC SC : Type) (db : OfflineDatabase DC PC SC) (userId : string),
    wf_queue db →
    let db' := (clearSyncQueue userId db).2 in
    (clearSyncQueue userId db).1 = Resolved tt ∧
    (∀ k q, sync_queue db' !! k = Some q ↔
            sync_queue db !! k = Some q ∧ q_user_id q ≠ userId) ∧
    getPendingSyncItems userId db' = (Resolved [], db') ∧
    documents db' = documents db ∧ projects db' = projects db ∧
    standard_info db' = standard_info db ∧ cache db' = cache db.
Proof.
  intros DC PC SC db userId Hwf db'. subst db'. rewrite (cleared_queue userId db Hwf).
  cbn. split; [done|]. split; [|split; [|done]].
  - intros k q. by rewrite map_lookup_filter_Some.
  - unfold getPendingSyncItems, on_sync_queue.
    rewrite where_equals_indexed by (vm_compute; set_solver). cbn. do 2 f_equal.
    apply empty_filter. intros q [k Hk]%elem_of_toArray [Hu _].
    by apply map_lookup_filter_Some in Hk as [_ Hother].
Qed.

(** ** Every object stays under its own key *)

Section KeyedTables.
Context {V : Type} (key : V -> string).

Lemma keyed_empty : Dexie.keyed key ∅.
Proof. intros k v. by rewrite lookup_empty. Qed.

Lemma keyed_put (obj : V) (t : gmap string V) :
  Dexie.keyed key t → Dexie.keyed key (Dexie.put key obj t).
Proof.
  intros Hk k v. unfold Dexie.put. rewrite lookup_insert.
  case_decide; [by intros [= <-] | apply Hk].
Qed.

Lemma keyed_add (obj : V) (t : gmap string V) :
  Dexie.keyed key t → Dexie.keyed key (Dexie.add key obj t).2.
Proof.
  intros Hk. unfold Dexie.add. destruct (t !! key obj) eqn:E; [done|].
  by apply keyed_put.
Qed.

Lemma keyed_delete (i : string) (t : gmap string V) :
  Dexie.keyed key t → Dexie.keyed key (Dexie.delete_ i t).
Proof.
  intros Hk k v. unfold Dexie.delete_. rewrite lookup_delete.
  case_decide; [done | apply Hk].
Qed.

Lemma keyed_bulkDelete (ks : list string) (t : gmap string V) :
  Dexie.keyed key t → Dexie.keyed key (Dexie.bulkDelete ks t).
Proof.
  intros Hk. unfold Dexie.bulkDelete. induction ks; [done|]. by apply keyed_delete.
Qed.

Lemma keyed_update (i : string) (apply : V → option V) (t : gmap string V) :
  Dexie.keyed key t → Dexie.keyed key (Dexie.update key i apply t).2.
Proof.
  intros Hk. unfold Dexie.update.
  destruct (t !! i) as [obj|]; [|done].
  destruct (apply obj) as [obj'|]; [|done].
  case_decide as Hkey; cbn.
  - intros k v. rewrite lookup_insert.
    case_decide; [intros [= <-]; congruence | apply Hk].
  - destruct (t !! key obj'); cbn; [done|].
    intros k v. rewrite lookup_delete. case_decide; [done|].
    rewrite lookup_insert. case_decide; [by intros [= <-] | apply Hk].
Qed.
End KeyedTables.

Section KeysKept.
Context {DocumentColumns ProjectColumns StandardInfoColumns : Type}.
#[local] Abbreviation DB :=
  (OfflineDatabase DocumentColumns ProjectColumns StandardInfoColumns).

#[global] Instance keeps_keys_preorder : PreOrder (keeps_keys : relation DB).
Proof.
  split; [intros d Hd; exact Hd | intros a b c Hab Hbc Ha; apply Hbc, Hab, Ha].
Qed.

Lemma on_documents_keys {T} (m : Async (gmap string (Offline DocumentColumns)) T) :
  (∀ t, wf_table t → wf_table (m t).2) →
  preserves (keeps_keys : relation DB) (on_documents m).
Proof.
  intros Hm d ((Hd & Hp & Hs) & Hq & Hc). unfold on_documents.
  specialize (Hm _ Hd). by destruct (m (documents d)).
Qed.

Lemma on_projects_keys {T} (m : Async (gmap string (Offline ProjectColumns)) T) :
  (∀ t, wf_table t → wf_table (m t).2) →
  preserves (keeps_keys : relation DB) (on_projects m).
Proof.
  intros Hm d ((Hd & Hp & Hs) & Hq & Hc). unfold on_projects.
  specialize (Hm _ Hp). by destruct (m (projects d)).
Qed.

Lemma on_standard_info_keys {T}
    (m : Async (gmap string (Offline StandardInfoColumns)) T) :
  (∀ t, wf_table t → wf_table (m t).2) →
  preserves (keeps_keys : relation DB) (on_standard_info m).
Proof.
  intros Hm d ((Hd & Hp & Hs) & Hq & Hc). unfold on_standard_info.
  specialize (Hm _ Hs). by destruct (m (standard_info d)).
Qed.

Lemma on_sync_queue_keys {T}
    (m : Async (gmap string (SyncQueueItem DocumentColumns ProjectColumns
                               StandardInfoColumns)) T) :
  (∀ t, Dexie.keyed q_id t → Dexie.keyed q_id (m t).2) →
  preserves (keeps_keys : relation DB) (on_sync_queue m).
Proof.
  intros Hm d ((Hd & Hp & Hs) & Hq & Hc). unfold on_sync_queue.
  specialize (Hm _ Hq). by destruct (m (sync_queue d)).
Qed.

Lemma on_cache_keys {T} (m : Async (gmap string OfflineCache) T) :
  (∀ t, Dexie.keyed c_id t → Dexie.keyed c_id (m t).2) →
  preserves (keeps_keys : relation DB) (on_cache m).
Proof.
  intros Hm d ((Hd & Hp & Hs) & Hq & Hc). unfold on_cache.
  specialize (Hm _ Hc). by destruct (m (cache d)).
Qed.

Lemma put_partial_keys {F} (now : Z) (part : PartialRecord F)
    (t : gmap string (Offline F)) :
  wf_table t → wf_table (put_partial now part t).2.
Proof.
  intros Ht. unfold put_partial. destruct (p_id part); [|done].
  by apply (keyed_put id).
Qed.

Lemma addToSyncQueue_keys (now : Z) (table : TableName) (op : Operation)
    (data : QueueData DocumentColumns ProjectColumns StandardInfoColumns) :
  preserves (keeps_keys : relation DB) (addToSyncQueue now table op data).
Proof.
  unfold addToSyncQueue. apply preserves_bind; [apply _ | |].
  - apply on_sync_queue_keys. intros t. apply keyed_add.
  - intros _. apply preserves_ret. apply _.
Qed.

Lemma saves_keep_keys (now : Z) :
  (∀ part, preserves (keeps_keys : relation DB) (saveDocumentOffline now part)) ∧
  (∀ part, preserves (keeps_keys : relation DB) (saveProjectOffline now part)) ∧
  (∀ part, preserves (keeps_keys : relation DB) (saveStandardInfoOffline now part)).
Proof.
  split; [|split]; intros part.
  - apply preserves_bind; [apply _ | |].
    + apply on_documents_keys. intros t. apply put_partial_keys.
    + intros offline. apply preserves_bind; [apply _ | apply addToSyncQueue_keys |].
      intros _. apply preserves_ret. apply _.
  - apply preserves_bind; [apply _ | |].
    + apply on_projects_keys. intros t. apply put_partial_keys.
    + intros offline. apply preserves_bind; [apply _ | apply addToSyncQueue_keys |].
      intros _. apply preserves_ret. apply _.
  - apply preserves_bind; [apply _ | |].
    + apply on_standard_info_keys. intros t. apply put_partial_keys.
    + intros offline. apply preserves_bind; [apply _ | apply addToSyncQueue_keys |].
      intros _. apply preserves_ret. apply _.
Qed.

Lemma deleteDocument_keys (now : Z) (userId documentId : string) :
  preserves (keeps_keys : relation DB) (deleteDocument now userId documentId).
Proof.
  unfold deleteDocument. apply preserves_bind; [apply _ | |].
  - apply on_documents_keys. intros t. apply (keyed_delete id).
  - intros _. apply preserves_bind; [apply _ | apply addToSyncQueue_keys |].
    intros _. apply preserves_ret. apply _.
Qed.

Lemma updateSyncStatus_keys (now : Z) (table : TableName) (i : string)
    (status : SyncStatus) (err : option string) :
  preserves (keeps_keys : relation DB) (updateSyncStatus now table i status err).
Proof.
  rewrite updateSyncStatus_steps. apply preserves_bind; [apply _ | |].
  - unfold write_status. destruct table.
    + apply on_documents_keys. intros t. apply (keyed_update id).
    + apply on_projects_keys. intros t. apply (keyed_update id).
    + apply on_standard_info_keys. intros t. apply (keyed_update id).
  - intros _. unfold record_error. destruct err as [e|]; [|apply preserves_ret; apply _].
    destruct (truthy e); [|apply preserves_ret; apply _].
    apply preserves_bind; [apply _ | |].
    + apply on_sync_queue_keys. intros t Ht. unfold Dexie.where_equals.
      by destruct (bool_decide _).
    + intros items. apply preserves_for_of; [apply _|]. intros item _.
      apply on_sync_queue_keys. intros t. apply keyed_update.
Qed.

Lemma setCache_keys (now : Z) (key data : string) (ttlMinutes : Z) :
  preserves (keeps_keys : relation DB) (setCache now key data ttlMinutes).
Proof.
  unfold setCache. destruct (time_value _); [|apply preserves_throw; apply _].
  apply on_cache_keys. intros t. apply keyed_put.
Qed.

Lemma clearExpiredCache_keys (now : Z) :
  preserves (keeps_keys : relation DB) (clearExpiredCache now).
Proof. apply on_cache_keys. intros t. apply keyed_bulkDelete. Qed.

Lemma clearSyncQueue_keys (userId : string) :
  preserves (keeps_keys : relation DB) (clearSyncQueue userId).
Proof.
  unfold clearSyncQueue. apply preserves_bind; [apply _ | |].
  - apply on_sync_queue_keys. intros t Ht. unfold Dexie.where_equals.
    by destruct (bool_decide _).
  - intros items. apply on_sync_queue_keys. intros t. apply keyed_bulkDelete.
Qed.

Lemma put_all_keys {F} (now : Z) (rows : list (Row F)) (t : gmap string (Offline F)) :
  wf_table t → wf_table (put_all now rows t).2.
Proof.
  revert t. unfold put_all. induction rows as [|r rows IH]; intros t Ht; [done|].
  cbn. unfold bind, run at 1. apply IH. by apply (keyed_put id).
Qed.

Lemma query_keeps_keys {T} (m : Async DB T) :
  (∀ d, (m d).2 = d) → preserves (keeps_keys : relation DB) m.
Proof. intros Hm d Hd. by rewrite Hm. Qed.
End KeysKept.

Section KeysKeptByCycle.
Context {DocumentColumns ProjectColumns StandardInfoColumns G : Type}.
Variable supabase :
  Supabase DocumentColumns ProjectColumns StandardInfoColumns G.
#[local] Abbreviation DB :=
  (OfflineDatabase DocumentColumns ProjectColumns StandardInfoColumns).
#[local] Abbreviation W :=
  (World DocumentColumns ProjectColumns StandardInfoColumns G).
#[local] Abbreviation world_keeps_keys :=
  (fun w w' : W => keeps_keys (db w) (db w')).

#[local] Instance world_keeps_keys_preorder : PreOrder world_keeps_keys.
Proof.
  split; [intros w Hw; exact Hw | intros a b c Hab Hbc Ha; apply Hbc, Hab, Ha].
Qed.

Lemma on_db_keys {T} (m : Async DB T) :
  preserves (keeps_keys : relation DB) m → preserves world_keeps_keys (on_db m).
Proof.
  intros Hm w. unfold on_db. specialize (Hm (db w)). by destruct (m (db w)).
Qed.

Lemma on_remote_keys {T} (c : RemoteCall) (m : Async G T) :
  preserves world_keeps_keys (on_remote c m).
Proof. intros w. unfold on_remote. by destruct (m (remote w)). Qed.

Lemma user_queries_keep_keys (userId : string) :
  preserves world_keeps_keys (on_db (getUserOfflineProjects userId)) ∧
  preserves world_keeps_keys (on_db (getUserOfflineDocuments userId)) ∧
  preserves world_keeps_keys (on_db (getUserOfflineStandardInfo userId)).
Proof.
  split; [|split]; apply on_db_keys, query_keeps_keys; intros d.
  - unfold getUserOfflineProjects, on_projects.
    rewrite user_query by (vm_compute; set_solver). by destruct d.
  - unfold getUserOfflineDocuments, on_documents.
    rewrite user_query by (vm_compute; set_solver). by destruct d.
  - unfold getUserOfflineStandardInfo, on_standard_info.
    rewrite user_query by (vm_compute; set_solver). by destruct d.
Qed.

Lemma pushPhase_keys (now : Z) (userId : string) :
  preserves world_keeps_keys (pushPhase supabase now userId).
Proof.
  assert (∀ t i st err, preserves world_keeps_keys
            (on_db (G := G) (updateSyncStatus now t i st err))) as Hstatus.
  { intros. apply on_db_keys, updateSyncStatus_keys. }
  destruct (user_queries_keep_keys userId) as (Qp & Qd & Qs).
  unfold pushPhase, pushProjects, pushDocuments, pushStandardInfos.
  repeat first
    [ apply preserves_bind; [apply _ | | intros ?]
    | apply preserves_for_of; [apply _ | intros ? _]
    | apply Hstatus | apply Qp | apply Qd | apply Qs ].
  - unfold pushProject. apply preserves_try_catch; [apply _ | | intros; apply Hstatus].
    apply preserves_bind; [apply _ | | intros; apply Hstatus].
    destruct (is_server_id _);
      (apply preserves_bind; [apply _ | apply on_remote_keys |]); intros.
    + apply preserves_ret. apply _.
    + apply on_db_keys, on_projects_keys. intros t. apply (keyed_update id).
  - unfold pushDocument. apply preserves_try_catch; [apply _ | | intros; apply Hstatus].
    apply preserves_bind; [apply _ | | intros; apply Hstatus].
    destruct (is_server_id _);
      (apply preserves_bind; [apply _ | apply on_remote_keys |]); intros.
    + apply preserves_ret. apply _.
    + apply on_db_keys, on_documents_keys. intros t. apply (keyed_update id).
  - unfold pushStandardInfo.
    apply preserves_try_catch; [apply _ | | intros; apply Hstatus].
    apply preserves_bind; [apply _ | | intros; apply Hstatus].
    destruct (is_server_id _);
      (apply preserves_bind; [apply _ | apply on_remote_keys |]);
      intros; apply preserves_ret; apply _.
Qed.

Lemma syncFromServer_keys (now : Z) (user : option string) :
  preserves world_keeps_keys (syncFromServer supabase now user).
Proof.
  unfold syncFromServer. destruct user as [userId|]; [|apply preserves_ret; apply _].
  repeat first
    [ apply preserves_bind; [apply _ | | intros ?]
    | apply on_remote_keys ].
  - apply on_db_keys, on_projects_keys. intros t. apply put_all_keys.
  - apply on_db_keys, on_documents_keys. intros t. apply put_all_keys.
  - apply on_db_keys, on_standard_info_keys. intros t. apply put_all_keys.
Qed.

Lemma cycle_keys (now : Z) (userId : string) :
  preserves world_keeps_keys (cycle supabase now userId).
Proof.
  unfold cycle.
  apply preserves_bind; [apply _ | apply pushPhase_keys | intros _].
  apply preserves_bind; [apply _ | apply syncFromServer_keys | intros _].
  apply on_db_keys, clearExpiredCache_keys.
Qed.
End KeysKeptByCycle.

(** X9.  Well-keyed stores stay well-keyed: when every record, queue item
    and cache entry is stored under its own id, that is still so after any of
    the local writes ([save*Offline], [deleteDocument], [updateSyncStatus],
    [setCache], [clearExpiredCache], [clearSyncQueue]) and after a whole sync
    cycle against any gateway, whether the operation resolves or rejects. *)
Theorem operations_keep_the_store_well_keyed :
  ∀ (DC PC SC : Type) (store : OfflineDatabase DC PC SC),
    wf_store store →
    (∀ now part, wf_store (saveDocumentOffline now part store).2) ∧
    (∀ now part, wf_store (saveProjectOffline now part store).2) ∧
    (∀ now part, wf_store (saveStandardInfoOffline now part store).2) ∧
    (∀ now userId documentId,
       wf_store (deleteDocument now userId documentId store).2) ∧
    (∀ now table i status err,
       wf_store (updateSyncStatus now table i status err store).2) ∧
    (∀ now key data ttlMinutes,
       wf_store (setCache now key data ttlMinutes store).2) ∧
    (∀ now, wf_store (clearExpiredCache now store).2) ∧
    (∀ userId, wf_store (clearSyncQueue userId store).2) ∧
    (∀ (G : Type) (supabase : Supabase DC PC SC G) now userId g log,
       wf_store (db (cycle supabase now userId (mkWorld store g log)).2)).
Proof.
  intros DC PC SC store Hwf.
  split; [intros now part; by apply (proj1 (saves_keep_keys now) part store)|].
  split; [intros now part;
          by apply (proj1 (proj2 (saves_keep_keys now)) part store)|].
  split; [intros now part;
          by apply (proj2 (proj2 (saves_keep_keys now)) part store)|].
  split; [intros now u i; by apply (deleteDocument_keys now u i store)|].
  split; [intros now table i status err;
          by apply (updateSyncStatus_keys now table i status err store)|].
  split; [intros now key data ttl; by apply (setCache_keys now key data ttl store)|].
  split; [intros now; by apply (clearExpiredCache_keys now store)|].
  split; [intros u; by apply (clearSyncQueue_keys u store)|].
  intros G supabase now u g log.
  by apply (cycle_keys supabase now u (mkWorld store g log)).
Qed.


Lemma wf_store_empty_store : wf_store empty_store.
Proof. repeat split; apply keyed_empty. Defined.

Lemma wf_store_two_edits : wf_store store_two_edits.
Proof.
  unfold store_two_edits, saved.
  apply (proj1 (saves_keep_keys _)), (proj1 (saves_keep_keys _)).
  exact wf_store_empty_store.
Defined.

Lemma operations_keep_the_store_well_keyed_witness :
  wf_store store_two_edits ∧
  wf_store (deleteDocument 3 "u1" "d1" store_two_edits).2 ∧
  wf_store (db (cycle server 4 "u1"
                  (mkWorld store_two_edits server_d1_unreachable [])).2).
Proof.
  pose proof (operations_keep_the_store_well_keyed string string string
                store_two_edits wf_store_two_edits)
    as (_ & _ & _ & Hdelete & _ & _ & _ & _ & Hcycle).
  split; [exact wf_store_two_edits|]. split; [apply Hdelete | apply Hcycle].
Defined.

Lemma clearSyncQueue_removes_the_users_items_witness :
  let db' := (clearSyncQueue "u1" store_two_edits).2 in
  (clearSyncQueue "u1" store_two_edits).1 = Resolved tt ∧
  (∀ k q, sync_queue db' !! k = Some q ↔
          sync_queue store_two_edits !! k = Some q ∧ q_user_id q ≠ "u1") ∧
  getPendingSyncItems "u1" db' = (Resolved [], db').
Proof.
  destruct (clearSyncQueue_removes_the_users_items string string string
              store_two_edits "u1" (proj1 (proj2 wf_store_two_edits)))
    as (H1 & H2 & H3 & _).
  exact (conj H1 (conj H2 H3)).
Defined.


(** ** The push phase writes to the records it selected only *)

Section PushFrame.
Context {DocumentColumns ProjectColumns StandardInfoColumns G : Type}.
Variable supabase :
  Supabase DocumentColumns ProjectColumns StandardInfoColumns G.
#[local] Abbreviation DB :=
  (OfflineDatabase DocumentColumns ProjectColumns StandardInfoColumns).
#[local] Abbreviation W :=
  (World DocumentColumns ProjectColumns StandardInfoColumns G).

Lemma stays_preorder {V} (K : string → Prop) : PreOrder (stays (V := V) K).
Proof.
  split; [intros t k v _ Hk; exact Hk|].
  intros a b c Hab Hbc k v HK Hk. eapply Hbc, Hab; eassumption.
Qed.

Lemma update_stays {V} (key : V → string) (K : string → Prop) (i : string)
    (apply : V → option V) (t : gmap string V) :
  K i → stays K t (Dexie.update key i apply t).2.
Proof.
  intros Hi k v HK Hk. unfold Dexie.update.
  destruct (t !! i) as [obj|]; [|done].
  destruct (apply obj) as [obj'|]; [|done].
  assert (k ≠ i) as Hne by (by intros ->).
  case_decide; cbn.
  - by rewrite lookup_insert_ne.
  - destruct (t !! key obj') eqn:Hfree; cbn; [done|].
    rewrite lookup_delete_ne by done. rewrite lookup_insert_ne; [done|].
    intros <-. congruence.
Qed.

#[local] Instance only_at_preorder (table : TableName) (K : string → Prop) :
  PreOrder (only_at table K : relation DB).
Proof.
  pose proof (@stays_preorder (Offline DocumentColumns) K) as [Rd Td].
  pose proof (@stays_preorder (Offline ProjectColumns) K) as [Rp Tp].
  pose proof (@stays_preorder (Offline StandardInfoColumns) K) as [Rs Ts].
  split.
  - intros d. destruct table; cbn; (split; [|done]); [apply Rd|apply Rp|apply Rs].
  - intros a b c Hab Hbc.
    destruct table; cbn in *; destruct Hab as (H1 & H2 & H3), Hbc as (H4 & H5 & H6);
      (split; [|split; congruence]).
    + by eapply Td.
    + by eapply Tp.
    + by eapply Ts.
Qed.

Lemma queue_only_only_at (table : TableName) (K : string → Prop) (d d' : DB) :
  queue_only d d' → only_at table K d d'.
Proof.
  intros (Hd & Hp & Hs & _). destruct table; cbn; rewrite ?Hd, ?Hp, ?Hs;
    (split; [|done]); by intros k v _ Hk.
Qed.

Lemma updateSyncStatus_only_at (now : Z) (table : TableName) (K : string → Prop)
    (i : string) (status : SyncStatus) (err : option string) :
  K i →
  preserves (only_at table K : relation DB) (updateSyncStatus now table i status err).
Proof.
  intros Hi. rewrite updateSyncStatus_steps. apply preserves_bind; [apply _ | |].
  - intros d. unfold write_status.
    destruct table; cbn;
      [unfold on_documents | unfold on_projects | unfold on_standard_info];
      match goal with |- context [Dexie.update id i ?a ?t] =>
        pose proof (update_stays id K i a t Hi) as Hst;
        destruct (Dexie.update id i a t) end; by cbn in *.
  - intros _ d. apply queue_only_only_at, record_error_queue_only.
Qed.

#[local] Abbreviation world_only_at table K :=
  (fun w w' : W => only_at table K (db w) (db w')).

#[local] Instance world_only_at_preorder (table : TableName) (K : string → Prop) :
  PreOrder (world_only_at table K).
Proof.
  destruct (only_at_preorder table K) as [R T].
  split; [intros w; apply R | intros a b c; apply T].
Qed.

Lemma on_db_only_at {T} (table : TableName) (K : string → Prop) (m : Async DB T) :
  preserves (only_at table K : relation DB) m →
  preserves (world_only_at table K) (on_db m).
Proof.
  intros Hm w. unfold on_db. specialize (Hm (db w)). by destruct (m (db w)).
Qed.

Lemma on_remote_only_at {T} (table : TableName) (K : string → Prop)
    (c : RemoteCall) (m : Async G T) :
  preserves (world_only_at table K) (on_remote c m).
Proof.
  intros w. unfold on_remote. destruct (m (remote w)). cbn.
  by destruct (only_at_preorder table K) as [R _].
Qed.

Lemma rekey_only_at (K : string → Prop) (i : string)
    (apply : Offline DocumentColumns → option (Offline DocumentColumns)) :
  K i →
  preserves (world_only_at t_documents K)
    (on_db (on_documents (Dexie.update id i apply))).
Proof.
  intros Hi. apply on_db_only_at. intros d. unfold on_documents.
  pose proof (update_stays id K i apply (documents d) Hi) as Hst.
  destruct (Dexie.update id i apply (documents d)). by cbn in *.
Qed.

Lemma rekey_project_only_at (K : string → Prop) (i : string)
    (apply : Offline ProjectColumns → option (Offline ProjectColumns)) :
  K i →
  preserves (world_only_at t_projects K)
    (on_db (on_projects (Dexie.update id i apply))).
Proof.
  intros Hi. apply on_db_only_at. intros d. unfold on_projects.
  pose proof (update_stays id K i apply (projects d) Hi) as Hst.
  destruct (Dexie.update id i apply (projects d)). by cbn in *.
Qed.

Lemma pushes_only_at (now : Z) (userId : string) (K : string → Prop) :
  (∀ p, K (id p) → preserves (world_only_at t_projects K) (pushProject supabase now p)) ∧
  (∀ d, K (id d) →
        preserves (world_only_at t_documents K) (pushDocument supabase now userId d)) ∧
  (∀ s, K (id s) →
        preserves (world_only_at t_standard_info K)
          (pushStandardInfo supabase now userId s)).
Proof.
  split; [|split]; intros r Hr.
  - unfold pushProject.
    apply preserves_try_catch; [apply _ | |
      intros; by apply on_db_only_at, updateSyncStatus_only_at].
    apply preserves_bind; [apply _ | |
      intros; by apply on_db_only_at, updateSyncStatus_only_at].
    destruct (is_server_id _);
      (apply preserves_bind; [apply _ | apply on_remote_only_at |]); intros.
    + apply preserves_ret. apply _.
    + by apply rekey_project_only_at.
  - unfold pushDocument.
    apply preserves_try_catch; [apply _ | |
      intros; by apply on_db_only_at, updateSyncStatus_only_at].
    apply preserves_bind; [apply _ | |
      intros; by apply on_db_only_at, updateSyncStatus_only_at].
    destruct (is_server_id _);
      (apply preserves_bind; [apply _ | apply on_remote_only_at |]); intros.
    + apply preserves_ret. apply _.
    + by apply rekey_only_at.
  - unfold pushStandardInfo.
    apply preserves_try_catch; [apply _ | |
      intros; by apply on_db_only_at, updateSyncStatus_only_at].
    apply preserves_bind; [apply _ | |
      intros; by apply on_db_only_at, updateSyncStatus_only_at].
    destruct (is_server_id _);
      (apply preserves_bind; [apply _ | apply on_remote_only_at |]);
      intros; apply preserves_ret; apply _.
Qed.

Lemma selected_key {F} (userId : string) (t : gmap string (Offline F))
    (r : Offline F) :
  wf_table t → r ∈ pending_only (user_records userId t) → selected userId t (id r).
Proof.
  intros Hwf [Hst [Hu [k Hk]%elem_of_toArray]%list_elem_of_filter]%list_elem_of_filter.
  exists r. by rewrite <- (Hwf k r Hk) in Hk.
Qed.

Lemma stays_spares {F} (userId : string) (t t' : gmap string (Offline F)) :
  stays (selected userId t) t t' → spares_table userId t t'.
Proof.
  intros Hst k r Hk Hns. apply Hst; [|done].
  intros (r' & Hk' & Hu & Hp). apply Hns. by simplify_eq.
Qed.

Lemma same_spares {F} (userId : string) (t t' : gmap string (Offline F)) :
  t' = t → spares_table userId t t'.
Proof. by intros -> k r Hk _. Qed.

Lemma pushProjects_only_at (now : Z) (userId : string) (w : W) :
  wf_table (projects (db w)) →
  only_at t_projects (selected userId (projects (db w))) (db w)
    (db (pushProjects supabase now userId w).2).
Proof.
  intros Hwf. unfold pushProjects, bind, on_db, getUserOfflineProjects, on_projects.
  rewrite user_query by (vm_compute; set_solver). cbn -[only_at for_of].
  match goal with |- only_at _ _ _ (db (for_of ?l ?b ?w').2) =>
    replace w' with w by (by destruct w as [[] ? ?]) end.
  apply (preserves_for_of (world_only_at t_projects _)).
  intros p Hp. apply (proj1 (pushes_only_at now userId _)). by apply selected_key.
Qed.

Lemma pushDocuments_only_at (now : Z) (userId : string) (w : W) :
  wf_table (documents (db w)) →
  only_at t_documents (selected userId (documents (db w))) (db w)
    (db (pushDocuments supabase now userId w).2).
Proof.
  intros Hwf. unfold pushDocuments, bind, on_db, getUserOfflineDocuments, on_documents.
  rewrite user_query by (vm_compute; set_solver). cbn -[only_at for_of].
  match goal with |- only_at _ _ _ (db (for_of ?l ?b ?w').2) =>
    replace w' with w by (by destruct w as [[] ? ?]) end.
  apply (preserves_for_of (world_only_at t_documents _)).
  intros p Hp. apply (proj1 (proj2 (pushes_only_at now userId _))). by apply selected_key.
Qed.

Lemma pushStandardInfos_only_at (now : Z) (userId : string) (w : W) :
  wf_table (standard_info (db w)) →
  only_at t_standard_info (selected userId (standard_info (db w))) (db w)
    (db (pushStandardInfos supabase now userId w).2).
Proof.
  intros Hwf.
  unfold pushStandardInfos, bind, on_db, getUserOfflineStandardInfo, on_standard_info.
  rewrite user_query by (vm_compute; set_solver). cbn -[only_at for_of].
  match goal with |- only_at _ _ _ (db (for_of ?l ?b ?w').2) =>
    replace w' with w by (by destruct w as [[] ? ?]) end.
  apply (preserves_for_of (world_only_at t_standard_info _)).
  intros p Hp. apply (proj2 (proj2 (pushes_only_at now userId _))). by apply selected_key.
Qed.

Lemma pushPhase_spares (now : Z) (userId : string) (w : W) :
  wf_db (db w) → spares userId (db w) (db (pushPhase supabase now userId w).2).
Proof.
  intros (Hd & Hp & Hs). unfold pushPhase, bind.
  pose proof (pushProjects_only_at now userId w Hp) as (P1 & D1 & S1).
  destruct (pushProjects supabase now userId w) as [[[]|e1] w1]; cbn in *.
  2:{ split; [|split]; [by apply same_spares | by apply stays_spares
                        | by apply same_spares]. }
  rewrite <- D1 in Hd. rewrite <- S1 in Hs.
  pose proof (pushDocuments_only_at now userId w1 Hd) as (D2 & P2 & S2).
  rewrite D1 in D2.
  destruct (pushDocuments supabase now userId w1) as [[[]|e2] w2]; cbn in *.
  2:{ split; [|split].
      - by apply stays_spares.
      - rewrite P2. by apply stays_spares.
      - apply same_spares. congruence. }
  rewrite <- S2 in Hs.
  pose proof (pushStandardInfos_only_at now userId w2 Hs) as (S3 & D3 & P3).
  rewrite S2, S1 in S3.
  split; [|split].
  - rewrite D3. by apply stays_spares.
  - rewrite P3, P2. by apply stays_spares.
  - by apply stays_spares.
Qed.
End PushFrame.

(** X10.  The push phase of a sync writes to the records it selected and to
    no others: every document, project and standard-info entry that is not a
    pending record of the signed-in user (another user's record, or one whose
    status is synced or error) is stored under the same key with the same
    contents when the phase ends, however the gateway answers and whether the
    phase resolves or rejects. *)
Theorem push_phase_spares_unselected_records :
  ∀ (DC PC SC G : Type) (supabase : Supabase DC PC SC G) (now : Z)
    (userId : string) (w : World DC PC SC G),
    wf_db (db w) →
    spares userId (db w) (db (pushPhase supabase now userId w).2).
Proof. intros. by apply pushPhase_spares. Qed.

Lemma push_phase_spares_unselected_records_witness :
  wf_db (db (start_world store_error_document server_reachable)) ∧
  documents (db (pushPhase server 5 "u1"
                   (start_world store_error_document server_reachable)).2) !! "d1" =
    Some (record "d1" error None).
Proof.
  pose proof (push_phase_spares_unselected_records string string string Server
                server 5 "u1" (start_world store_error_document server_reachable)
                wf_db_store_error_document) as (Hd & _).
  split; [exact wf_db_store_error_document|].
  apply Hd; [reflexivity|]. intros [_ Hst]. discriminate Hst.
Defined.


(** ** The generic cache during a cycle *)

Section CacheUntouched.
Context {DocumentColumns ProjectColumns StandardInfoColumns G : Type}.
Variable supabase :
  Supabase DocumentColumns ProjectColumns StandardInfoColumns G.
#[local] Abbreviation DB :=
  (OfflineDatabase DocumentColumns ProjectColumns StandardInfoColumns).
#[local] Abbreviation W :=
  (World DocumentColumns ProjectColumns StandardInfoColumns G).

Lemma write_status_same_cache (now : Z) (table : TableName) (i : string)
    (status : SyncStatus) :
  preserves (unchanged cache : relation DB) (write_status now table i status).
Proof.
  intros d. unfold write_status, on_documents, on_projects, on_standard_info.
  destruct table; by destruct (Dexie.update _ _ _ _).
Qed.

Lemma record_error_same_cache (i : string) (err : option string) :
  preserves (unchanged cache : relation DB) (record_error i err).
Proof. intros d. by destruct (record_error_queue_only i err d) as (_ & _ & _ & H). Qed.

Lemma updateSyncStatus_same_cache (now : Z) (table : TableName) (i : string)
    (status : SyncStatus) (err : option string) :
  preserves (unchanged cache : relation DB)
    (updateSyncStatus now table i status err).
Proof.
  rewrite updateSyncStatus_steps. apply preserves_bind; [apply _ | |].
  - apply write_status_same_cache.
  - intros _. apply record_error_same_cache.
Qed.

#[local] Abbreviation same_cache := (unchanged (fun w : W => cache (db w))).

Lemma pushPhase_same_cache (now : Z) (userId : string) :
  preserves same_cache (pushPhase supabase now userId).
Proof.
  assert (∀ t i st err, preserves same_cache
            (on_db (G := G) (updateSyncStatus now t i st err))) as Hstatus.
  { intros. apply (on_db_unchanged cache), updateSyncStatus_same_cache. }
  unfold pushPhase, pushProjects, pushDocuments, pushStandardInfos.
  repeat first
    [ apply preserves_bind; [apply _ | | intros ?]
    | apply preserves_for_of; [apply _ | intros ? _]
    | apply Hstatus ].
  - apply (on_db_unchanged cache). by apply on_projects_same.
  - unfold pushProject. apply preserves_try_catch; [apply _ | | intros; apply Hstatus].
    apply preserves_bind; [apply _ | | intros; apply Hstatus].
    destruct (is_server_id _);
      (apply preserves_bind; [apply _ | apply (on_remote_unchanged cache) |]);
      intros.
    + apply preserves_ret. apply _.
    + apply (on_db_unchanged cache). by apply on_projects_same.
  - apply (on_db_unchanged cache). by apply on_documents_same.
  - unfold pushDocument. apply preserves_try_catch; [apply _ | | intros; apply Hstatus].
    apply preserves_bind; [apply _ | | intros; apply Hstatus].
    destruct (is_server_id _);
      (apply preserves_bind; [apply _ | apply (on_remote_unchanged cache) |]);
      intros.
    + apply preserves_ret. apply _.
    + apply (on_db_unchanged cache). by apply on_documents_same.
  - apply (on_db_unchanged cache). by apply on_standard_info_same.
  - unfold pushStandardInfo.
    apply preserves_try_catch; [apply _ | | intros; apply Hstatus].
    apply preserves_bind; [apply _ | | intros; apply Hstatus].
    destruct (is_server_id _);
      (apply preserves_bind; [apply _ | apply (on_remote_unchanged cache) |]);
      intros; apply preserves_ret; apply _.
Qed.

Lemma syncFromServer_same_cache (now : Z) (user : option string) :
  preserves same_cache (syncFromServer supabase now user).
Proof.
  unfold syncFromServer. destruct user as [userId|]; [|apply preserves_ret; apply _].
  repeat first
    [ apply preserves_bind; [apply _ | | intros ?]
    | apply (on_remote_unchanged cache) ].
  - apply (on_db_unchanged cache). by apply on_projects_same.
  - apply (on_db_unchanged cache). by apply on_documents_same.
  - apply (on_db_unchanged cache). by apply on_standard_info_same.
Qed.

Lemma syncFromServer_rejected (now : Z) (user : option string) (w : W) (e : string) :
  (syncFromServer supabase now user w).1 = Rejected e →
  db (syncFromServer supabase now user w).2 = db w.
Proof.
  unfold syncFromServer. destruct user as [userId|]; [|done].
  unfold bind, on_remote.
  destruct (getUserProjects supabase userId (remote w)) as [[ps|e1] g1]; cbn; [|done].
  destruct (getUserDocuments supabase userId g1) as [[ds|e2] g2]; cbn; [|done].
  destruct (getUserStandardInfo supabase userId g2) as [[ss|e3] g3]; cbn; [|done].
  unfold on_db, on_projects, on_documents, on_standard_info; cbn.
  rewrite !put_all_resolves; cbn. discriminate.
Qed.

Lemma cycle_cache (now : Z) (userId : string) (w : W) :
  cache (db (cycle supabase now userId w).2) =
    match (cycle supabase now userId w).1 with
    | Resolved _ => cache (clearExpiredCache now (db w)).2
    | Rejected _ => cache (db w)
    end.
Proof.
  unfold cycle.
  pose proof (pushPhase_same_cache now userId w) as H1. unfold unchanged in H1.
  change (bind (pushPhase supabase now userId) ?k w) with
    (match pushPhase supabase now userId w with
     | (Resolved a, s') => k a s'
     | (Rejected e, s') => (Rejected e, s')
     end).
  destruct (pushPhase supabase now userId w) as [[[]|e1] w1]; cbn [fst snd] in *;
    [|done].
  pose proof (syncFromServer_same_cache now (Some userId) w1) as H2.
  unfold unchanged in H2.
  change (bind (syncFromServer supabase now (Some userId)) ?k w1) with
    (match syncFromServer supabase now (Some userId) w1 with
     | (Resolved a, s') => k a s'
     | (Rejected e, s') => (Rejected e, s')
     end).
  destruct (syncFromServer supabase now (Some userId) w1) as [[[]|e2] w2];
    cbn [fst snd] in *; [|congruence].
  unfold on_db, clearExpiredCache, on_cache, run. cbn. by rewrite H2, H1.
Qed.
End CacheUntouched.

(** X11.  Expired entries of the generic cache are swept by a cycle that
    runs to its end, and by no other: when [cycle] resolves, the cache is
    what [clearExpiredCache] makes of the cache the cycle started with; when
    it rejects (a failed push that aborts the batch, or a failed pull), the
    cache is exactly as it was. *)
Theorem cache_is_swept_by_a_complete_cycle_only :
  ∀ (DC PC SC G : Type) (supabase : Supabase DC PC SC G) (now : Z)
    (userId : string) (w : World DC PC SC G),
    cache (db (cycle supabase now userId w).2) =
      match (cycle supabase now userId w).1 with
      | Resolved _ => cache (clearExpiredCache now (db w)).2
      | Rejected _ => cache (db w)
      end.
Proof. intros. apply cycle_cache. Qed.

(** X12.  A pull that fails writes nothing.  The three listings are fetched
    before the first local [put]; when [syncFromServer] rejects, no table of
    the store has been written, not even with the rows that the listings
    which did answer returned. *)
Theorem failed_pull_writes_nothing :
  ∀ (DC PC SC G : Type) (supabase : Supabase DC PC SC G) (now : Z)
    (user : option string) (w : World DC PC SC G) (e : string),
    (syncFromServer supabase now user w).1 = Rejected e →
    db (syncFromServer supabase now user w).2 = db w.
Proof. intros. by eapply syncFromServer_rejected. Qed.

Lemma failed_pull_writes_nothing_witness :
  (syncFromServer server_documents_down 9 (Some "u1")
     (start_world empty_store server_one_project)).1 = Rejected "GatewayUnreachable" ∧
  db (syncFromServer server_documents_down 9 (Some "u1")
        (start_world empty_store server_one_project)).2 = empty_store ∧
  projects (db (syncFromServer server 9 (Some "u1")
                  (start_world empty_store server_one_project)).2) !! "p1" =
    Some (mkOffline "p1" "u1" "plan" synced (Some 9) 9).
Proof.
  split; [reflexivity|]. split; [|reflexivity].
  apply (failed_pull_writes_nothing string string string Server
           server_documents_down 9 (Some "u1")
           (start_world empty_store server_one_project) "GatewayUnreachable").
  reflexivity.
Defined.


(** ** The hook's state after a run *)

(** X13.  What [syncData] leaves in the hook's state when it runs (a user is
    signed in, the hook is online and not already syncing).  [isSyncing] is
    cleared and [syncError] is the cycle's rejection message, or null when
    the cycle resolved.  The statistics are those of the store the cycle
    left, and [lastSyncAt] is taken from them: the [new Date()] stored by a
    successful cycle is replaced by the greatest [last_sync_at] of the
    user's local documents, and it is null when the user has none. *)
Theorem syncData_final_state :
  ∀ (DC PC SC G : Type) (supabase : Supabase DC PC SC G) (now : Z)
    (userId : string) (st : SyncState) (w : World DC PC SC G),
    isOnline st = true → isSyncing st = false →
    let ran := cycle supabase now userId w in
    ∃ stats,
      getSyncStats userId (db ran.2) = (Resolved stats, db ran.2) ∧
      syncData supabase now (Some userId) st w =
        (mkSyncState true false (truthy_time (st_lastSyncAt stats))
           (match ran.1 with Resolved _ => None | Rejected message => Some message end)
           (Some stats),
         ran.2) ∧
      st_lastSyncAt stats = lastSyncAt_of (user_records userId (documents (db ran.2))) ∧
      (user_records userId (documents (db ran.2)) = [] →
       lastSyncAt (syncData supabase now (Some userId) st w).1 = None).
Proof.
  intros DC PC SC G supabase now userId st w Hon Hsync ran.
  eexists. split; [apply getSyncStats_unfold|].
  match goal with |- ?run ∧ _ => assert run as Hrun; [|split; [exact Hrun|]] end.
  - unfold syncData. rewrite Hon, Hsync. cbn [negb orb].
    fold ran. destruct ran as [r w'] eqn:Hran. cbn [fst snd].
    unfold loadSyncStats, on_db. rewrite getSyncStats_unfold.
    destruct r; cbn; by destruct w'.
  - split; [done|]. intros Hnone. rewrite Hrun. cbn. by rewrite Hnone.
Qed.

Lemma syncData_final_state_witness :
  isSyncing (syncData server 4 (Some "u1") (mkSyncState true false None None None)
               (start_world store_two_edits server_d1_unreachable)).1 = false ∧
  syncError (syncData server 4 (Some "u1") (mkSyncState true false None None None)
               (start_world store_two_edits server_d1_unreachable)).1 ≠ None.
Proof.
  destruct (syncData_final_state string string string Server server 4 "u1"
              (mkSyncState true false None None None)
              (start_world store_two_edits server_d1_unreachable)
              eq_refl eq_refl) as (stats & _ & -> & _).
  split; [reflexivity|]. vm_compute. discriminate.
Defined.


(** ** The completion service: keys, registrations and the cache *)

Module ServiceFacts.
Import Completion.
Local Open Scope list_scope.
Local Open Scope Z_scope.






Lemma base64_nonempty (fuel : nat) (a : N) (s : jsstring) :
  base64 (S fuel) (a :: s) ≠ [].
Proof. cbn [base64]. by destruct s as [|b [|c r]]. Qed.

Lemma toString36_digits_nonempty (fuel : nat) (n : Z) (acc : jsstring) :
  fuel ≠ 0%nat ∨ acc ≠ [] → toString36_digits fuel n acc ≠ [].
Proof.
  revert n acc. induction fuel as [|fuel IH]; intros n acc Hacc.
  - by destruct Hacc.
  - cbn [toString36_digits]. destruct (n <? 36); [done|]. apply IH. by right.
Qed.

Lemma toString36_nonempty (n : Z) : toString36 n ≠ [].
Proof. apply toString36_digits_nonempty. by left. Qed.

Lemma JSON_stringify_head (k : KeyData) : ∃ rest, JSON_stringify k = 123%N :: rest.
Proof. unfold JSON_stringify. change (js "{") with [123%N]. by eexists. Qed.

Lemma generateCacheKey_nonempty (request : CompletionRequest) :
  generateCacheKey request ≠ [].
Proof.
  unfold generateCacheKey. cbv zeta.
  destruct (JSON_stringify_head (keyData_of request)) as [rest ->].
  unfold btoa. destruct (forallb _ _); [apply base64_nonempty|].
  apply toString36_nonempty.
Qed.

(** A call that finds nothing pending and nothing live in the cache sends an
    API request and registers its promise. *)
Lemma generateCompletion_issues (now : Z) (request : CompletionRequest) (s : Service) :
  pendingRequests s !! generateCacheKey request = None →
  getCachedCompletion now (generateCacheKey request) s = None →
  generateCompletion now request s =
    (Joined (length (requests s)),
     mkService (cache s)
       (<[generateCacheKey request := length (requests s)]> (pendingRequests s))
       (<[generateCacheKey request := length (requests s)]> (abortControllers s))
       (requests s ++ [request]) (aborted s)).
Proof.
  intros Hp Hc. unfold generateCompletion, generateCompletion_start.
  rewrite Hp, Hc. reflexivity.
Qed.

Lemma getCachedCompletion_later (now now' : Z) (key : jsstring) (s : Service) :
  now <= now' → getCachedCompletion now key s = None →
  getCachedCompletion now' key s = None.
Proof.
  unfold getCachedCompletion. intros Hle. destruct (cache s !! key) as [c|]; [|done].
  case_bool_decide; [done|]. intros _. rewrite bool_decide_eq_false_2; [done|]. lia.
Qed.

Lemma consistent_resume (k : Suspended) (s : Service) :
  s_cacheKey k = generateCacheKey (s_request k) →
  consistent s → consistent (generateCompletion_resume k s).2.
Proof.
  intros Hkey [Hsame Hreg]. unfold generateCompletion_resume.
  destruct (s_cachedResponse k); [done|]. unfold consistent. cbn.
  split; [by rewrite Hsame|].
  intros key p [[<- <-]|[Hne Hp]]%lookup_insert_Some.
  - exists (s_request k). split; [|done]. by apply list_lookup_middle.
  - destruct (Hreg key p Hp) as (r & Hr & <-). exists r. split; [|done].
    by apply lookup_app_l_Some.
Qed.

Lemma consistent_settle (now : Z) (p : nat) (outcome : option CompletionResponse)
    (s : Service) :
  consistent s → consistent (settle now p outcome s).
Proof.
  intros [Hsame Hreg]. unfold settle. destruct (requests s !! p) as [request|]; [|done].
  destruct outcome as [r|]; unfold consistent; cbn; (split; [by rewrite Hsame|]);
    intros key q [_ Hq]%lookup_delete_Some; by apply Hreg.
Qed.

Lemma consistent_cancel (requestKey : option jsstring) (s : Service) :
  consistent s → consistent (cancelCompletion requestKey s).
Proof.
  intros [Hsame Hreg]. unfold cancelCompletion.
  destruct requestKey as [[|c key]|]; try (split; [done|]; intros ? ?; cbn;
    by rewrite lookup_empty).
  destruct (abortControllers s !! _); [|done]. unfold consistent. cbn.
  split; [by rewrite Hsame|].
  intros k q [_ Hq]%lookup_delete_Some. by apply Hreg.
Qed.

Lemma length_filter_split {A} (P : A → Prop) `{!∀ x, Decision (P x)} (l : list A) :
  (length (filter P l) + length (filter (fun x => ¬ P x) l) = length l)%nat.
Proof.
  induction l as [|x l IH]; [done|]. rewrite !filter_cons.
  destruct (decide (P x)), (decide (¬ P x)); cbn; try lia; tauto.
Qed.

Lemma size_filter_count {A} (P : jsstring * A → Prop) `{!∀ x, Decision (P x)}
    (m : gmap jsstring A) :
  size (filter P m) = length (filter P (map_to_list m)).
Proof.
  induction m as [|i x m Hi IH] using map_ind.
  - by rewrite map_filter_empty, map_to_list_empty, map_size_empty.
  - rewrite (map_to_list_insert m i x Hi), filter_cons, map_filter_insert.
    destruct (decide (P (i, x))); cbn.
    + rewrite map_size_insert_None; [by rewrite IH|].
      by apply map_lookup_filter_None_2; left.
    + by rewrite delete_id.
Qed.

Lemma cleanup_stats (now : Z) (s : Service) :
  getCacheStats now (cleanupExpiredCache now s) =
    ((getCacheStats now s).1 - (getCacheStats now s).2, 0)%nat.
Proof.
  unfold getCacheStats, cleanupExpiredCache. cbn. f_equal.
  - rewrite size_filter_count, <- length_map_to_list.
    pose proof (length_filter_split (fun kv : jsstring * CompletionCache =>
                  expiresAt kv.2 <= now) (map_to_list (cache s))) as H.
    cbn in H. lia.
  - rewrite <- (size_filter_count (fun kv : jsstring * CompletionCache =>
                  expiresAt kv.2 <= now)).
    apply map_size_empty_iff, map_empty. intros i.
    apply map_lookup_filter_None_2. destruct (_ !! i) as [c|] eqn:E; [|by left].
    right. intros c' [= <-]. by apply map_lookup_filter_Some in E as [_ E].
Qed.

Lemma cleanup_answer (now now' : Z) (key : jsstring) (s : Service) :
  now <= now' →
  getCachedCompletion now' key (cleanupExpiredCache now s) =
    getCachedCompletion now' key s.
Proof.
  intros Hle. unfold getCachedCompletion, cleanupExpiredCache. cbn.
  destruct (cache s !! key) as [c|] eqn:E.
  - destruct (decide (expiresAt c <= now)) as [Hexp|Hlive].
    + rewrite (map_lookup_filter_None_2 _ _ key).
      * rewrite bool_decide_eq_false_2; [done|]. lia.
      * right. intros c' Hc'. assert (c' = c) as -> by congruence. cbn. tauto.
    + by rewrite (map_lookup_filter_Some_2 _ _ key c E Hlive).
  - rewrite (map_lookup_filter_None_2 _ _ key); [done | by left].
Qed.
Lemma cancel_registered (key : jsstring) (s : Service) (controller : nat) :
  key ≠ [] → abortControllers s !! key = Some controller →
  cancelCompletion (Some key) s =
    mkService (cache s) (delete key (pendingRequests s))
      (delete key (abortControllers s)) (requests s) (controller :: aborted s).
Proof.
  intros Hkey Hc. destruct key as [|c key]; [done|].
  unfold cancelCompletion. by rewrite Hc.
Qed.

Lemma cancel_unregistered (key : jsstring) (s : Service) :
  key ≠ [] → abortControllers s !! key = None → cancelCompletion (Some key) s = s.
Proof.
  intros Hkey Hc. destruct key as [|c key]; [done|].
  unfold cancelCompletion. by rewrite Hc.
Qed.
End ServiceFacts.



(** X15.  The service keeps its two registries in step.  If every key with a
    pending promise has an abort controller and conversely, and every
    registered promise belongs to an API request with that cache key, then
    this is still so after a call of [generateCompletion] (also when its
    second turn runs in a later state than its first), after a promise
    settles, after [cancelCompletion], after a cache sweep and after
    [clearCache]. *)
Theorem service_registries_stay_consistent :
  ∀ s : Completion.Service,
    consistent s →
    (∀ now request, consistent (Completion.generateCompletion now request s).2) ∧
    (∀ now request s0 k,
       Completion.generateCompletion_start now request s0 = inr k →
       consistent (Completion.generateCompletion_resume k s).2) ∧
    (∀ now p outcome, consistent (Completion.settle now p outcome s)) ∧
    (∀ requestKey, consistent (Completion.cancelCompletion requestKey s)) ∧
    (∀ now, consistent (Completion.cleanupExpiredCache now s)) ∧
    consistent (Completion.clearCache s).
Proof.
  intros s Hs.
  assert (∀ now request s0 k,
            Completion.generateCompletion_start now request s0 = inr k →
            consistent (Completion.generateCompletion_resume k s).2) as Hresume.
  { intros now request s0 k Hk. apply ServiceFacts.consistent_resume; [|done].
    unfold Completion.generateCompletion_start in Hk.
    destruct (Completion.pendingRequests s0 !! _); [done|]. by injection Hk as <-. }
  split; [|split; [exact Hresume|]].
  - intros now request. unfold Completion.generateCompletion.
    destruct (Completion.generateCompletion_start now request s) as [r|k] eqn:E;
      [done|]. by eapply Hresume.
  - split; [intros; by apply ServiceFacts.consistent_settle|].
    split; [intros; by apply ServiceFacts.consistent_cancel|].
    split; [intros now|]; exact Hs.
Qed.

Lemma service_registries_stay_consistent_witness :
  consistent Completion.new_service ∧
  consistent (Completion.generateCompletion 0 request_a Completion.new_service).2.
Proof.
  assert (consistent Completion.new_service) as H.
  { split; [reflexivity|]. intros k p Hk. cbn in Hk. by rewrite lookup_empty in Hk. }
  split; [exact H|].
  apply (service_registries_stay_consistent Completion.new_service H).
Defined.


(** X16.  A response is served from the cache for 24 hours.  A call that
    finds nothing pending and nothing live in the cache sends one API
    request.  Once that request is answered, an identical call made less
    than 86 400 000 ms after the answer is served the answer's text and
    sends nothing; a call made at that age or later sends a new API
    request. *)
Theorem response_is_cached_for_24_hours :
  ∀ (s : Completion.Service) (request : Completion.CompletionRequest)
    (now answered later : Z) (r : Completion.CompletionResponse),
    Completion.pendingRequests s !! Completion.generateCacheKey request = None →
    Completion.getCachedCompletion now (Completion.generateCacheKey request) s = None →
    let p := length (Completion.requests s) in
    let s1 := (Completion.generateCompletion now request s).2 in
    let s2 := Completion.settle answered p (Some r) s1 in
    (Completion.generateCompletion now request s).1 = Completion.Joined p ∧
    Completion.requests s1 = (Completion.requests s ++ [request])%list ∧
    (later < answered + 86400000 →
     Completion.generateCompletion later request s2 =
       (Completion.Answer (Completion.mkCompletionResponse (Completion.text r)), s2)) ∧
    (answered + 86400000 <= later →
     (Completion.generateCompletion later request s2).1 = Completion.Joined (S p) ∧
     Completion.requests (Completion.generateCompletion later request s2).2 =
       (Completion.requests s ++ [request; request])%list).
Proof.
  intros s request now answered later r Hp Hc p s1 s2.
  pose proof (ServiceFacts.generateCompletion_issues now request s Hp Hc) as Hrun.
  subst s2 s1 p. rewrite Hrun. cbn [fst snd].
  split; [done|]. split; [done|].
  unfold Completion.settle. cbn [Completion.requests].
  rewrite list_lookup_middle by done.
  cbn [Completion.saveCompletionCache Completion.cache Completion.pendingRequests
       Completion.abortControllers Completion.requests Completion.aborted].
  split.
  - intros Hlive. apply CompletionFacts.generateCompletion_answers_from_cache with
      (c := Completion.mkCompletionCache (Completion.generateCacheKey request)
              (Completion.prompt request) (Completion.context request)
              (Completion.text r) (Completion.language request) answered
              (answered + 24 * 60 * 60 * 1000)); cbn.
    + apply lookup_delete_eq.
    + apply lookup_insert_eq.
    + lia.
  - intros Hold. rewrite ServiceFacts.generateCompletion_issues; cbn.
    + rewrite length_app. cbn. split; [do 2 f_equal; lia|].
      by rewrite <- app_assoc.
    + apply lookup_delete_eq.
    + unfold Completion.getCachedCompletion. cbn. rewrite lookup_insert_eq. cbn.
      rewrite bool_decide_eq_false_2; [done|]. lia.
Qed.

Lemma response_is_cached_for_24_hours_witness :
  let s2 :=
    Completion.settle 10 0
      (Some (Completion.mkCompletionResponse (Completion.js "Hi")))
      (Completion.generateCompletion 0 request_a Completion.new_service).2 in
  Completion.generateCompletion 86400009 request_a s2 =
    (Completion.Answer (Completion.mkCompletionResponse (Completion.js "Hi")), s2) ∧
  (Completion.generateCompletion 86400010 request_a s2).1 = Completion.Joined 1.
Proof.
  pose proof (response_is_cached_for_24_hours Completion.new_service request_a
                0 10 86400009 (Completion.mkCompletionResponse (Completion.js "Hi"))
                eq_refl eq_refl) as (_ & _ & Hlive & _).
  pose proof (response_is_cached_for_24_hours Completion.new_service request_a
                0 10 86400010 (Completion.mkCompletionResponse (Completion.js "Hi"))
                eq_refl eq_refl) as (_ & _ & _ & Hold).
  split; [apply Hlive; lia | apply Hold; lia].
Defined.

(** X17.  A failed API request leaves nothing behind.  When the request of a
    call rejects, the cache is as it was before the call and the key has
    neither a pending promise nor a controller left, so the next identical
    call sends a new API request instead of being handed the failure. *)
Theorem failed_request_is_not_cached :
  ∀ (s : Completion.Service) (request : Completion.CompletionRequest)
    (now failed later : Z),
    Completion.pendingRequests s !! Completion.generateCacheKey request = None →
    Completion.getCachedCompletion now (Completion.generateCacheKey request) s = None →
    now <= later →
    let p := length (Completion.requests s) in
    let s2 :=
      Completion.settle failed p None
        (Completion.generateCompletion now request s).2 in
    Completion.cache s2 = Completion.cache s ∧
    Completion.pendingRequests s2 !! Completion.generateCacheKey request = None ∧
    Completion.abortControllers s2 !! Completion.generateCacheKey request = None ∧
    (Completion.generateCompletion later request s2).1 = Completion.Joined (S p) ∧
    Completion.requests (Completion.generateCompletion later request s2).2 =
      (Completion.requests s ++ [request; request])%list.
Proof.
  intros s request now failed later Hp Hc Hle p s2.
  pose proof (ServiceFacts.generateCompletion_issues now request s Hp Hc) as Hrun.
  subst s2 p. rewrite Hrun. cbn [fst snd].
  unfold Completion.settle. cbn [Completion.requests].
  rewrite list_lookup_middle by done.
  cbn [Completion.cache Completion.pendingRequests
       Completion.abortControllers Completion.requests Completion.aborted].
  split; [done|]. split; [apply lookup_delete_eq|]. split; [apply lookup_delete_eq|].
  rewrite ServiceFacts.generateCompletion_issues; cbn.
  - rewrite length_app. cbn. split; [do 2 f_equal; lia|]. by rewrite <- app_assoc.
  - apply lookup_delete_eq.
  - by apply (ServiceFacts.getCachedCompletion_later now later).
Qed.

Lemma failed_request_is_not_cached_witness :
  (Completion.generateCompletion 20 request_a
     (Completion.settle 10 0 None
        (Completion.generateCompletion 0 request_a Completion.new_service).2)).1 =
    Completion.Joined 1.
Proof.
  pose proof (failed_request_is_not_cached Completion.new_service request_a
                0 10 20 eq_refl eq_refl ltac:(lia)) as (_ & _ & _ & H & _).
  exact H.
Defined.

(** X18.  A cancelled request that settles late unregisters its successor.
    A call sends request [p]; [cancelCompletion(key)] aborts it and clears
    the key; an identical call then sends and registers request [p + 1].
    When the first promise settles afterwards (with the abort error or with
    a late response), its [finally] deletes the entries of the key, which
    by then belong to the second request: that request, still in flight, is
    no longer pending under its key and has no controller, so
    [cancelCompletion(key)] does not abort it. *)
Theorem late_settlement_unregisters_the_successor :
  ∀ (s : Completion.Service) (request : Completion.CompletionRequest)
    (now again settled : Z) (outcome : option Completion.CompletionResponse),
    Completion.pendingRequests s !! Completion.generateCacheKey request = None →
    Completion.getCachedCompletion now (Completion.generateCacheKey request) s = None →
    now <= again →
    let key := Completion.generateCacheKey request in
    let p := length (Completion.requests s) in
    let s1 := (Completion.generateCompletion now request s).2 in
    let s2 := Completion.cancelCompletion (Some key) s1 in
    let s3 := (Completion.generateCompletion again request s2).2 in
    let s4 := Completion.settle settled p outcome s3 in
    Completion.aborted s2 = p :: Completion.aborted s ∧
    (Completion.generateCompletion again request s2).1 = Completion.Joined (S p) ∧
    Completion.pendingRequests s3 !! key = Some (S p) ∧
    Completion.abortControllers s3 !! key = Some (S p) ∧
    Completion.pendingRequests s4 !! key = None ∧
    Completion.abortControllers s4 !! key = None ∧
    Completion.aborted (Completion.cancelCompletion (Some key) s4) =
      p :: Completion.aborted s.
Proof.
  intros s request now again settled outcome Hp Hc Hle key p s1 s2 s3 s4.
  pose proof (ServiceFacts.generateCompletion_issues now request s Hp Hc) as Hrun.
  pose proof (ServiceFacts.generateCacheKey_nonempty request) as Hkey.
  fold key p in Hrun, Hkey, Hp, Hc.
  assert (s2 = Completion.mkService (Completion.cache s)
                 (delete key (<[key := p]> (Completion.pendingRequests s)))
                 (delete key (<[key := p]> (Completion.abortControllers s)))
                 (Completion.requests s ++ [request])%list
                 (p :: Completion.aborted s)) as Hs2.
  { subst s2 s1. rewrite Hrun. cbn [snd].
    rewrite (ServiceFacts.cancel_registered key _ p); [done | done |].
    apply lookup_insert_eq. }
  assert (Completion.generateCompletion again request s2 =
            (Completion.Joined (S p),
             Completion.mkService (Completion.cache s)
               (<[key := S p]> (delete key (<[key := p]> (Completion.pendingRequests s))))
               (<[key := S p]> (delete key (<[key := p]> (Completion.abortControllers s))))
               ((Completion.requests s ++ [request]) ++ [request])%list
               (p :: Completion.aborted s))) as Hagain.
  { rewrite Hs2. rewrite ServiceFacts.generateCompletion_issues.
    - cbn [Completion.cache Completion.pendingRequests Completion.abortControllers
           Completion.requests Completion.aborted].
      fold key. rewrite length_app. cbn [length]. subst p.
      by rewrite Nat.add_1_r.
    - apply lookup_delete_eq.
    - by apply (ServiceFacts.getCachedCompletion_later now again). }
  split; [by rewrite Hs2|]. split; [by rewrite Hagain|].
  subst s4 s3. rewrite Hagain. cbn [snd fst].
  cbn [Completion.pendingRequests Completion.abortControllers].
  split; [apply lookup_insert_eq|]. split; [apply lookup_insert_eq|].
  unfold Completion.settle. cbn [Completion.requests].
  assert (((Completion.requests s ++ [request]) ++ [request])%list !! p = Some request)
    as ->.
  { apply lookup_app_l_Some. by apply list_lookup_middle. }
  fold key.
  destruct outcome as [r|];
    cbn [Completion.saveCompletionCache Completion.cache Completion.pendingRequests
         Completion.abortControllers Completion.requests Completion.aborted];
    (split; [apply lookup_delete_eq|]); (split; [apply lookup_delete_eq|]);
    (rewrite ServiceFacts.cancel_unregistered; [done | done | apply lookup_delete_eq]).
Qed.

Lemma late_settlement_unregisters_the_successor_witness :
  let key := Completion.generateCacheKey request_a in
  let s3 :=
    (Completion.generateCompletion 2 request_a
       (Completion.cancelCompletion (Some key)
          (Completion.generateCompletion 0 request_a Completion.new_service).2)).2 in
  Completion.pendingRequests s3 !! key = Some 1%nat ∧
  Completion.pendingRequests (Completion.settle 3 0 None s3) !! key = None.
Proof.
  pose proof (late_settlement_unregisters_the_successor Completion.new_service
                request_a 0 2 3 None eq_refl eq_refl ltac:(lia))
    as (_ & _ & H3 & _ & H4 & _).
  split; [exact H3 | exact H4].
Defined.

(** X19.  The periodic sweep of the completion cache never changes an
    answer.  [cleanupExpiredCache] at time [now] removes expired entries
    only: at [now] and at any later time [getCachedCompletion] answers every
    key as it would have without the sweep, and right after the sweep
    [getCacheStats] counts no expired entry and a total that is the old
    total less the old expired count. *)
Theorem cleanup_never_changes_an_answer :
  ∀ (s : Completion.Service) (now later : Z) (key : Completion.jsstring),
    now <= later →
    Completion.getCachedCompletion later key (Completion.cleanupExpiredCache now s) =
      Completion.getCachedCompletion later key s ∧
    Completion.getCacheStats now (Completion.cleanupExpiredCache now s) =
      ((Completion.getCacheStats now s).1 - (Completion.getCacheStats now s).2, 0)%nat.
Proof.
  intros s now later key Hle. split.
  - by apply ServiceFacts.cleanup_answer.
  - apply ServiceFacts.cleanup_stats.
Qed.

Lemma cleanup_never_changes_an_answer_witness :
  let s :=
    Completion.settle 10 0
      (Some (Completion.mkCompletionResponse (Completion.js "Hi")))
      (Completion.generateCompletion 0 request_a Completion.new_service).2 in
  Completion.getCachedCompletion 50 (Completion.generateCacheKey request_a)
    (Completion.cleanupExpiredCache 40 s) =
    Some (Completion.mkCompletionResponse (Completion.js "Hi")) ∧
  Completion.getCacheStats 86400010 (Completion.cleanupExpiredCache 86400010 s) =
    (0, 0)%nat.
Proof.
  split.
  - etrans; [apply cleanup_never_changes_an_answer; lia | reflexivity].
  - etrans; [apply (cleanup_never_changes_an_answer _ _ 86400010 []); lia|].
    reflexivity.
Defined.


(** ** Listing documents and clearing the store *)

Section Listing.
Context {DocumentColumns ProjectColumns StandardInfoColumns : Type}.
#[local] Abbreviation DB :=
  (OfflineDatabase DocumentColumns ProjectColumns StandardInfoColumns).

Lemma toArray_NoDup {V} (key : V → string) (t : gmap string V) :
  Dexie.keyed key t → NoDup (Dexie.toArray key t).
Proof.
  intros Hk. unfold Dexie.toArray.
  eapply NoDup_Permutation_proper; [apply merge_sort_Permutation|].
  by apply values_NoDup with (key := key).
Qed.

Lemma toArray_empty {V} (key : V → string) : Dexie.toArray key ∅ = [].
Proof. unfold Dexie.toArray. by rewrite map_to_list_empty. Qed.

Lemma getDocuments_unfold (project_id : DocumentColumns → string)
    (userId : string) (projectId : option string) (db : DB) :
  getDocuments project_id userId projectId db =
    (Resolved
       (filter (fun item =>
                  user_id item = userId ∧
                  match projectId with
                  | Some p =>
                      if truthy p then bool_decide (project_id (columns item) = p)
                      else true
                  | None => true
                  end = true)
          (Dexie.toArray id (documents db))), db).
Proof.
  unfold getDocuments.
  assert ("user_id" ∈ stores_documents) as Hindexed by (vm_compute; set_solver).
  apply on_documents_query. by rewrite where_equals_indexed.
Qed.
End Listing.

(** X20.  [getDocuments(userId, projectId?)] resolves and changes nothing.
    It lists, each once, the stored documents of that user that belong to the
    given project; without a project id, or with the empty string, the
    project is not looked at and the answer is that of
    [getUserOfflineDocuments].  A document of another user is never
    listed. *)
Theorem getDocuments_lists_the_users_documents :
  ∀ (DC PC SC : Type) (project_id : DC → string) (db : OfflineDatabase DC PC SC)
    (userId : string) (projectId : option string),
    wf_table (documents db) →
    ∃ result,
      getDocuments project_id userId projectId db = (Resolved result, db) ∧
      NoDup result ∧
      (∀ r, r ∈ result ↔
            documents db !! id r = Some r ∧ user_id r = userId ∧
            match projectId with
            | Some p => truthy p = true → project_id (columns r) = p
            | None => True
            end) ∧
      (match projectId with Some p => truthy p = false | None => True end →
       getDocuments project_id userId projectId db =
         getUserOfflineDocuments userId db).
Proof.
  intros DC PC SC project_id db userId projectId Hwf.
  eexists. split; [apply getDocuments_unfold|]. split; [|split].
  - apply NoDup_filter. by apply toArray_NoDup.
  - intros r. rewrite list_elem_of_filter, elem_of_toArray. split.
    + intros [[Hu Hp] [k Hk]]. rewrite <- (Hwf k r Hk) in Hk.
      split; [done|]. split; [done|].
      destruct projectId as [p|]; [|done]. intros Ht. rewrite Ht in Hp.
      by apply bool_decide_eq_true in Hp.
    + intros (Hk & Hu & Hp). split; [|by eauto]. split; [done|].
      destruct projectId as [p|]; [|done]. destruct (truthy p); [|done].
      by apply bool_decide_eq_true, Hp.
  - intros Hnone. rewrite getDocuments_unfold.
    unfold getUserOfflineDocuments, on_documents.
    rewrite user_query by (vm_compute; set_solver). unfold user_records.
    destruct db; cbn. do 2 f_equal. apply list_filter_iff. intros r.
    destruct projectId as [p|]; [rewrite Hnone|]; tauto.
Qed.

Lemma getDocuments_lists_the_users_documents_witness :
  ∃ result,
    getDocuments (fun text : string => text) "u1" (Some "new text 2") store_two_edits =
      (Resolved result, store_two_edits) ∧
    (∀ r, r ∈ result → id r = "d2").
Proof.
  destruct (getDocuments_lists_the_users_documents string string string
              (fun text : string => text) store_two_edits "u1" (Some "new text 2")
              (proj1 (proj1 wf_store_two_edits)))
    as (result & Hrun & _ & Hin & _).
  exists result. split; [exact Hrun|]. intros r [Hk [_ Hp]]%Hin.
  specialize (Hp eq_refl).
  assert (∀ k v, documents store_two_edits !! k = Some v →
                 columns v = "new text 2" → k = "d2") as Honly.
  { intros k v. unfold store_two_edits, saved, Store.
    rewrite (saveDocumentOffline_documents 2 "d2") by done.
    rewrite (saveDocumentOffline_documents 1 "d1") by done. cbn.
    intros [[<- <-]|[_ [[<- <-]|[_ H]]%lookup_insert_Some]]%lookup_insert_Some;
      [done | discriminate | by rewrite lookup_empty in H]. }
  by apply (Honly _ _ Hk).
Defined.

(** X21.  [clearAllOfflineData] empties the store for every user, not only
    for the one signed in: afterwards, whatever the user id, the statistics
    are all zero with no last sync time, no document can be read, no queue
    item is pending, and no key of the generic cache has a value. *)
Theorem clearAllOfflineData_clears_every_user :
  ∀ (DC PC SC : Type) (db : OfflineDatabase DC PC SC),
    ∃ db',
      clearAllOfflineData db = (Resolved tt, db') ∧
      ∀ userId,
        getSyncStats userId db' =
          (Resolved (mkStats (mkCounts 0 0 0 0) (mkCounts 0 0 0 0) (mkCounts 0 0 0 0)
                       0 None), db') ∧
        getPendingSyncItems userId db' = (Resolved [], db') ∧
        (∀ documentId, getDocument userId documentId db' = (Resolved None, db')) ∧
        (∀ now key, getCache now key db' = (Resolved None, db')).
Proof.
  intros DC PC SC db. exists (mkDB ∅ ∅ ∅ ∅ ∅). split; [reflexivity|].
  intros userId. split; [|split; [|split]].
  - rewrite getSyncStats_unfold. cbn. unfold user_records.
    by rewrite !toArray_empty.
  - unfold getPendingSyncItems, on_sync_queue.
    rewrite where_equals_indexed by (vm_compute; set_solver). cbn.
    by rewrite toArray_empty.
  - intros documentId. rewrite getDocument_lookup; [done|].
    intros k r Hk. cbn in Hk. by rewrite lookup_empty in Hk.
  - intros now key. rewrite getCache_unfold. cbn. by rewrite toArray_empty.
Qed.


(** ** The key of the hook and the key of the service *)

Module HookFacts.
Import Completion UseCompletion.
Local Open Scope list_scope.
Local Open Scope Z_scope.

Lemma base64_length (fuel : nat) (s : jsstring) :
  (length s < fuel)%nat →
  length (base64 fuel s) = (4 * ((length s + 2) / 3))%nat.
Proof.
  revert s. induction fuel as [|fuel IH]; intros s Hlen; [lia|].
  destruct s as [|a [|b [|c rest]]]; [done..|].
  cbn [base64 app length] in *. rewrite IH by lia.
  replace (S (S (S (length rest))) + 2)%nat with ((length rest + 2) + 1 * 3)%nat by lia.
  rewrite Nat.div_add by done. lia.
Qed.

Lemma btoa_length (s encoded : jsstring) :
  btoa s = Some encoded → length encoded = (4 * ((length s + 2) / 3))%nat.
Proof.
  unfold btoa. destruct (forallb _ _); [|done]. intros E.
  assert (encoded = base64 (S (length s)) s) as -> by congruence.
  apply base64_length. lia.
Qed.

Lemma join_comma_snoc (l : list jsstring) (x : jsstring) :
  l ≠ [] → join_comma (l ++ [x]) = join_comma l ++ js "," ++ x.
Proof.
  induction l as [|a l IH]; [done|]. intros _. destruct l as [|b l]; [done|].
  change (join_comma ((a :: b :: l) ++ [x])) with
    (a ++ js "," ++ join_comma ((b :: l) ++ [x])).
  rewrite IH by done.
  change (join_comma (a :: b :: l)) with (a ++ js "," ++ join_comma (b :: l)).
  by rewrite <- !app_assoc.
Qed.

(** The text the service encodes is the text the hook encodes with a
    [maxTokens] member put before the closing brace. *)
Lemma JSON_with_maxTokens (p : jsstring) (c l : option jsstring) (n : Z) :
  ∃ body member_n,
    JSON_stringify (mkKeyData p c l None) = js "{" ++ body ++ js "}" ∧
    JSON_stringify (mkKeyData p c l (Some n)) =
      js "{" ++ (body ++ js "," ++ member_n) ++ js "}" ∧
    (2 <= length member_n)%nat.
Proof.
  exists (join_comma (member "prompt" (Some (quote p)) ++ member "context" (quote <$> c)
                      ++ member "language" (quote <$> l))),
    (quote (js "maxTokens") ++ js ":" ++ js (pretty n)).
  unfold JSON_stringify.
  cbn [k_prompt k_context k_language k_maxTokens fmap option_fmap option_map].
  split; [|split].
  - change (member "maxTokens" None) with (@nil jsstring).
    by rewrite !app_nil_r.
  - change (member "maxTokens" (Some (js (pretty n)))) with
      [quote (js "maxTokens") ++ js ":" ++ js (pretty n)].
    assert (∀ a b c d : list jsstring, a ++ b ++ c ++ d = (a ++ b ++ c) ++ d) as ->
      by (intros; by rewrite <- !app_assoc).
    by rewrite join_comma_snoc.
  - unfold quote. rewrite !length_app. cbn [length]. lia.
Qed.

Lemma requestKey_of_nonempty (options : Options) (prompt : jsstring)
    (context : option jsstring) :
  btoa (JSON_stringify
          (mkKeyData (trim prompt) (trim <$> context) (o_language options) None)) ≠ None →
  requestKey_of options prompt context ≠ [].
Proof.
  unfold requestKey_of. cbv zeta.
  destruct (ServiceFacts.JSON_stringify_head
              (mkKeyData (trim prompt) (trim <$> context) (o_language options) None))
    as [rest ->].
  unfold btoa. destruct (forallb _ _); [|done]. intros _.
  apply ServiceFacts.base64_nonempty.
Qed.

Lemma keys_differ (options : Options) (prompt : jsstring) (context : option jsstring)
    (onStream : bool) :
  btoa (JSON_stringify (keyData_of (request_of options prompt context onStream))) ≠ None →
  btoa (JSON_stringify
          (mkKeyData (trim prompt) (trim <$> context) (o_language options) None)) ≠ None ∧
  requestKey_of options prompt context ≠
    generateCacheKey (request_of options prompt context onStream).
Proof.
  unfold generateCacheKey, requestKey_of, keyData_of, request_of. cbv zeta.
  cbn [Completion.prompt Completion.context Completion.language Completion.maxTokens].
  destruct (JSON_with_maxTokens (trim prompt) (trim <$> context) (o_language options)
              (default 1000 (o_maxTokens options)))
    as (body & member_n & Hhook & Hservice & Hlen).
  rewrite Hhook, Hservice.
  destruct (btoa (js "{" ++ (body ++ js "," ++ member_n) ++ js "}"))
    as [service_key|] eqn:Es; [intros _|done].
  assert (btoa (js "{" ++ body ++ js "}") ≠ None) as Hlatin.
  { unfold btoa in Es |- *.
    destruct (forallb _ (js "{" ++ (body ++ _ ++ _) ++ _)) eqn:Ef; [|done].
    rewrite !forallb_app in Ef. rewrite !forallb_app.
    apply andb_prop in Ef as [E1 [[E2 _]%andb_prop E3]%andb_prop].
    by rewrite E1, E2, E3. }
  split; [exact Hlatin|].
  destruct (btoa (js "{" ++ body ++ js "}")) as [hook_key|] eqn:Eh; [|done].
  apply btoa_length in Es, Eh. intros ->. rewrite Es in Eh. clear Es Hlatin.
  revert Eh. rewrite !length_app.
  change (length (js ",")) with 1%nat. change (length (js "{")) with 1%nat.
  change (length (js "}")) with 1%nat.
  generalize dependent (length member_n). generalize (length body).
  intros b m Hm Eh.
  assert (1 + (b + 1) + 2 + 1 * 3 <= 1 + (b + (1 + m) + 1) + 2)%nat as Hle by lia.
  apply (Nat.Div0.div_le_mono _ _ 3) in Hle. rewrite Nat.div_add in Hle by done. lia.
Qed.
End HookFacts.

(** X22.  The key that the hook keeps for cancelling is not the key under
    which the service registers the request.  The hook encodes the trimmed
    prompt, the trimmed context and the language; the service encodes these
    and [maxTokens], which the hook always sets.  When the text can be
    encoded by [btoa] (no character above U+00FF), the two keys differ, and
    [cancelCompletion(requestKey)] with the hook's key leaves the request
    that [generateCompletion] has just registered pending and not aborted,
    unless some other request happens to be registered under the hook's
    key. *)
Theorem hook_key_is_not_the_service_key :
  ∀ (options : UseCompletion.Options) (prompt : Completion.jsstring)
    (context : option Completion.jsstring) (onStream : bool),
    Completion.btoa
      (Completion.JSON_stringify
         (Completion.keyData_of
            (UseCompletion.request_of options prompt context onStream))) ≠ None →
    let request := UseCompletion.request_of options prompt context onStream in
    let requestKey := UseCompletion.requestKey_of options prompt context in
    requestKey ≠ Completion.generateCacheKey request ∧
    ∀ (s : Completion.Service) (now : Z),
      Completion.abortControllers s !! requestKey = None →
      Completion.cancelCompletion (Some requestKey)
        (Completion.generateCompletion now request s).2 =
      (Completion.generateCompletion now request s).2.
Proof.
  intros options prompt context onStream Hlatin request requestKey.
  destruct (HookFacts.keys_differ options prompt context onStream Hlatin)
    as [Hhook Hne].
  fold request requestKey in Hne. split; [exact Hne|].
  intros s now Hfree. apply ServiceFacts.cancel_unregistered.
  - by apply HookFacts.requestKey_of_nonempty.
  - unfold Completion.generateCompletion, Completion.generateCompletion_start.
    destruct (Completion.pendingRequests s !! _); [done|].
    unfold Completion.generateCompletion_resume. cbn.
    destruct (Completion.getCachedCompletion _ _ _); [done|]. cbn.
    by rewrite lookup_insert_ne.
Qed.

Lemma hook_key_is_not_the_service_key_witness :
  let options := UseCompletion.mkOptions None None None None in
  let request := UseCompletion.request_of options (Completion.js "Hello") None false in
  let s1 := (Completion.generateCompletion 0 request Completion.new_service).2 in
  let requestKey := UseCompletion.requestKey_of options (Completion.js "Hello") None in
  Completion.cancelCompletion (Some requestKey) s1 = s1 ∧
  Completion.pendingRequests s1 !! Completion.generateCacheKey request = Some 0%nat.
Proof.
  split; [|reflexivity].
  apply (hook_key_is_not_the_service_key (UseCompletion.mkOptions None None None None)
           (Completion.js "Hello") None false); [discriminate | reflexivity].
Defined.


(** X23.  Cancelling without a key cancels everything.  [cancelCompletion]
    called with no key, or with the empty string, aborts every registered
    controller and empties both registries, whichever caller registered the
    requests; the cache and the list of API requests are untouched.  This is
    what the hook's [cleanup] does while its [requestKey] is still the
    initial empty string. *)
Theorem cancel_without_key_cancels_everything :
  ∀ (s : Completion.Service) (requestKey : option Completion.jsstring),
    requestKey = None ∨ requestKey = Some [] →
    let s' := Completion.cancelCompletion requestKey s in
    s' = UseCompletion.cleanup [] s ∧
    Completion.pendingRequests s' = ∅ ∧
    Completion.abortControllers s' = ∅ ∧
    Completion.cache s' = Completion.cache s ∧
    Completion.requests s' = Completion.requests s ∧
    (∀ controller,
       controller ∈ Completion.aborted s' ↔
       controller ∈ Completion.aborted s ∨
       ∃ key, Completion.abortControllers s !! key = Some controller).
Proof.
  intros s requestKey Hkey s'.
  assert (s' = Completion.cancelCompletion None s) as ->
    by (by destruct Hkey as [->| ->]).
  repeat (split; [reflexivity|]). intros controller. cbn.
  rewrite elem_of_app, list_elem_of_fmap. split.
  - intros [([k c] & -> & Hin%elem_of_map_to_list)|Hold]; [right; by exists k | by left].
  - intros [Hold|[k Hk]]; [by right | left].
    exists (k, controller). split; [done|]. by apply elem_of_map_to_list.
Qed.

Lemma cancel_without_key_cancels_everything_witness :
  let s1 := (Completion.generateCompletion 0 request_a Completion.new_service).2 in
  Completion.pendingRequests (Completion.cancelCompletion (Some []) s1) = ∅ ∧
  0%nat ∈ Completion.aborted (Completion.cancelCompletion (Some []) s1).
Proof.
  pose proof (cancel_without_key_cancels_everything
                (Completion.generateCompletion 0 request_a Completion.new_service).2
                (Some []) ltac:(by right)) as (_ & Hp & _ & _ & _ & Hin).
  split; [exact Hp|]. apply Hin. right.
  exists (Completion.generateCacheKey request_a). apply lookup_insert_eq.
Defined.


(** ** The generic cache: writing, reading back, sweeping *)

Section CacheRoundTrip.
Context {DocumentColumns ProjectColumns StandardInfoColumns : Type}.
#[local] Abbreviation DB :=
  (OfflineDatabase DocumentColumns ProjectColumns StandardInfoColumns).

(** Against the text of a clock reading with a four-digit year, a stored
    expiry is later exactly when it is a later instant that still has a
    four-digit year. *)
Lemma index_key_later (t later : Z) :
  four_digit_year later →
  index_key t > later ↔ later < t <= last_text_instant.
Proof.
  unfold index_key, four_digit_year, before_every_text. intros Hlater.
  case_decide; lia.
Qed.

Lemma not_a_time_value (t later : Z) :
  four_digit_year later → time_value t = false →
  ¬ (later < t <= last_text_instant).
Proof.
  unfold four_digit_year, time_value, first_text_instant, last_text_instant.
  intros Hlater [H%Z.leb_gt|H%Z.leb_gt]%andb_false_iff; lia.
Qed.

Lemma getCache_nothing_live (later : Z) (key : string) (db : DB) :
  (∀ k e, cache db !! k = Some e → c_key e = key → expires_at e <= later) →
  (getCache later key db).1 = Resolved None.
Proof.
  intros Hold. rewrite getCache_unfold. cbn [fst]. rewrite empty_filter; [done|].
  intros e [k Hk]%elem_of_toArray [Hkey Hlive%bool_decide_eq_true_1].
  specialize (Hold k e Hk Hkey). lia.
Qed.

Lemma setCache_written (now : Z) (key data : string) (ttlMinutes : Z) (db : DB) :
  time_value (now + ttlMinutes * 60 * 1000) = true →
  setCache now key data ttlMinutes db =
    (Resolved tt,
     mkDB (documents db) (projects db) (standard_info db) (sync_queue db)
       (<[key +:+ "_" +:+ pretty now :=
            mkCache (key +:+ "_" +:+ pretty now) key data
              (index_key (now + ttlMinutes * 60 * 1000)) now]> (cache db))).
Proof. intros Ht. unfold setCache. by rewrite Ht. Qed.

Lemma setCache_refused (now : Z) (key data : string) (ttlMinutes : Z) (db : DB) :
  time_value (now + ttlMinutes * 60 * 1000) = false →
  setCache now key data ttlMinutes db = (Rejected "Invalid time value", db).
Proof. intros Ht. unfold setCache. by rewrite Ht. Qed.
End CacheRoundTrip.

(** X6.  What [getCache] answers after [setCache], read by a clock in the
    years 0000 to 9999 and provided no other entry of the key is live at
    that reading.  [setCache] resolves exactly when the expiry
    [now + ttlMinutes] minutes is a time value; otherwise it rejects and
    writes nothing.  The lookup answers the written payload when the payload
    is truthy, the reading is before the expiry and the expiry is no later
    than the end of the year 9999; in every other case (falsy payload,
    expiry passed, expiry beyond the year 9999, refused write) it answers
    null. *)
Theorem setCache_then_getCache :
  ∀ (DC PC SC : Type) (db : OfflineDatabase DC PC SC) (now later ttlMinutes : Z)
    (key data : string),
    four_digit_year later →
    (∀ k e, cache db !! k = Some e → c_key e = key → expires_at e <= later) →
    let expiry := now + ttlMinutes * 60 * 1000 in
    ((setCache now key data ttlMinutes db).1 = Resolved tt ↔ time_value expiry = true) ∧
    (time_value expiry = false → (setCache now key data ttlMinutes db).2 = db) ∧
    (getCache later key (setCache now key data ttlMinutes db).2).1 =
      Resolved (if truthy data && bool_decide (later < expiry <= last_text_instant)
                then Some data else None).
Proof.
  intros DC PC SC db now later ttl key data Hlater Hold expiry.
  destruct (time_value expiry) eqn:Ht.
  - rewrite (setCache_written now key data ttl db Ht). cbn [fst snd].
    split; [done|]. split; [done|].
    rewrite getCache_unfold. cbn [fst cache]. f_equal.
    set (entry := mkCache (key +:+ "_" +:+ pretty now) key data (index_key expiry) now).
    set (L := filter _ _).
    assert (∀ y, y ∈ L → y = entry) as Honly.
    { intros y [[Hkey Hlive%bool_decide_eq_true_1] [k Hk]%elem_of_toArray]%list_elem_of_filter.
      apply lookup_insert_Some in Hk as [[_ <-]|[_ Hk]]; [done|].
      specialize (Hold k y Hk Hkey). lia. }
    case_bool_decide as Hlive.
    + rewrite (head_only L entry).
      * cbn. by destruct (truthy data).
      * apply list_elem_of_filter. split.
        -- split; [done|]. apply bool_decide_eq_true_2. cbn.
           by apply index_key_later.
        -- apply elem_of_toArray. exists (c_id entry). apply lookup_insert_eq.
      * exact Honly.
    + rewrite andb_false_r. destruct L as [|y l] eqn:HL; [done|].
      assert (y ∈ L) as Hy by (rewrite HL; left).
      pose proof (Honly y ltac:(rewrite <- HL; exact Hy)) as ->.
      subst L. apply list_elem_of_filter in Hy as [[_ Hl%bool_decide_eq_true_1] _].
      cbn in Hl. by apply index_key_later in Hl.
  - rewrite (setCache_refused now key data ttl db Ht). cbn [fst snd].
    split; [done|]. split; [done|].
    rewrite (getCache_nothing_live later key db Hold).
    rewrite bool_decide_eq_false_2 by (by apply not_a_time_value).
    by rewrite andb_false_r.
Qed.

Lemma setCache_then_getCache_witness :
  (getCache 30 "k1" (setCache 10 "k1" "payload" 1 empty_store).2).1 =
    Resolved (Some "payload") ∧
  (getCache 30 "k1" (setCache 10 "k1" "payload" 5000000000 empty_store).2).1 =
    Resolved None.
Proof.
  assert (four_digit_year 30) as Hclock
    by (unfold four_digit_year, first_text_instant, last_text_instant; lia).
  assert (∀ k e, cache empty_store !! k = Some e → c_key e = "k1" → expires_at e <= 30)
    as Hempty by (intros k e He; cbn in He; by rewrite lookup_empty in He).
  split.
  - destruct (setCache_then_getCache string string string empty_store 10 30 1
                "k1" "payload" Hclock Hempty) as (_ & _ & H).
    etrans; [exact H | reflexivity].
  - destruct (setCache_then_getCache string string string empty_store 10 30 5000000000
                "k1" "payload" Hclock Hempty) as (_ & _ & H).
    etrans; [exact H | reflexivity].
Defined.

(** X7.  The eviction sweep, run by a clock in the years 0000 to 9999.
    [clearExpiredCache] resolves and removes exactly the rows whose
    [expires_at] orders before the text of the current time, keeping every
    other row and every other table.  These are the rows whose four-digit
    expiry has passed and also, whatever their expiry, the rows whose
    [expires_at] is a [Date] or a text with an expanded year.  No [getCache]
    lookup made at that time or later answers differently after the sweep
    than before it. *)
Theorem sweep_removes_expired_entries_only :
  ∀ (DC PC SC : Type) (db : OfflineDatabase DC PC SC) (now : Z),
    wf_cache db → four_digit_year now →
    let db' := (clearExpiredCache now db).2 in
    (clearExpiredCache now db).1 = Resolved tt ∧
    (∀ k e, cache db' !! k = Some e ↔ cache db !! k = Some e ∧ ¬ expires_at e < now) ∧
    (∀ k e, cache db !! k = Some e → expires_at e = before_every_text →
            cache db' !! k = None) ∧
    (∀ later key, now <= later → (getCache later key db').1 = (getCache later key db).1) ∧
    documents db' = documents db ∧ projects db' = projects db ∧
    standard_info db' = standard_info db ∧ sync_queue db' = sync_queue db.
Proof.
  intros DC PC SC db now Hwf Hclock db'.
  pose proof (swept_cache now db Hwf) as Hswept. fold db' in Hswept.
  assert (∀ k e, cache db' !! k = Some e ↔ cache db !! k = Some e ∧ ¬ expires_at e < now)
    as Hkept by (intros k e; by rewrite Hswept, map_lookup_filter_Some).
  split; [done|]. split; [exact Hkept|]. split; [|split; [|done]].
  - intros k e Hk Hdate. destruct (cache db' !! k) as [e'|] eqn:E; [|done].
    apply Hkept in E as [E Hlive]. assert (e' = e) as -> by congruence.
    unfold four_digit_year, before_every_text in *. lia.
  - intros later key Hlater. rewrite !getCache_unfold. cbn [fst]. do 2 f_equal.
    rewrite Hswept.
    pose proof (toArray_filter c_id (fun e => ¬ expires_at e < now) (cache db) Hwf)
      as Hsorted.
    cbn beta in Hsorted. rewrite Hsorted.
    rewrite list_filter_filter_l; [done|].
    intros e [_ Hlive%bool_decide_eq_true_1]. lia.
Qed.

Lemma wf_store_three_cache_entries : wf_store store_three_cache_entries.
Proof.
  unfold store_three_cache_entries, saved.
  do 3 apply setCache_keys. exact wf_store_empty_store.
Defined.

Lemma sweep_removes_expired_entries_only_witness :
  let db' := (clearExpiredCache 100000 store_three_cache_entries).2 in
  (∀ k e, cache db' !! k = Some e ↔
          cache store_three_cache_entries !! k = Some e ∧ ¬ expires_at e < 100000) ∧
  cache store_three_cache_entries !! "k1_10" =
    Some (mkCache "k1_10" "k1" "old" 60010 10) ∧
  cache store_three_cache_entries !! "k3_30" =
    Some (mkCache "k3_30" "k3" "far" before_every_text 30) ∧
  cache db' !! "k1_10" = None ∧
  cache db' !! "k2_20" = Some (mkCache "k2_20" "k2" "new" 3600020 20) ∧
  cache db' !! "k3_30" = None.
Proof.
  destruct (sweep_removes_expired_entries_only string string string
              store_three_cache_entries 100000
              (proj2 (proj2 wf_store_three_cache_entries))) as (_ & Hkept & _).
  - unfold four_digit_year, first_text_instant, last_text_instant. lia.
  - split; [exact Hkept|]. vm_compute. tauto.
Defined.


(** ** C3: the calls of the push phase *)

Section PushLog.
Context {DocumentColumns ProjectColumns StandardInfoColumns G : Type}.
Variable supabase :
  Supabase DocumentColumns ProjectColumns StandardInfoColumns G.
#[local] Abbreviation DB :=
  (OfflineDatabase DocumentColumns ProjectColumns StandardInfoColumns).
#[local] Abbreviation W :=
  (World DocumentColumns ProjectColumns StandardInfoColumns G).
#[local] Abbreviation same_calls := (fun w w' : W => calls w' = calls w).

#[local] Instance same_calls_preorder : PreOrder same_calls.
Proof. split; [done | intros a b c Hab Hbc; congruence]. Qed.

Lemma on_db_quiet {T} (m : Async DB T) : preserves same_calls (on_db m).
Proof. intros w. unfold on_db. by destruct (m (db w)). Qed.

Lemma on_remote_logs {T} (c : RemoteCall) (m : Async G T) (w : W) :
  calls (on_remote c m w).2 = calls w ++ [c].
Proof. unfold on_remote. by destruct (m (remote w)). Qed.

Lemma logs_bind {A B} (m : Async W A) (k : A → Async W B) (c : RemoteCall) :
  (∀ w, calls (m w).2 = calls w ++ [c]) → (∀ a, preserves same_calls (k a)) →
  ∀ w, calls (bind m k w).2 = calls w ++ [c].
Proof.
  intros Hm Hk w. unfold bind. specialize (Hm w).
  destruct (m w) as [[a|e] w1]; cbn in *; [|done]. by rewrite (Hk a w1).
Qed.

Lemma logs_try_catch {A} (body : Async W A) (handler : string → Async W A)
    (c : RemoteCall) :
  (∀ w, calls (body w).2 = calls w ++ [c]) → (∀ e, preserves same_calls (handler e)) →
  ∀ w, calls (try_catch body handler w).2 = calls w ++ [c].
Proof.
  intros Hm Hk w. unfold try_catch. specialize (Hm w).
  destruct (body w) as [[a|e] w1]; cbn in *; [done|]. by rewrite (Hk e w1).
Qed.

(** Every push makes exactly one remote call, whatever its outcome. *)
Lemma pushProject_logs (now : Z) (p : Offline ProjectColumns) (w : W) :
  calls (pushProject supabase now p w).2 = calls w ++ [call_for t_projects p].
Proof.
  unfold pushProject, call_for.
  apply logs_try_catch; [|intros; apply on_db_quiet].
  apply logs_bind; [|intros; apply on_db_quiet].
  destruct (is_server_id (id p)); apply logs_bind;
    [apply on_remote_logs | intros; apply preserves_ret; apply _
    |apply on_remote_logs | intros; apply on_db_quiet].
Qed.

Lemma pushDocument_logs (now : Z) (userId : string) (d : Offline DocumentColumns)
    (w : W) :
  calls (pushDocument supabase now userId d w).2 = calls w ++ [call_for t_documents d].
Proof.
  unfold pushDocument, call_for.
  apply logs_try_catch; [|intros; apply on_db_quiet].
  apply logs_bind; [|intros; apply on_db_quiet].
  destruct (is_server_id (id d)); apply logs_bind;
    [apply on_remote_logs | intros; apply preserves_ret; apply _
    |apply on_remote_logs | intros; apply on_db_quiet].
Qed.

Lemma pushStandardInfo_logs (now : Z) (userId : string)
    (s : Offline StandardInfoColumns) (w : W) :
  calls (pushStandardInfo supabase now userId s w).2 =
    calls w ++ [call_for t_standard_info s].
Proof.
  unfold pushStandardInfo, call_for.
  apply logs_try_catch; [|intros; apply on_db_quiet].
  apply logs_bind; [|intros; apply on_db_quiet].
  destruct (is_server_id (id s)); apply logs_bind;
    [apply on_remote_logs | intros; apply preserves_ret; apply _
    |apply on_remote_logs | intros; apply preserves_ret; apply _].
Qed.

Lemma for_of_logs {A} (xs : list A) (body : A → Async W unit) (c : A → RemoteCall) :
  (∀ x w, calls (body x w).2 = calls w ++ [c x]) →
  ∀ w, ∃ new, logged (c <$> xs) (for_of xs body w) w new.
Proof.
  intros Hbody. induction xs as [|x xs IH]; intros w.
  - exists []. split; [|split; [|split]]; cbn; [by rewrite app_nil_r | done..].
  - cbn [for_of]. unfold bind. specialize (Hbody x w).
    destruct (body x w) as [[[]|e] w1]; cbn [fst snd] in *.
    + destruct (IH w1) as (new & Hcalls & Hprefix & Hres & Hrej).
      exists (c x :: new). split; [|split; [|split]].
      * by rewrite Hcalls, Hbody, <- app_assoc.
      * by apply prefix_cons.
      * intros Hr. cbn. f_equal. by apply Hres.
      * done.
    + exists [c x]. split; [|split; [|split]]; [done | | done | done].
      apply prefix_cons, prefix_nil.
Qed.

Lemma pushProjects_logs (now : Z) (userId : string) (w : W) :
  ∃ new,
    logged (call_for t_projects <$> pending_only (user_records userId (projects (db w))))
      (pushProjects supabase now userId w) w new.
Proof.
  unfold pushProjects, bind, on_db, getUserOfflineProjects, on_projects.
  rewrite user_query by (vm_compute; set_solver). cbn [fst snd].
  match goal with |- context [for_of ?l ?b ?w'] =>
    replace w' with w by (by destruct w as [[] ? ?]) end.
  apply for_of_logs. intros p w0. apply pushProject_logs.
Qed.

Lemma pushDocuments_logs (now : Z) (userId : string) (w : W) :
  ∃ new,
    logged (call_for t_documents <$> pending_only (user_records userId (documents (db w))))
      (pushDocuments supabase now userId w) w new.
Proof.
  unfold pushDocuments, bind, on_db, getUserOfflineDocuments, on_documents.
  rewrite user_query by (vm_compute; set_solver). cbn [fst snd].
  match goal with |- context [for_of ?l ?b ?w'] =>
    replace w' with w by (by destruct w as [[] ? ?]) end.
  apply for_of_logs. intros d w0. apply pushDocument_logs.
Qed.

Lemma pushStandardInfos_logs (now : Z) (userId : string) (w : W) :
  ∃ new,
    logged (call_for t_standard_info <$>
              pending_only (user_records userId (standard_info (db w))))
      (pushStandardInfos supabase now userId w) w new.
Proof.
  unfold pushStandardInfos, bind, on_db, getUserOfflineStandardInfo, on_standard_info.
  rewrite user_query by (vm_compute; set_solver). cbn [fst snd].
  match goal with |- context [for_of ?l ?b ?w'] =>
    replace w' with w by (by destruct w as [[] ? ?]) end.
  apply for_of_logs. intros s w0. apply pushStandardInfo_logs.
Qed.

Lemma pushPhase_logs (now : Z) (userId : string) (w : W) :
  wf_db (db w) →
  ∃ new, logged (expected_calls userId (db w)) (pushPhase supabase now userId w) w new.
Proof.
  intros (Hd & Hp & Hs). unfold expected_calls.
  set (E1 := call_for t_projects <$> _). set (E2 := call_for t_documents <$> _).
  set (E3 := call_for t_standard_info <$> _).
  unfold pushPhase, bind.
  destruct (pushProjects_logs now userId w) as (n1 & C1 & P1 & R1 & J1).
  fold E1 in P1, R1.
  destruct (pushProjects_grows supabase now userId (db w) w Hp eq_refl)
    as [[Hdoc Hstd] _].
  destruct (pushProjects supabase now userId w) as [[[]|e1] w1]; cbn [fst snd] in *.
  2:{ exists n1. unfold logged. cbn [fst snd].
      split; [|split; [|split]]; [done | by apply prefix_app_r | done | ].
      intros e _. by apply (J1 e1). }
  destruct (pushDocuments_logs now userId w1) as (n2 & C2 & P2 & R2 & J2).
  rewrite Hdoc in P2, R2. fold E2 in P2, R2.
  destruct (pushDocuments_grows supabase now userId (db w) w1 Hd Hdoc)
    as [[_ Hstd2] _].
  specialize (R1 eq_refl). subst n1.
  destruct (pushDocuments supabase now userId w1) as [[[]|e2] w2]; cbn [fst snd] in *.
  2:{ exists (E1 ++ n2). unfold logged. cbn [fst snd]. split; [|split; [|split]].
      - by rewrite C2, C1, <- app_assoc.
      - by apply prefix_app, prefix_app_r.
      - done.
      - intros e _ [_ ->]%app_nil. by apply (J2 e2). }
  destruct (pushStandardInfos_logs now userId w2) as (n3 & C3 & P3 & R3 & J3).
  rewrite Hstd2, Hstd in P3, R3. fold E3 in P3, R3.
  specialize (R2 eq_refl). subst n2.
  exists (E1 ++ E2 ++ n3). split; [|split; [|split]].
  - by rewrite C3, C2, C1, <- !app_assoc.
  - by do 2 apply prefix_app.
  - intros Hr. by rewrite (R3 Hr).
  - intros e He [_ [_ ->]%app_nil]%app_nil. by apply (J3 e).
Qed.
End PushLog.

Section SelectedCalls.
Context {F : Type}.

Lemma selected_record (userId : string) (t : gmap string (Offline F)) (r : Offline F) :
  wf_table t →
  r ∈ pending_only (user_records userId t) ↔
  t !! id r = Some r ∧ user_id r = userId ∧ sync_status r = pending.
Proof.
  intros Hwf. unfold pending_only, user_records.
  rewrite !list_elem_of_filter, elem_of_toArray. split.
  - intros (Hp & Hu & k & Hk). by rewrite <- (Hwf k r Hk) in Hk.
  - intros (Hk & Hu & Hp). eauto.
Qed.

Lemma table_calls_elem (table : TableName) (userId : string)
    (t : gmap string (Offline F)) (c : RemoteCall) :
  wf_table t →
  c ∈ call_for table <$> pending_only (user_records userId t) ↔
  ∃ i, selected userId t i ∧
       c = PushCall table (if is_server_id i then op_update else op_create) i.
Proof.
  intros Hwf. rewrite list_elem_of_fmap. split.
  - intros (r & -> & (Hk & Hu & Hp)%selected_record); [|done].
    exists (id r). split; [by exists r | done].
  - intros (i & (r & Hk & Hu & Hp) & ->). exists r.
    pose proof (Hwf i r Hk) as Hid. subst i. split; [done|].
    by apply selected_record.
Qed.

Lemma table_calls_NoDup (table : TableName) (userId : string)
    (t : gmap string (Offline F)) :
  wf_table t → NoDup (call_for table <$> pending_only (user_records userId t)).
Proof.
  intros Hwf. apply NoDup_fmap_2_strong.
  - intros r1 r2 (H1 & _)%selected_record (H2 & _)%selected_record [= _ Hid];
      [|done..]. rewrite Hid in H1. congruence.
  - unfold pending_only, user_records. do 2 apply NoDup_filter.
    by apply toArray_NoDup.
Qed.
End SelectedCalls.

(** C3, amended.  The push phase goes through the pending records of the
    signed-in user, and through no others.  The calls it is to make are one
    create or update per stored record that belongs to the user and is
    pending when the phase starts, no record twice: the projects first, then
    the documents, then the standard info.  The calls it makes are a prefix
    of this list: the whole list when the phase resolves, and at least the
    first call when it rejects.  So no call is made for a record that is in
    error (or synced, or of another user): such a record is attempted again
    only in a cycle that finds it pending. *)
Theorem push_phase_attempts_pending_records_only :
  ∀ (DC PC SC G : Type) (supabase : Supabase DC PC SC G) (now : Z)
    (userId : string) (w : World DC PC SC G),
    wf_db (db w) →
    ∃ new,
      calls (pushPhase supabase now userId w).2 = calls w ++ new ∧
      (∀ c, c ∈ new →
         ∃ table op i, c = PushCall table op i ∧
                       (fst <$> envelope_at table i (db w)) = Some pending) ∧
      (∀ table op i,
         (fst <$> envelope_at table i (db w)) = Some error →
         PushCall table op i ∉ new) ∧
      new `prefix_of` expected_calls userId (db w) ∧
      ((pushPhase supabase now userId w).1 = Resolved tt →
       new = expected_calls userId (db w)) ∧
      (∀ e, (pushPhase supabase now userId w).1 = Rejected e → new ≠ []) ∧
      NoDup (expected_calls userId (db w)) ∧
      (∀ c, c ∈ expected_calls userId (db w) ↔
            ∃ table i, selected_at userId table i (db w) ∧
              c = PushCall table (if is_server_id i then op_update else op_create) i).
Proof.
  intros DC PC SC G supabase now userId w Hwf.
  destruct (pushPhase_logs supabase now userId w Hwf)
    as (new & Hcalls & Hprefix & Hres & Hrej).
  destruct Hwf as (Hd & Hp & Hs).
  assert (∀ c, c ∈ expected_calls userId (db w) ↔
            ∃ table i, selected_at userId table i (db w) ∧
              c = PushCall table (if is_server_id i then op_update else op_create) i)
    as Hexpected.
  { intros c. unfold expected_calls. rewrite !elem_of_app.
    rewrite !table_calls_elem by done. split.
    - intros [(i & Hi & ->)|[(i & Hi & ->)|(i & Hi & ->)]];
        [exists t_projects | exists t_documents | exists t_standard_info];
        by exists i.
    - intros ([] & i & Hi & ->); [right; left | left | right; right]; by exists i. }
  assert (∀ c, c ∈ new →
            ∃ table op i, c = PushCall table op i ∧
                          (fst <$> envelope_at table i (db w)) = Some pending)
    as Hpending.
  { intros c Hc. destruct Hprefix as [rest Hrest].
    assert (c ∈ expected_calls userId (db w)) as Hin
      by (rewrite Hrest; apply elem_of_app; by left).
    apply Hexpected in Hin as (table & i & Hsel & ->).
    eexists table, _, i. split; [done|].
    destruct table; destruct Hsel as (r & Hk & _ & Hst); cbn; rewrite Hk; cbn;
      by rewrite Hst. }
  exists new. split; [done|]. split; [exact Hpending|]. split.
  { intros table op i Herr Hin.
    destruct (Hpending _ Hin) as (t' & op' & i' & [= <- <- <-] & Hpend). congruence. }
  split; [done|]. split; [done|]. split; [done|]. split; [|exact Hexpected].
  unfold expected_calls. apply NoDup_app. split; [by apply table_calls_NoDup|]. split.
  - intros c (i & _ & ->)%table_calls_elem [(j & _ & [=])%table_calls_elem
                                          |(j & _ & [=])%table_calls_elem]%elem_of_app;
      done.
  - apply NoDup_app. split; [by apply table_calls_NoDup|].
    split; [|by apply table_calls_NoDup].
    intros c (i & _ & ->)%table_calls_elem (j & _ & [=])%table_calls_elem; done.
Qed.

Lemma wf_db_store_mixed : wf_db store_mixed.
Proof.
  repeat split; intros k r; cbn.
  - intros [[<- <-]|[_ [[<- <-]|[_ [<- <-]%lookup_singleton_Some]]%lookup_insert_Some]]
      %lookup_insert_Some; done.
  - by rewrite lookup_empty.
  - by rewrite lookup_empty.
Defined.

Lemma push_phase_attempts_pending_records_only_witness :
  ∃ new,
    calls (pushPhase server 100 "u1" (start_world store_mixed server_reachable)).2 =
      [] ++ new ∧
    new = [PushCall t_documents op_update "d2"] ∧
    envelope_at t_documents "d1" store_mixed = Some (error, None) ∧
    (user_id <$> documents store_mixed !! "d3") = Some "u2".
Proof.
  destruct (push_phase_attempts_pending_records_only string string string Server server
              100 "u1" (start_world store_mixed server_reachable) wf_db_store_mixed)
    as (new & Hcalls & _ & _ & _ & Hres & _).
  exists new. split; [exact Hcalls|]. split; [|split; reflexivity].
  rewrite Hres; reflexivity.
Defined.


(** ** C10: one key for requests that differ in temperature and stream *)

(** C10.  The cache key is a function of the trimmed prompt, the trimmed
    context, the language and maxTokens only: two requests that agree on
    these get the same key whatever their temperature and stream settings.
    The second is served what the first left behind when it is called after
    the first has registered its promise (it joins that promise) or while
    the first's response is cached and live, in both cases without a new API
    request.  From a state with nothing pending and nothing live under the
    key, calling one after the other sends one API request and hands both
    callers its promise.  Called in the same turn they are not coalesced:
    both first turns find nothing pending, two API requests go out, the
    callers hold different promises and the second registration replaces
    the first. *)
Theorem cache_key_ignores_temperature_and_stream :
  ∀ r1 r2 : Completion.CompletionRequest,
    Completion.trim (Completion.prompt r1) = Completion.trim (Completion.prompt r2) →
    Completion.trim <$> Completion.context r1 =
      Completion.trim <$> Completion.context r2 →
    Completion.language r1 = Completion.language r2 →
    Completion.maxTokens r1 = Completion.maxTokens r2 →
    Completion.generateCacheKey r1 = Completion.generateCacheKey r2 ∧
    (∀ now s p,
       Completion.pendingRequests s !! Completion.generateCacheKey r1 = Some p →
       Completion.generateCompletion now r2 s = (Completion.Joined p, s)) ∧
    (∀ now s c,
       Completion.pendingRequests s !! Completion.generateCacheKey r1 = None →
       Completion.cache s !! Completion.generateCacheKey r1 = Some c →
       Completion.expiresAt c > now →
       Completion.generateCompletion now r2 s =
         (Completion.Answer (Completion.mkCompletionResponse (Completion.response c)),
          s)) ∧
    (∀ now s,
       Completion.pendingRequests s !! Completion.generateCacheKey r1 = None →
       Completion.getCachedCompletion now (Completion.generateCacheKey r1) s = None →
       let p := length (Completion.requests s) in
       (∀ now',
          let s1 := (Completion.generateCompletion now r1 s).2 in
          (Completion.generateCompletion now r1 s).1 = Completion.Joined p ∧
          Completion.generateCompletion now' r2 s1 = (Completion.Joined p, s1) ∧
          Completion.requests s1 = (Completion.requests s ++ [r1])%list) ∧
       (let '(first, second, after) := Completion.two_calls_in_one_turn now r1 r2 s in
        first = Completion.Joined p ∧ second = Completion.Joined (S p) ∧
        Completion.requests after = (Completion.requests s ++ [r1; r2])%list ∧
        Completion.pendingRequests after !! Completion.generateCacheKey r1 =
          Some (S p))).
Proof.
  intros r1 r2 Hp Hc Hl Hm.
  assert (Completion.generateCacheKey r1 = Completion.generateCacheKey r2) as Hkey.
  { apply CompletionFacts.generateCacheKey_of_keyData.
    unfold Completion.keyData_of. by rewrite Hp, Hc, Hl, Hm. }
  split; [exact Hkey|]. split; [|split].
  - rewrite Hkey. intros now s p.
    apply CompletionFacts.generateCompletion_joins_pending.
  - rewrite Hkey. intros now s c.
    apply CompletionFacts.generateCompletion_answers_from_cache.
  - intros now s Hpending Hcached p. split.
    + intros now' s1. subst s1.
      rewrite (ServiceFacts.generateCompletion_issues now r1 s Hpending Hcached).
      cbn [fst snd]. split; [done|]. split; [|done].
      apply CompletionFacts.generateCompletion_joins_pending. cbn.
      rewrite <- Hkey. apply lookup_insert_eq.
    + unfold Completion.two_calls_in_one_turn, Completion.generateCompletion_start.
      rewrite <- Hkey, Hpending, Hcached.
      unfold Completion.generateCompletion_resume. cbn.
      rewrite length_app, <- app_assoc. cbn. split; [done|].
      split; [subst p; do 2 f_equal; lia|]. split; [done|].
      rewrite lookup_insert_eq. subst p. do 2 f_equal. lia.
Qed.

Lemma cache_key_ignores_temperature_and_stream_witness :
  Completion.generateCacheKey request_a = Completion.generateCacheKey request_a_hot ∧
  Completion.temperature request_a ≠ Completion.temperature request_a_hot ∧
  Completion.stream request_a ≠ Completion.stream request_a_hot ∧
  (let '(first, second, after) :=
     Completion.two_calls_in_one_turn 0 request_a request_a_hot Completion.new_service in
   first = Completion.Joined 0 ∧ second = Completion.Joined 1 ∧
   Completion.requests after = [request_a; request_a_hot]).
Proof.
  destruct (cache_key_ignores_temperature_and_stream request_a request_a_hot
              eq_refl eq_refl eq_refl eq_refl) as (Hkey & _ & _ & Hquiet).
  split; [exact Hkey|]. split; [discriminate|]. split; [discriminate|].
  destruct (Hquiet 0 Completion.new_service eq_refl eq_refl) as [_ Hturn].
  destruct (Completion.two_calls_in_one_turn 0 request_a request_a_hot
              Completion.new_service) as [[first second] after].
  destruct Hturn as (H1 & H2 & H3 & _). by repeat split.
Defined.
